(** * KGV authentication service: a shallow embedding of
      [src/security/authentication_service.py]

    The development follows the layout of the Python module: configuration,
    database rows, [PasswordManager], [JWTManager], [MFAManager] and
    [AuthenticationService.authenticate].

    Conventions of the model.
    - A [datetime] is an integer number of seconds ([Z]); a [timedelta] is
      a [Z] as well, with [.seconds] and [.days] written out.
    - A Python [str] is a [string]; only the ASCII letters have a case and
      only the ASCII digits are digits.
    - The relational store is a record of row lists in storage order; the
      ORM session works on a copy that [db.commit()] makes durable, and
      closing the session drops what was not committed.  Columns that
      [authenticate] never touches are left out of the rows.
    - Redis is a finite map from keys to a time-to-live and a payload.
    - The wall clock and the random source are part of the state: every
      [datetime.utcnow()] is one clock reading, after which the clock
      advances by the next tick; every [secrets] or [uuid] call takes one
      entropy string.
    - [return] and exceptions are outcomes of a statement, next to falling
      through; [try ... except ... finally] is written out once, in
      [authenticate].
    - The primitives of the external libraries (Argon2 and passlib
      verification, the one-time code of a time step, Python's [int()] on
      a string) are variables; signatures are symbolic.
    - Failures of the database engine or of Redis, and the engine's
      uniqueness constraints, are outside the model. *)

From Stdlib Require Import ZArith Lia Bool Ascii String.
From stdpp Require Import base option list strings gmap pretty.

Open Scope string_scope.
Open Scope list_scope.
Open Scope Z_scope.

(** ** Python string operations used by the module *)

Module Py.

Definition code (c : ascii) : nat := nat_of_ascii c.

Definition is_upper (c : ascii) : bool :=
  (65 <=? code c)%nat && (code c <=? 90)%nat.
Definition is_lower (c : ascii) : bool :=
  (97 <=? code c)%nat && (code c <=? 122)%nat.
Definition is_digit (c : ascii) : bool :=
  (48 <=? code c)%nat && (code c <=? 57)%nat.

Definition lower_char (c : ascii) : ascii :=
  if is_upper c then ascii_of_nat (code c + 32) else c.

(** [s.lower()] *)
Fixpoint lower (s : string) : string :=
  match s with
  | EmptyString => EmptyString
  | String c r => String (lower_char c) (lower r)
  end.

Definition chars (s : string) : list ascii := list_ascii_of_string s.

(** [re.search(r'[...]', s)] for a character class given as a predicate. *)
Definition re_search (cls : ascii -> bool) (s : string) : bool :=
  existsb cls (chars s).

(** [len(s)] *)
Definition len (s : string) : Z := Z.of_nat (String.length s).

(** [len(set(s))] *)
Definition len_set (s : string) : Z :=
  Z.of_nat (length (remove_dups (chars s))).

Fixpoint starts_with (p s : string) : bool :=
  match p, s with
  | EmptyString, _ => true
  | String a p', String b s' => if Ascii.eqb a b then starts_with p' s' else false
  | String _ _, EmptyString => false
  end.

(** [sub in s] on two strings: substring test. *)
Fixpoint contains (sub s : string) : bool :=
  starts_with sub s ||
  match s with
  | EmptyString => false
  | String _ s' => contains sub s'
  end.

(** [s.split(sep)[0]] for a one-character separator. *)
Fixpoint split_head (sep : ascii) (s : string) : string :=
  match s with
  | EmptyString => EmptyString
  | String c r => if Ascii.eqb c sep then EmptyString else String c (split_head sep r)
  end.

(** [x in l] on a list of strings. *)
Definition in_list (x : string) (l : list string) : bool :=
  existsb (String.eqb x) l.

(** Truth value of an optional string argument: [None] and [''] are falsy. *)
Definition truthy (o : option string) : bool :=
  match o with
  | Some (String _ _) => true
  | _ => false
  end.

(** [str(n)] *)
Definition str (n : Z) : string := pretty n.

(** [timedelta.seconds] and [timedelta.days] of a difference in seconds. *)
Definition td_seconds (d : Z) : Z := d mod 86400.
Definition td_days (d : Z) : Z := d / 86400.

(** [sep.join(l)] *)
Fixpoint join (sep : string) (l : list string) : string :=
  match l with
  | [] => EmptyString
  | [x] => x
  | x :: r => x +:+ sep +:+ join sep r
  end.

End Py.

(** ** Configuration *)

Record AuthConfig := {
  jwt_algorithm : string;
  jwt_access_token_expiry : Z;
  jwt_refresh_token_expiry : Z;
  jwt_issuer : string;
  jwt_audience : string;
  password_min_length : Z;
  password_require_uppercase : bool;
  password_require_lowercase : bool;
  password_require_numbers : bool;
  password_require_special : bool;
  password_history_count : Z;
  password_expiry_days : Z;
  mfa_enabled : bool;
  mfa_issuer_name : string;
  session_timeout : Z;
  session_absolute_timeout : Z;
  concurrent_sessions_limit : Z;
  max_login_attempts : Z;
  lockout_duration : Z;
  require_email_verification : bool
}.

(** The values [AuthConfig()] takes when no environment variable is set. *)
Definition default_config : AuthConfig := {|
  jwt_algorithm := "RS256";
  jwt_access_token_expiry := 900;
  jwt_refresh_token_expiry := 86400;
  jwt_issuer := "kgv-auth";
  jwt_audience := "kgv-api";
  password_min_length := 12;
  password_require_uppercase := true;
  password_require_lowercase := true;
  password_require_numbers := true;
  password_require_special := true;
  password_history_count := 5;
  password_expiry_days := 90;
  mfa_enabled := true;
  mfa_issuer_name := "KGV System";
  session_timeout := 3600;
  session_absolute_timeout := 43200;
  concurrent_sessions_limit := 3;
  max_login_attempts := 5;
  lockout_duration := 900;
  require_email_verification := true
|}.

(** ** PasswordManager.validate_password_strength *)

Module PasswordManager.

(** The character class of the special-character rule; its double quote
    is character 34. *)
Definition special_chars : list ascii :=
  Py.chars "!@#$%^&*(),.?" ++ [ascii_of_nat 34] ++ Py.chars ":{}|<>".

Definition is_special (c : ascii) : bool :=
  existsb (Ascii.eqb c) special_chars.

Definition common_passwords : list string :=
  ["password"; "123456"; "admin"; "letmein"; "welcome"].

Definition err_length (cfg : AuthConfig) : string :=
  "Password must be at least " +:+ Py.str (password_min_length cfg) +:+ " characters".
Definition err_upper : string := "Password must contain at least one uppercase letter".
Definition err_lower : string := "Password must contain at least one lowercase letter".
Definition err_number : string := "Password must contain at least one number".
Definition err_special : string := "Password must contain at least one special character".
Definition err_common : string := "Password is too common".
Definition err_username : string := "Password cannot contain username".
Definition err_email : string := "Password cannot contain email address".
Definition err_variety : string := "Password lacks sufficient character variety".

(** [errors.append(msg)] when the condition holds. *)
Definition append_if (c : bool) (msg : string) (errors : list string) : list string :=
  if c then errors ++ [msg] else errors.

Definition validate_password_strength (cfg : AuthConfig) (password : string)
    (username email : option string) : bool * list string :=
  let errors := [] in
  let errors := append_if (Py.len password <? password_min_length cfg)
                          (err_length cfg) errors in
  let errors := append_if (password_require_uppercase cfg
                           && negb (Py.re_search Py.is_upper password))
                          err_upper errors in
  let errors := append_if (password_require_lowercase cfg
                           && negb (Py.re_search Py.is_lower password))
                          err_lower errors in
  let errors := append_if (password_require_numbers cfg
                           && negb (Py.re_search Py.is_digit password))
                          err_number errors in
  let errors := append_if (password_require_special cfg
                           && negb (Py.re_search is_special password))
                          err_special errors in
  let errors := append_if (Py.in_list (Py.lower password) common_passwords)
                          err_common errors in
  let errors :=
    match username with
    | Some u => append_if (Py.truthy username
                           && Py.contains (Py.lower u) (Py.lower password))
                          err_username errors
    | None => errors
    end in
  let errors :=
    match email with
    | Some e =>
        if Py.truthy email then
          let email_prefix := Py.split_head "@" e in
          append_if (Py.contains (Py.lower email_prefix) (Py.lower password))
                    err_email errors
        else errors
    | None => errors
    end in
  let errors := append_if (Py.len_set password <? 5) err_variety errors in
  (match errors with [] => true | _ => false end, errors).

(** [verify_password]: Argon2 first; when that raises, whatever it raises,
    the legacy [CryptContext] decides, and may itself raise on a hash it
    does not recognise. *)
Section Hashing.
Variable argon2_verify : string -> string -> bool.
Variable pwd_context_verify : string -> string -> string + bool.

Definition verify_password (password hash : string) : string + bool :=
  if argon2_verify hash password then inr true
  else pwd_context_verify password hash.
End Hashing.

End PasswordManager.

(** ** Values of Python dictionaries (token claims, audit details) *)

Inductive PyValue :=
| VStr (s : string)
| VInt (n : Z)
| VBool (b : bool)
| VList (l : list string).

Global Instance PyValue_eq_dec : EqDecision PyValue.
Proof. solve_decision. Defined.

(** ** PyJWT, as far as the module uses it

    A key pair is identified by a number: a signature made with the
    private key of pair [k] verifies under the public key of pair [k]
    and under no other.  A compact token is either a string that does not
    parse, or a header algorithm, a payload and a signature; the signature
    records what was signed and by whom. *)

Module Jwt.

Abbreviation Claims := (gmap string PyValue).

Record Signature := {
  signer : nat;
  signed_alg : string;
  signed_payload : Claims
}.

Global Instance Signature_eq_dec : EqDecision Signature.
Proof. solve_decision. Defined.

Inductive Token :=
| Garbage (raw : string)
| Jws (alg : string) (payload : Claims) (sig : Signature).

(** The exceptions [jwt.decode] can end with.  All but the last are
    subclasses of [InvalidTokenError]; the last is the [TypeError] of
    Python's [int()] on a claim that is a list, which the library lets
    through. *)
Inductive Error :=
| DecodeError
| InvalidAlgorithmError
| InvalidSignatureError
| InvalidIssuedAtError
| ImmatureSignatureError
| ExpiredSignatureError
| MissingRequiredClaimError (claim : string)
| InvalidIssuerError
| InvalidAudienceError
| TypeError (msg : string).

Definition is_expired_error (e : Error) : bool :=
  match e with ExpiredSignatureError => true | _ => false end.

Definition is_invalid_token_error (e : Error) : bool :=
  match e with TypeError _ => false | _ => true end.

(** [jwt.encode(claims, private_key, algorithm=alg)] *)
Definition encode (claims : Claims) (private_key : nat) (alg : string) : Token :=
  Jws alg claims {| signer := private_key; signed_alg := alg; signed_payload := claims |}.

Definition verify_signature (alg : string) (payload : Claims) (sig : Signature)
    (public_key : nat) : bool :=
  bool_decide (sig = {| signer := public_key; signed_alg := alg;
                        signed_payload := payload |}).

Definition check (c : bool) (e : Error) : Error + unit :=
  if c then inr tt else inl e.

Definition and_then {A B} (r : Error + A) (k : A -> Error + B) : Error + B :=
  match r with inl e => inl e | inr a => k a end.

(** Truth value of a claim. *)
Definition falsy (v : PyValue) : bool :=
  match v with
  | VStr s => bool_decide (s = "")
  | VInt n => n =? 0
  | VBool b => negb b
  | VList l => bool_decide (l = [])
  end.

Section Decode.

(** Python's [int(s)] on a string: [None] is its [ValueError]. *)
Variable int_of_str : string -> option Z.

(** [int(payload[claim])] inside [try ... except ValueError: raise ill]. *)
Definition int_claim (v : PyValue) (ill : Error) : Error + Z :=
  match v with
  | VInt n => inr n
  | VBool b => inr (if b then 1 else 0)
  | VStr s => match int_of_str s with Some n => inr n | None => inl ill end
  | VList _ => inl (TypeError "int() argument must be a string, a bytes-like object or a real number, not 'list'")
  end.

(** A registered time claim is validated when it is present. *)
Definition validate_time (payload : Claims) (claim : string) (ill : Error)
    (ok : Z -> bool) (bad : Error) : Error + unit :=
  match payload !! claim with
  | None => inr tt
  | Some v => and_then (int_claim v ill) (fun t => check (ok t) bad)
  end.

Definition validate_iss (payload : Claims) (issuer : string) : Error + unit :=
  match payload !! "iss" with
  | None => inl (MissingRequiredClaimError "iss")
  | Some v => check (bool_decide (v = VStr issuer)) InvalidIssuerError
  end.

Definition validate_aud (payload : Claims) (audience : string) : Error + unit :=
  match payload !! "aud" with
  | None => inl (MissingRequiredClaimError "aud")
  | Some v =>
      if falsy v then inl (MissingRequiredClaimError "aud")
      else match v with
           | VStr a => check (bool_decide (audience = a)) InvalidAudienceError
           | VList l => check (bool_decide (audience ∈ l)) InvalidAudienceError
           | _ => inl InvalidAudienceError
           end
  end.

(** [jwt.decode(token, public_key, algorithms=..., audience=..., issuer=...)]
    evaluated when the clock reads [now]: header algorithm, signature,
    then the claims [iat], [nbf], [exp], [iss], [aud] in this order. *)
Definition decode (token : Token) (public_key : nat) (algorithms : list string)
    (audience issuer : string) (now : Z) : Error + Claims :=
  match token with
  | Garbage _ => inl DecodeError
  | Jws alg payload sig =>
      and_then (check (bool_decide (alg ∈ algorithms)) InvalidAlgorithmError) (fun _ =>
      and_then (check (verify_signature alg payload sig public_key)
                      InvalidSignatureError) (fun _ =>
      and_then (validate_time payload "iat" InvalidIssuedAtError
                              (fun iat => iat <=? now) ImmatureSignatureError) (fun _ =>
      and_then (validate_time payload "nbf" DecodeError
                              (fun nbf => nbf <=? now) ImmatureSignatureError) (fun _ =>
      and_then (validate_time payload "exp" DecodeError
                              (fun exp => now <? exp) ExpiredSignatureError) (fun _ =>
      and_then (validate_iss payload issuer) (fun _ =>
      and_then (validate_aud payload audience) (fun _ =>
      inr payload)))))))
  end.

End Decode.

End Jwt.

(** ** Database rows *)

Module AuthPermission.
Record t := mk {
  name : string;
  resource : string;
  action : string
}.
End AuthPermission.

Module AuthRole.
Record t := mk {
  name : string;
  permissions : list AuthPermission.t
}.
End AuthRole.

Module AuthUser.
Record t := mk {
  id : Z;
  uuid : string;
  username : string;
  email : string;
  password_hash : string;
  mfa_secret : option string;
  mfa_enabled : bool;
  email_verified : bool;
  password_changed_at : option Z;
  must_change_password : bool;
  is_active : bool;
  is_locked : bool;
  locked_until : option Z;
  failed_login_attempts : Z;
  last_failed_login : option Z;
  last_login : option Z;
  last_login_ip : option string;
  roles : list AuthRole.t
}.

(** Attribute assignments [user.field = v]. *)
Definition set_must_change_password (v : bool) (u : t) : t :=
  let '(mk a b c d e f g h i _ k l m n o p q r) := u in
  mk a b c d e f g h i v k l m n o p q r.
Definition set_is_locked (v : bool) (u : t) : t :=
  let '(mk a b c d e f g h i j k _ m n o p q r) := u in
  mk a b c d e f g h i j k v m n o p q r.
Definition set_locked_until (v : option Z) (u : t) : t :=
  let '(mk a b c d e f g h i j k l _ n o p q r) := u in
  mk a b c d e f g h i j k l v n o p q r.
Definition set_failed_login_attempts (v : Z) (u : t) : t :=
  let '(mk a b c d e f g h i j k l m _ o p q r) := u in
  mk a b c d e f g h i j k l m v o p q r.
Definition set_last_failed_login (v : option Z) (u : t) : t :=
  let '(mk a b c d e f g h i j k l m n _ p q r) := u in
  mk a b c d e f g h i j k l m n v p q r.
Definition set_last_login (v : option Z) (u : t) : t :=
  let '(mk a b c d e f g h i j k l m n o _ q r) := u in
  mk a b c d e f g h i j k l m n o v q r.
Definition set_last_login_ip (v : option string) (u : t) : t :=
  let '(mk a b c d e f g h i j k l m n o p _ r) := u in
  mk a b c d e f g h i j k l m n o p v r.
End AuthUser.

Module AuthSession.
Record t := mk {
  id : Z;
  session_id : string;
  user_id : Z;
  access_token : option Jwt.Token;
  refresh_token : option Jwt.Token;
  access_token_expires : option Z;
  refresh_token_expires : option Z;
  ip_address : option string;
  user_agent : option string;
  created_at : Z;
  last_activity : Z;
  expires_at : option Z;
  is_active : bool
}.

Definition set_is_active (v : bool) (s : t) : t :=
  let '(mk a b c d e f g h i j k l _) := s in
  mk a b c d e f g h i j k l v.

(** The column defaults the INSERT fills in: primary key and the two
    [default=datetime.utcnow] timestamps. *)
Definition with_defaults (pk created last : Z) (s : t) : t :=
  let '(mk _ b c d e f g h i _ _ l m) := s in
  mk pk b c d e f g h i created last l m.
End AuthSession.

Module AuthAuditLog.
Record t := mk {
  id : Z;
  user_id : option Z;
  event_type : string;
  event_status : string;
  ip_address : option string;
  user_agent : option string;
  details : option (list (string * PyValue));
  created_at : Z
}.
End AuthAuditLog.

(** ** JWTManager *)

Module JWTManager.

Record t := mk {
  config : AuthConfig;
  private_key : nat;
  public_key : nat
}.

(** A dictionary literal. *)
Definition dict (l : list (string * PyValue)) : Jwt.Claims := list_to_map l.

Definition permission_strings (user : AuthUser.t) : list string :=
  flat_map (fun role =>
              map (fun perm => AuthPermission.resource perm +:+ ":"
                               +:+ AuthPermission.action perm)
                  (AuthRole.permissions role))
           (AuthUser.roles user).

(** [generate_access_token]; [now] is the reading of
    [datetime.now(timezone.utc)] and [jti] the fresh [uuid.uuid4()]. *)
Definition generate_access_token (m : t) (user : AuthUser.t) (session_id : string)
    (now : Z) (jti : string) : Jwt.Token :=
  let expires := now + jwt_access_token_expiry (config m) in
  let claims := dict [
    ("sub", VStr (AuthUser.uuid user));
    ("username", VStr (AuthUser.username user));
    ("email", VStr (AuthUser.email user));
    ("roles", VList (map AuthRole.name (AuthUser.roles user)));
    ("session_id", VStr session_id);
    ("iat", VInt now);
    ("exp", VInt expires);
    ("nbf", VInt now);
    ("iss", VStr (jwt_issuer (config m)));
    ("aud", VStr (jwt_audience (config m)));
    ("jti", VStr jti)
  ] in
  let permissions := permission_strings user in
  let claims := <["permissions" := VList (remove_dups permissions)]> claims in
  Jwt.encode claims (private_key m) (jwt_algorithm (config m)).

Definition generate_refresh_token (m : t) (user : AuthUser.t) (session_id : string)
    (now : Z) (jti : string) : Jwt.Token :=
  let expires := now + jwt_refresh_token_expiry (config m) in
  let claims := dict [
    ("sub", VStr (AuthUser.uuid user));
    ("session_id", VStr session_id);
    ("token_type", VStr "refresh");
    ("iat", VInt now);
    ("exp", VInt expires);
    ("nbf", VInt now);
    ("iss", VStr (jwt_issuer (config m)));
    ("aud", VStr (jwt_audience (config m)));
    ("jti", VStr jti)
  ] in
  Jwt.encode claims (private_key m) (jwt_algorithm (config m)).

(** [verify_token(token, token_type)], evaluated when the clock reads
    [now].  [inr None] is Python's [None]; [inl] is an exception that none
    of the two [except] clauses catches. *)
Definition verify_token (int_of_str : string -> option Z) (m : t)
    (token : Jwt.Token) (token_type : string) (now : Z)
    : string + option Jwt.Claims :=
  match Jwt.decode int_of_str token (public_key m) [jwt_algorithm (config m)]
                   (jwt_audience (config m)) (jwt_issuer (config m)) now with
  | inr claims =>
      if String.eqb token_type "refresh"
         && negb (bool_decide (claims !! "token_type" = Some (VStr "refresh")))
      then inr None
      else inr (Some claims)
  | inl e =>
      if Jwt.is_expired_error e then inr None            (* except jwt.ExpiredSignatureError *)
      else if Jwt.is_invalid_token_error e then inr None (* except jwt.InvalidTokenError *)
      else match e with
           | Jwt.TypeError msg => inl msg
           | _ => inr None
           end
  end.

End JWTManager.

(** ** The world the service runs in *)

Record Store := {
  users : list AuthUser.t;
  sessions : list AuthSession.t;
  audit_logs : list AuthAuditLog.t
}.

(** What [_cache_session] writes under [session:<id>]. *)
Record CachedSession := {
  cached_user_id : Z;
  cached_expires_at : option Z;
  cached_ip_address : option string
}.

Record World := {
  database : Store;                         (* durable, committed rows *)
  redis : gmap string (Z * CachedSession);  (* key -> (ttl, payload) *)
  clock : Z;                                (* the next clock reading *)
  ticks : list N;                           (* time passing between readings *)
  entropy : list string                     (* [secrets] and [uuid4] output *)
}.

(** The state of one request: the world, the rows as the ORM session sees
    them, and the new session rows waiting for their INSERT. *)
Record Env := {
  world : World;
  work : Store;
  pending : list AuthSession.t
}.

Definition set_users (f : list AuthUser.t -> list AuthUser.t) (st : Store) : Store :=
  {| users := f (users st); sessions := sessions st; audit_logs := audit_logs st |}.
Definition set_sessions (f : list AuthSession.t -> list AuthSession.t) (st : Store)
    : Store :=
  {| users := users st; sessions := f (sessions st); audit_logs := audit_logs st |}.
Definition set_audit_logs (f : list AuthAuditLog.t -> list AuthAuditLog.t)
    (st : Store) : Store :=
  {| users := users st; sessions := sessions st; audit_logs := f (audit_logs st) |}.

Definition set_database (db : Store) (w : World) : World :=
  {| database := db; redis := redis w; clock := clock w; ticks := ticks w;
     entropy := entropy w |}.
Definition set_redis (f : gmap string (Z * CachedSession) -> gmap string (Z * CachedSession))
    (w : World) : World :=
  {| database := database w; redis := f (redis w); clock := clock w;
     ticks := ticks w; entropy := entropy w |}.

(** One clock reading: the reading is [clock w]; afterwards the clock has
    advanced by the next tick (time does not run backwards). *)
Definition tick (w : World) : World :=
  {| database := database w; redis := redis w;
     clock := clock w + Z.of_N (hd 0%N (ticks w)); ticks := tl (ticks w);
     entropy := entropy w |}.

Definition draw (w : World) : World :=
  {| database := database w; redis := redis w; clock := clock w;
     ticks := ticks w; entropy := tl (entropy w) |}.

Definition set_world (f : World -> World) (e : Env) : Env :=
  {| world := f (world e); work := work e; pending := pending e |}.
Definition set_work (f : Store -> Store) (e : Env) : Env :=
  {| world := world e; work := f (work e); pending := pending e |}.
Definition set_pending (p : list AuthSession.t) (e : Env) : Env :=
  {| world := world e; work := work e; pending := p |}.

(** ** Control flow: statements that fall through, [return] or raise *)

(** What [authenticate] hands back on success. *)
Record LoginData := {
  ld_user_id : Z;
  ld_username : string;
  ld_email : string;
  ld_roles : list string;
  ld_access_token : Jwt.Token;
  ld_refresh_token : Jwt.Token;
  ld_expires_in : Z;
  ld_must_change_password : bool
}.

Definition Result : Type := bool * string * option LoginData.

Inductive Ctl (A : Type) :=
| Next (a : A)          (* the statement completed *)
| Return (r : Result)   (* a [return] statement ran *)
| Raise (e : string).   (* an exception propagates *)
Arguments Next {A} a.
Arguments Return {A} r.
Arguments Raise {A} e.

Definition M (A : Type) : Type := Env -> Ctl A * Env.

Global Instance M_ret : MRet M := fun A a e => (Next a, e).
Global Instance M_bind : MBind M := fun A B k m e =>
  match m e with
  | (Next a, e') => k a e'
  | (Return r, e') => (Return r, e')
  | (Raise x, e') => (Raise x, e')
  end.
Global Instance M_throw : MThrow string M := fun A x e => (Raise x, e).

Definition return_ {A} (r : Result) : M A := fun e => (Return r, e).
Definition pass : M unit := mret tt.
Definition get : M Env := fun e => (Next e, e).
Definition update (f : Env -> Env) : M unit := fun e => (Next tt, f e).

(** A call into a library that either raises or gives a value. *)
Definition call {A} (r : string + A) : M A :=
  match r with
  | inl x => mthrow x
  | inr a => mret a
  end.

(** ** Primitive effects *)

(** [datetime.utcnow()] *)
Definition utcnow : M Z :=
  e ← get; update (set_world tick);; mret (clock (world e)).

(** [secrets.token_urlsafe(32)] and [str(uuid.uuid4())] *)
Definition random_string : M string :=
  e ← get; update (set_world draw);; mret (hd "" (entropy (world e))).

(** The ORM hands out row objects; a handle is the position of the row in
    its table, and attribute reads and writes go through it. *)
Definition read_user (h : nat) : M AuthUser.t :=
  e ← get;
  match users (work e) !! h with
  | Some u => mret u
  | None => mthrow "DetachedInstanceError"
  end.

Definition write_user (h : nat) (f : AuthUser.t -> AuthUser.t) : M unit :=
  update (set_work (set_users (alter f h))).

Definition read_session (h : nat) : M AuthSession.t :=
  e ← get;
  match sessions (work e) !! h with
  | Some s => mret s
  | None => mthrow "DetachedInstanceError"
  end.

Definition write_session (h : nat) (f : AuthSession.t -> AuthSession.t) : M unit :=
  update (set_work (set_sessions (alter f h))).

(** [db.add(session)] *)
Definition db_add (s : AuthSession.t) : M unit :=
  e ← get; update (set_pending (pending e ++ [s])).

(** The INSERT of one new session row: the primary key comes from the
    table's sequence, [created_at] and [last_activity] from their
    [default=datetime.utcnow]. *)
Definition insert_session (s : AuthSession.t) : M unit :=
  e ← get;
  created ← utcnow;
  last ← utcnow;
  let pk := Z.of_nat (length (sessions (work e))) + 1 in
  update (set_work (set_sessions (fun l =>
    l ++ [AuthSession.with_defaults pk created last s]))).

Fixpoint flush (l : list AuthSession.t) : M unit :=
  match l with
  | [] => pass
  | s :: r => insert_session s;; flush r
  end.

(** [db.commit()]: pending rows are inserted, then everything the session
    holds becomes durable. *)
Definition db_commit : M unit :=
  e ← get;
  flush (pending e);;
  update (set_pending []);;
  e ← get;
  update (set_world (set_database (work e))).

(** ** MFAManager *)

Module MFAManager.

Section Totp.
(** [totp_at secret counter] is the code [pyotp] derives for a time step. *)
Variable totp_at : string -> Z -> string.

(** [pyotp.TOTP(secret).verify(token, valid_window=w)] at clock reading
    [now]: the code of the current 30-second step or of a step at most
    [w] away. *)
Definition totp_verify (secret token : string) (now : Z) (valid_window : Z) : bool :=
  existsb (fun i => String.eqb token (totp_at secret (now / 30 + i)))
          (seqZ (- valid_window) (2 * valid_window + 1)).

(** [verify_token(secret, token)]; a user row without a secret makes
    [pyotp] raise. *)
Definition verify_token (secret : option string) (token : string) (now : Z)
    : string + bool :=
  match secret with
  | None => inl "object of type 'NoneType' has no len()"
  | Some sec => inr (totp_verify sec token now 1)
  end.
End Totp.

End MFAManager.

(** ** AuthenticationService *)

Section AuthenticationService.

Variable argon2_verify : string -> string -> bool.
Variable pwd_context_verify : string -> string -> string + bool.
Variable totp_at : string -> Z -> string.
Variable config : AuthConfig.
Variable private_key public_key : nat.

Definition jwt_manager : JWTManager.t := JWTManager.mk config private_key public_key.

(** *** Queries *)

Definition matches_login (username : string) (u : AuthUser.t) : bool :=
  String.eqb (AuthUser.username u) username || String.eqb (AuthUser.email u) username.

(** Position of the first element satisfying [p]. *)
Fixpoint find_index {A} (p : A -> bool) (l : list A) : option nat :=
  match l with
  | [] => None
  | x :: r => if p x then Some 0%nat else S <$> find_index p r
  end.

(** [db.query(AuthUser).filter((username == x) | (email == x)).first()].
    The query has no ORDER BY, so where several rows match (a username
    that is also the e-mail address of another row) the engine is free in
    the row it returns; the model takes the one stored first.  The
    theorems take the row the query returned as given, or are about
    tables in which a single row matches. *)
Definition query_user (username : string) : M (option nat) :=
  e ← get; mret (find_index (matches_login username) (users (work e))).

Definition is_live (user_id now : Z) (s : AuthSession.t) : bool :=
  (AuthSession.user_id s =? user_id)
  && AuthSession.is_active s
  && match AuthSession.expires_at s with
     | Some t => now <? t
     | None => false
     end.

(** [...filter(user_id == id, is_active == True, expires_at > now).count()] *)
Definition count_active_sessions (user_id now : Z) : M Z :=
  e ← get; mret (Z.of_nat (length (List.filter (is_live user_id now)
                                               (sessions (work e))))).

Definition is_candidate (user_id : Z) (s : AuthSession.t) : bool :=
  (AuthSession.user_id s =? user_id) && AuthSession.is_active s.

(** Position of the candidate with the least [created_at]; among equal
    timestamps the one stored first. *)
Fixpoint oldest_from (user_id : Z) (l : list AuthSession.t) (i : nat)
    (best : option (nat * Z)) : option nat :=
  match l with
  | [] => fst <$> best
  | s :: r =>
      let best' :=
        if is_candidate user_id s then
          match best with
          | Some (_, t) =>
              if AuthSession.created_at s <? t
              then Some (i, AuthSession.created_at s) else best
          | None => Some (i, AuthSession.created_at s)
          end
        else best in
      oldest_from user_id r (S i) best'
  end.

(** [...filter(user_id == id, is_active == True).order_by(created_at).first()] *)
Definition query_oldest_session (user_id : Z) : M (option nat) :=
  e ← get; mret (oldest_from user_id (sessions (work e)) 0%nat None).

(** *** Audit log and session cache *)

(** The row [_log_audit] builds; [logs] is the table before the INSERT and
    [created] the reading of its [default=datetime.utcnow]. *)
Definition audit_row (logs : list AuthAuditLog.t) (user_id : option Z)
    (event_type event_status : string) (details : list (string * PyValue))
    (ip_address : option string) (created : Z) : AuthAuditLog.t := {|
  AuthAuditLog.id := Z.of_nat (length logs) + 1;
  AuthAuditLog.user_id := user_id;
  AuthAuditLog.event_type := event_type;
  AuthAuditLog.event_status := event_status;
  AuthAuditLog.ip_address := ip_address;
  AuthAuditLog.user_agent := None;
  AuthAuditLog.details := match details with [] => None | _ => Some details end;
  AuthAuditLog.created_at := created
|}.

(** [_log_audit]: one row is added and committed at once. *)
Definition _log_audit (user_id : option Z) (event_type event_status : string)
    (details : list (string * PyValue)) (ip_address : option string) : M unit :=
  e ← get;
  created ← utcnow;
  let audit := audit_row (audit_logs (work e)) user_id event_type event_status
                         details ip_address created in
  update (set_work (set_audit_logs (fun l => l ++ [audit])));;
  db_commit.

Definition cache_key (session_id : string) : string := "session:" +:+ session_id.

(** [_cache_session].  The time to live is the [seconds] field of the
    remaining lifetime, and [SETEX] takes a positive one only: with 0 the
    server answers with an error, which [redis-py] raises. *)
Definition _cache_session (s : AuthSession.t) : M unit :=
  let key := cache_key (AuthSession.session_id s) in
  let data := {|
    cached_user_id := AuthSession.user_id s;
    cached_expires_at := AuthSession.expires_at s;
    cached_ip_address := AuthSession.ip_address s
  |} in
  match AuthSession.expires_at s with
  | None => mthrow "'NoneType' object has no attribute 'isoformat'"
  | Some expires =>
      now ← utcnow;
      let ttl := Py.td_seconds (expires - now) in
      if ttl =? 0 then mthrow "invalid expire time in 'setex' command"
      else update (set_world (set_redis (fun r => <[key := (ttl, data)]> r)))
  end.

(** [_invalidate_session_cache] *)
Definition _invalidate_session_cache (session_id : string) : M unit :=
  update (set_world (set_redis (fun r => delete (cache_key session_id) r))).

(** *** Token generation with the clock and the random source *)

Definition generate_access_token (user : AuthUser.t) (session_id : string)
    : M Jwt.Token :=
  now ← utcnow;
  jti ← random_string;
  mret (JWTManager.generate_access_token jwt_manager user session_id now jti).

Definition generate_refresh_token (user : AuthUser.t) (session_id : string)
    : M Jwt.Token :=
  now ← utcnow;
  jti ← random_string;
  mret (JWTManager.generate_refresh_token jwt_manager user session_id now jti).

(** *** authenticate *)

Definition msg_locked (remaining : Z) : string :=
  "Account locked. Try again in " +:+ Py.str remaining +:+ " seconds".

Definition incr_failed (u : AuthUser.t) : AuthUser.t :=
  AuthUser.set_failed_login_attempts (AuthUser.failed_login_attempts u + 1) u.

(** The [try] block of [authenticate], one definition per commented
    paragraph of the source, in source order.  [user] is the handle of the
    row the first query found; every [user.field] goes through it. *)

(** "Check if account is locked" *)
Definition check_locked (user : nat) (ip_address : option string) : M unit :=
  u ← read_user user;
  if AuthUser.is_locked u then
    let unlock :=
      write_user user (AuthUser.set_is_locked false);;
      write_user user (AuthUser.set_locked_until None);;
      write_user user (AuthUser.set_failed_login_attempts 0) in
    match AuthUser.locked_until u with
    | Some locked_until =>
        now ← utcnow;
        if now <? locked_until then
          now' ← utcnow;
          let remaining := Py.td_seconds (locked_until - now') in
          _log_audit (Some (AuthUser.id u)) "LOGIN_FAILED" "ACCOUNT_LOCKED"
                    [("remaining_seconds", VInt remaining)] ip_address;;
          return_ (false, msg_locked remaining, None)
        else unlock
    | None => unlock
    end
  else pass.

(** "Verify password" *)
Definition check_password (user : nat) (password : string)
    (ip_address : option string) : M unit :=
  u ← read_user user;
  ok ← call (PasswordManager.verify_password argon2_verify pwd_context_verify
               password (AuthUser.password_hash u));
  if negb ok then
    write_user user incr_failed;;
    now ← utcnow;
    write_user user (AuthUser.set_last_failed_login (Some now));;
    (* Lock account if max attempts exceeded *)
    u ← read_user user;
    (if max_login_attempts config <=? AuthUser.failed_login_attempts u then
       write_user user (AuthUser.set_is_locked true);;
       now ← utcnow;
       write_user user
         (AuthUser.set_locked_until (Some (now + lockout_duration config)));;
       db_commit;;
       u ← read_user user;
       _log_audit (Some (AuthUser.id u)) "ACCOUNT_LOCKED" "MAX_ATTEMPTS"
                 [("attempts", VInt (AuthUser.failed_login_attempts u))]
                 ip_address;;
       return_ (false, "Account locked due to multiple failed attempts", None)
     else pass);;
    db_commit;;
    u ← read_user user;
    _log_audit (Some (AuthUser.id u)) "LOGIN_FAILED" "INVALID_PASSWORD"
              [("attempts", VInt (AuthUser.failed_login_attempts u))]
              ip_address;;
    return_ (false, "Invalid credentials", None)
  else pass.

(** "Check if account is active" *)
Definition check_active (user : nat) (ip_address : option string) : M unit :=
  u ← read_user user;
  if negb (AuthUser.is_active u) then
    _log_audit (Some (AuthUser.id u)) "LOGIN_FAILED" "ACCOUNT_INACTIVE" []
              ip_address;;
    return_ (false, "Account is inactive", None)
  else pass.

(** "Check email verification" *)
Definition check_email_verified (user : nat) (ip_address : option string) : M unit :=
  u ← read_user user;
  if require_email_verification config && negb (AuthUser.email_verified u) then
    _log_audit (Some (AuthUser.id u)) "LOGIN_FAILED" "EMAIL_NOT_VERIFIED" []
              ip_address;;
    return_ (false, "Email not verified", None)
  else pass.

(** "Check MFA if enabled" *)
Definition check_mfa (user : nat) (mfa_token ip_address : option string) : M unit :=
  u ← read_user user;
  if AuthUser.mfa_enabled u then
    (if negb (Py.truthy mfa_token) then
       return_ (false, "MFA token required", None)
     else pass);;
    now ← utcnow;
    ok ← call (MFAManager.verify_token totp_at (AuthUser.mfa_secret u)
                 (default "" mfa_token) now);
    if negb ok then
      write_user user incr_failed;;
      db_commit;;
      u ← read_user user;
      _log_audit (Some (AuthUser.id u)) "LOGIN_FAILED" "INVALID_MFA"
                [("attempts", VInt (AuthUser.failed_login_attempts u))]
                ip_address;;
      return_ (false, "Invalid MFA token", None)
    else pass
  else pass.

(** "Check password expiry" *)
Definition check_password_expiry (user : nat) : M unit :=
  if 0 <? password_expiry_days config then
    now ← utcnow;
    u ← read_user user;
    match AuthUser.password_changed_at u with
    | None =>
        mthrow "unsupported operand type(s) for -: 'datetime.datetime' and 'NoneType'"
    | Some changed =>
        let password_age := Py.td_days (now - changed) in
        if password_expiry_days config <? password_age then
          write_user user (AuthUser.set_must_change_password true)
        else pass
    end
  else pass.

(** "Check concurrent sessions" *)
Definition check_concurrent_sessions (user : nat) : M unit :=
  u ← read_user user;
  now ← utcnow;
  active_sessions ← count_active_sessions (AuthUser.id u) now;
  if concurrent_sessions_limit config <=? active_sessions then
    (* Invalidate oldest session *)
    oldest ← query_oldest_session (AuthUser.id u);
    match oldest with
    | Some oldest =>
        write_session oldest (AuthSession.set_is_active false);;
        o ← read_session oldest;
        _invalidate_session_cache (AuthSession.session_id o)
    | None => pass
    end
  else pass.

(** "Create session", "Update user login info", "Cache session in Redis"
    and the final [return]. *)
Definition create_session (user : nat) (ip_address user_agent : option string)
    : M Empty_set :=
  session_id ← random_string;
  u ← read_user user;
  access_token ← generate_access_token u session_id;
  refresh_token ← generate_refresh_token u session_id;
  t_access ← utcnow;
  t_refresh ← utcnow;
  t_expires ← utcnow;
  let session := {|
    AuthSession.id := 0;
    AuthSession.session_id := session_id;
    AuthSession.user_id := AuthUser.id u;
    AuthSession.access_token := Some access_token;
    AuthSession.refresh_token := Some refresh_token;
    AuthSession.access_token_expires :=
      Some (t_access + jwt_access_token_expiry config);
    AuthSession.refresh_token_expires :=
      Some (t_refresh + jwt_refresh_token_expiry config);
    AuthSession.ip_address := ip_address;
    AuthSession.user_agent := user_agent;
    AuthSession.created_at := 0;
    AuthSession.last_activity := 0;
    AuthSession.expires_at := Some (t_expires + session_absolute_timeout config);
    AuthSession.is_active := true
  |} in
  db_add session;;
  (* Update user login info *)
  now ← utcnow;
  write_user user (AuthUser.set_last_login (Some now));;
  write_user user (AuthUser.set_last_login_ip ip_address);;
  write_user user (AuthUser.set_failed_login_attempts 0);;
  db_commit;;
  (* Cache session in Redis *)
  _cache_session session;;
  _log_audit (Some (AuthUser.id u)) "LOGIN_SUCCESS" "SUCCESS"
            [("session_id", VStr session_id)] ip_address;;
  u ← read_user user;
  return_ (true, "Authentication successful", Some {|
    ld_user_id := AuthUser.id u;
    ld_username := AuthUser.username u;
    ld_email := AuthUser.email u;
    ld_roles := map AuthRole.name (AuthUser.roles u);
    ld_access_token := access_token;
    ld_refresh_token := refresh_token;
    ld_expires_in := jwt_access_token_expiry config;
    ld_must_change_password := AuthUser.must_change_password u
  |}).

Definition authenticate_body (username password : string)
    (ip_address user_agent mfa_token : option string) : M Empty_set :=
  (* Find user *)
  found ← query_user username;
  match found with
  | None =>
      _log_audit None "LOGIN_FAILED" "USER_NOT_FOUND"
                [("username", VStr username)] ip_address;;
      return_ (false, "Invalid credentials", None)
  | Some user =>
      check_locked user ip_address;;
      check_password user password ip_address;;
      check_active user ip_address;;
      check_email_verified user ip_address;;
      check_mfa user mfa_token ip_address;;
      check_password_expiry user;;
      check_concurrent_sessions user;;
      create_session user ip_address user_agent
  end.

(** [authenticate]: a fresh ORM session on the durable rows, the [try]
    body, [except Exception] with its rollback, and [finally: db.close()],
    which drops whatever was not committed. *)
Definition authenticate (username password : string)
    (ip_address user_agent mfa_token : option string) (w : World) : Result * World :=
  let db := {| world := w; work := database w; pending := [] |} in
  match authenticate_body username password ip_address user_agent mfa_token db with
  | (Return r, e) => (r, world e)
  | (Raise x, e) => ((false, "Authentication failed: " +:+ x, None), world e)
  | (Next a, _) => match a with end
  end.

End AuthenticationService.

(** ** Vocabulary of the statements *)

(** The row an INSERT of [s] produces when the clock reads as in [w]. *)
Definition inserted (w : World) (st : Store) (s : AuthSession.t) : AuthSession.t :=
  AuthSession.with_defaults (Z.of_nat (length (sessions st)) + 1)
                            (clock w) (clock (tick w)) s.

(** What the lock check leaves of a row it lets through. *)
Definition unlocked (u : AuthUser.t) : AuthUser.t :=
  if AuthUser.is_locked u then
    AuthUser.set_failed_login_attempts 0
      (AuthUser.set_locked_until None (AuthUser.set_is_locked false u))
  else u.

(** The account is not locked out when the clock reads [now]. *)
Definition lock_clear (u : AuthUser.t) (now : Z) : Prop :=
  AuthUser.is_locked u = true ->
  forall t, AuthUser.locked_until u = Some t -> t <= now.

(** [n] consecutive calls of [login], each on the world the previous one
    left behind. *)
Fixpoint attempts (n : nat) (login : World -> Result * World) (w : World) : World :=
  match n with
  | O => w
  | S n' => (login (attempts n' login w)).2
  end.

(** The session ids a user holds that are active and unexpired when the
    clock reads as in [w]: what the count query of [authenticate] counts. *)
Definition live_sessions (user_id : Z) (w : World) : list string :=
  map AuthSession.session_id
      (List.filter (is_live user_id (clock w)) (sessions (database w))).

(** The time claims of a payload are of a kind Python's [int()] takes or
    rejects with a [ValueError]: none of them is a list. *)
Definition timed (payload : Jwt.Claims) : Prop :=
  forall claim l, claim ∈ ["iat"; "nbf"; "exp"] -> payload !! claim <> Some (VList l).

(** [fails_only m]: started with no INSERT pending, [m] either falls
    through with no INSERT pending, or returns a failure, or raises. *)
Definition fails_only {A} (m : M A) : Prop :=
  forall e, pending e = [] ->
    match m e with
    | (Next _, e') => pending e' = []
    | (Return r, _) => r.1.1 = false
    | (Raise _, _) => True
    end.

(** [preserves I m]: however [m] ends, it leads from a state satisfying
    [I] to a state satisfying [I]. *)
Definition preserves {A} (I : Env -> Prop) (m : M A) : Prop :=
  forall e, I e -> I (m e).2.

(** Two session rows with the same three expiry columns. *)
Definition same_expiries (s s' : AuthSession.t) : Prop :=
  AuthSession.access_token_expires s' = AuthSession.access_token_expires s
  /\ AuthSession.refresh_token_expires s' = AuthSession.refresh_token_expires s
  /\ AuthSession.expires_at s' = AuthSession.expires_at s.

(** Every row of [old] is still in place in [new], expiry columns intact. *)
Definition keeps_rows (old new : list AuthSession.t) : Prop :=
  forall i s, old !! i = Some s ->
    exists s', new !! i = Some s' /\ same_expiries s s'.

Definition rows_kept (old : list AuthSession.t) (e : Env) : Prop :=
  keeps_rows old (sessions (work e))
  /\ keeps_rows old (sessions (database (world e))).

(** ** Concrete collaborators and rows for the examples *)

Module Fixtures.

(** A toy Argon2: the hash of [p] is [p] behind the scheme's prefix. *)
Definition argon2_verify (hash password : string) : bool :=
  String.eqb hash ("$argon2id$" +:+ password).

(** The legacy context knows the Argon2 and bcrypt prefixes and raises on
    anything else. *)
Definition pwd_context_verify (password hash : string) : string + bool :=
  if Py.starts_with "$argon2id$" hash then inr (String.eqb hash ("$argon2id$" +:+ password))
  else if Py.starts_with "$2b$" hash then inr (String.eqb hash ("$2b$" +:+ password))
  else inl "hash could not be identified".

Definition totp_at (secret : string) (counter : Z) : string :=
  secret +:+ ":" +:+ Py.str counter.

(** A toy [int()] on strings: plain decimal digits. *)
Fixpoint digits (s : string) (acc : Z) : option Z :=
  match s with
  | EmptyString => Some acc
  | String c r =>
      if Py.is_digit c then digits r (10 * acc + Z.of_nat (Py.code c) - 48)
      else None
  end.

Definition int_of_str (s : string) : option Z :=
  match s with
  | EmptyString => None
  | _ => digits s 0
  end.

Definition user_role : AuthRole.t :=
  AuthRole.mk "user" [AuthPermission.mk "applications:read" "applications" "read";
                      AuthPermission.mk "applications:write" "applications" "write"].

Definition alice : AuthUser.t := {|
  AuthUser.id := 1;
  AuthUser.uuid := "6f1c0d1e-alice";
  AuthUser.username := "alice";
  AuthUser.email := "alice@example.org";
  AuthUser.password_hash := "$argon2id$correct horse";
  AuthUser.mfa_secret := None;
  AuthUser.mfa_enabled := false;
  AuthUser.email_verified := true;
  AuthUser.password_changed_at := Some 0;
  AuthUser.must_change_password := false;
  AuthUser.is_active := true;
  AuthUser.is_locked := false;
  AuthUser.locked_until := None;
  AuthUser.failed_login_attempts := 0;
  AuthUser.last_failed_login := None;
  AuthUser.last_login := None;
  AuthUser.last_login_ip := None;
  AuthUser.roles := [user_role]
|}.

(** Bob has a second factor enrolled. *)
Definition bob : AuthUser.t := {|
  AuthUser.id := 2;
  AuthUser.uuid := "9a2b7c3d-bob";
  AuthUser.username := "bob";
  AuthUser.email := "bob@example.org";
  AuthUser.password_hash := "$argon2id$battery staple";
  AuthUser.mfa_secret := Some "JBSWY3DPEHPK3PXP";
  AuthUser.mfa_enabled := true;
  AuthUser.email_verified := true;
  AuthUser.password_changed_at := Some 0;
  AuthUser.must_change_password := false;
  AuthUser.is_active := true;
  AuthUser.is_locked := false;
  AuthUser.locked_until := None;
  AuthUser.failed_login_attempts := 0;
  AuthUser.last_failed_login := None;
  AuthUser.last_login := None;
  AuthUser.last_login_ip := None;
  AuthUser.roles := [user_role]
|}.

Definition world0 : World := {|
  database := {| users := [alice; bob]; sessions := []; audit_logs := [] |};
  redis := ∅;
  clock := 1000000;
  ticks := [1; 0; 2; 0; 0; 1; 0; 0; 3; 0; 0; 0; 1]%N;
  entropy := ["sid-1"; "jti-1"; "jti-2"; "sid-2"; "jti-3"; "jti-4"]
|}.

Definition login (cfg : AuthConfig) :=
  authenticate argon2_verify pwd_context_verify totp_at cfg 1%nat 1%nat.

(** Bob after four failed attempts, one short of the default threshold. *)
Definition bob_four_failures : AuthUser.t :=
  AuthUser.set_failed_login_attempts 4 bob.

Definition world_bob_four_failures : World := {|
  database := {| users := [alice; bob_four_failures]; sessions := [];
                 audit_logs := [] |};
  redis := ∅;
  clock := 1000000;
  ticks := [1; 0; 2; 0; 0; 1; 0; 0; 3; 0; 0; 0; 1]%N;
  entropy := ["sid-1"; "jti-1"; "jti-2"; "sid-2"; "jti-3"; "jti-4"]
|}.

Definition session_of_alice (pk : Z) (sid : string) (created expires : Z)
    : AuthSession.t := {|
  AuthSession.id := pk;
  AuthSession.session_id := sid;
  AuthSession.user_id := 1;
  AuthSession.access_token := None;
  AuthSession.refresh_token := None;
  AuthSession.access_token_expires := Some (created + 900);
  AuthSession.refresh_token_expires := Some (created + 86400);
  AuthSession.ip_address := None;
  AuthSession.user_agent := None;
  AuthSession.created_at := created;
  AuthSession.last_activity := created;
  AuthSession.expires_at := Some expires;
  AuthSession.is_active := true
|}.

(** Alice holds three live sessions, and one that expired long ago and
    still has its [is_active] flag: nothing in the module clears the flag
    when a session expires. *)
Definition world_at_limit : World := {|
  database := {|
    users := [alice; bob];
    sessions := [session_of_alice 1 "stale" 900000 943200;
                 session_of_alice 2 "first" 990000 1033200;
                 session_of_alice 3 "second" 995000 1038200;
                 session_of_alice 4 "third" 999000 1042200];
    audit_logs := [] |};
  redis := ∅;
  clock := 1000000;
  ticks := [1; 0; 2; 0; 0; 1; 0; 0; 3; 0; 0; 0; 1]%N;
  entropy := ["sid-5"; "jti-1"; "jti-2"]
|}.

End Fixtures.

(** ** PasswordManager.check_password_history and
       MFAManager.generate_backup_codes *)

(** [l[k:]] on a list: a negative [k] counts from the end, and an index
    beyond either end is clipped. *)
Definition slice_from {A} (k : Z) (l : list A) : list A :=
  if k <? 0 then drop (Z.to_nat (Z.of_nat (length l) + k)) l
  else drop (Z.to_nat k) l.

Section PasswordHistory.

Variable argon2_verify : string -> string -> bool.
Variable pwd_context_verify : string -> string -> string + bool.
Variable config : AuthConfig.

(** The [for] loop of [check_password_history]: the first hash the new
    password verifies against ends it with [False]; an exception of
    [verify_password] leaves the function. *)
Fixpoint scan_history (new_password : string) (hashes : list string)
    : string + bool :=
  match hashes with
  | [] => inr true
  | old_hash :: rest =>
      match PasswordManager.verify_password argon2_verify pwd_context_verify
              new_password old_hash with
      | inl x => inl x
      | inr true => inr false
      | inr false => scan_history new_password rest
      end
  end.

(** [check_password_history]; [None] and the empty list are both falsy. *)
Definition check_password_history (new_password : string)
    (password_history : option (list string)) : string + bool :=
  match password_history with
  | None | Some [] => inr true
  | Some history =>
      scan_history new_password
        (slice_from (- password_history_count config) history)
  end.

End PasswordHistory.

(** [secrets.choice(seq)]: the character of [seq] at the index the random
    source picks, a number below [len(seq)]. *)
Definition choice (seq : string) (r : nat) : ascii :=
  default "0"%char (String.get (r mod String.length seq) seq).

(** [''.join(secrets.choice('0123456789') for _ in range(n))], with the
    numbers the random source gives one after the other. *)
Fixpoint random_digits (n : nat) (draws : list nat) : string * list nat :=
  match n with
  | O => ("", draws)
  | S n' =>
      let c := choice "0123456789" (hd 0%nat draws) in
      let '(s, rest) := random_digits n' (tl draws) in
      (String c s, rest)
  end.

Fixpoint backup_codes (count : nat) (draws : list nat) : list string * list nat :=
  match count with
  | O => ([], draws)
  | S n =>
      let '(code, rest) := random_digits 8 draws in
      let formatted :=
        substring 0 4 code +:+ "-" +:+ substring 4 (String.length code - 4) code in
      let '(codes, rest') := backup_codes n rest in
      (formatted :: codes, rest')
  end.

(** [generate_backup_codes(count)]; [range(count)] is empty for a count
    below one. *)
Definition generate_backup_codes (count : Z) (draws : list nat)
    : list string * list nat :=
  backup_codes (Z.to_nat count) draws.

(** The shape [dddd-dddd]. *)
Definition is_backup_code (code : string) : bool :=
  match Py.chars code with
  | [a; b; c; d; dash; e; f; g; h] =>
      forallb Py.is_digit [a; b; c; d; e; f; g; h] && Ascii.eqb dash "-"
  | _ => false
  end.

(** ** Vocabulary of the request outcomes *)

(** Two user rows that agree on the columns which identify the account
    and decide a login: [id], [uuid], [username], [email],
    [password_hash], [mfa_secret], [mfa_enabled], [email_verified],
    [password_changed_at], [is_active] and the roles.  These are the
    columns of [AuthUser.t] that [authenticate] never assigns.  The
    table's [updated_at], which the ORM rewrites with every UPDATE of a
    row, is not a column of [AuthUser.t], and nothing here speaks of it. *)
Definition same_account (u u' : AuthUser.t) : Prop :=
  AuthUser.id u' = AuthUser.id u
  /\ AuthUser.uuid u' = AuthUser.uuid u
  /\ AuthUser.username u' = AuthUser.username u
  /\ AuthUser.email u' = AuthUser.email u
  /\ AuthUser.password_hash u' = AuthUser.password_hash u
  /\ AuthUser.mfa_secret u' = AuthUser.mfa_secret u
  /\ AuthUser.mfa_enabled u' = AuthUser.mfa_enabled u
  /\ AuthUser.email_verified u' = AuthUser.email_verified u
  /\ AuthUser.password_changed_at u' = AuthUser.password_changed_at u
  /\ AuthUser.is_active u' = AuthUser.is_active u
  /\ AuthUser.roles u' = AuthUser.roles u.

(** An update of a user row that keeps the account. *)
Definition keeps_account (f : AuthUser.t -> AuthUser.t) : Prop :=
  forall u, same_account u (f u).

(** [synced h e]: the ORM session holds no pending INSERT, and its rows
    are the durable rows but for an update of the row [h] of the user
    table. *)
Definition synced (h : nat) (e : Env) : Prop :=
  pending e = []
  /\ sessions (work e) = sessions (database (world e))
  /\ audit_logs (work e) = audit_logs (database (world e))
  /\ exists f, keeps_account f
               /\ users (work e) = alter f h (users (database (world e))).

(** [untouched e e']: nothing durable, nothing cached and nothing of the
    random source has changed; time may have passed. *)
Definition untouched (e e' : Env) : Prop :=
  database (world e') = database (world e)
  /\ redis (world e') = redis (world e)
  /\ entropy (world e') = entropy (world e)
  /\ clock (world e) <= clock (world e').

(** [failed_step h e r e']: the statement returned the failure [r], having
    made durable at most one new audit row and an update of the row [h] of
    the user table. *)
Definition failed_step (h : nat) (e : Env) (r : Result) (e' : Env) : Prop :=
  r.1.1 = false
  /\ r.2 = None
  /\ Py.starts_with "Authentication failed" r.1.2 = false
  /\ redis (world e') = redis (world e)
  /\ entropy (world e') = entropy (world e)
  /\ clock (world e) <= clock (world e')
  /\ sessions (database (world e')) = sessions (database (world e))
  /\ (exists extra,
        audit_logs (database (world e')) = audit_logs (database (world e)) ++ extra
        /\ (length extra <= 1)%nat)
  /\ exists f, keeps_account f
               /\ users (database (world e'))
                  = alter f h (users (database (world e))).

(** [gate h m]: [m] is one of the checks in front of the session: it falls
    through without a trace outside the ORM session, returns a failure, or
    raises without a trace. *)
Definition gate (h : nat) {A} (m : M A) : Prop :=
  forall e, synced h e ->
    match m e with
    | (Next _, e') => synced h e' /\ untouched e e'
    | (Return r, e') => failed_step h e r e'
    | (Raise _, e') => untouched e e'
    end.

(** "Update user login info": what a successful login assigns to the
    user row, [t] being the clock reading of [last_login]. *)
Definition login_update (ip : option string) (t : Z) (u : AuthUser.t) : AuthUser.t :=
  AuthUser.set_failed_login_attempts 0
    (AuthUser.set_last_login_ip ip (AuthUser.set_last_login (Some t) u)).

(** [evicted config uid now ss rd ss' rd']: what "Check concurrent
    sessions" makes of the session rows [ss] and the cache [rd] for the
    user [uid] when the clock reads [now]: nothing, or, the limit being
    reached, the flagged-active row of the user with the least
    [created_at] loses its flag and its cache entry. *)
Definition evicted (config : AuthConfig) (uid now : Z)
    (ss : list AuthSession.t) (rd : gmap string (Z * CachedSession))
    (ss' : list AuthSession.t) (rd' : gmap string (Z * CachedSession)) : Prop :=
  (ss' = ss /\ rd' = rd)
  \/ exists o so,
       concurrent_sessions_limit config
         <= Z.of_nat (length (List.filter (is_live uid now) ss))
       /\ ss !! o = Some so
       /\ is_candidate uid so = true
       /\ (forall j s', ss !! j = Some s' -> is_candidate uid s' = true ->
                        AuthSession.created_at so <= AuthSession.created_at s')
       /\ ss' = alter (AuthSession.set_is_active false) o ss
       /\ rd' = delete (cache_key (AuthSession.session_id so)) rd.

(** [session_created config jm h ip ua u w st data w']: what "Create
    session" and the rest of a successful login make of the world [w] and
    the rows [st] of the ORM session, [u] being the row [h] of the user
    table: the new session row, the login info on the user row, the cache
    entry, the audit row and the data handed to the caller. *)
Definition session_created (config : AuthConfig) (jm : JWTManager.t) (h : nat)
    (ip ua : option string) (u : AuthUser.t) (w : World) (st : Store)
    (data : LoginData) (w' : World) : Prop :=
  exists (issued refreshed t_access t_refresh t_expires t_login
            created_at last_activity t_cache t_audit : Z)
         (jti_access jti_refresh : string),
    let sid := hd "" (entropy w) in
    let s := {|
      AuthSession.id := Z.of_nat (length (sessions st)) + 1;
      AuthSession.session_id := sid;
      AuthSession.user_id := AuthUser.id u;
      AuthSession.access_token := Some (ld_access_token data);
      AuthSession.refresh_token := Some (ld_refresh_token data);
      AuthSession.access_token_expires :=
        Some (t_access + jwt_access_token_expiry config);
      AuthSession.refresh_token_expires :=
        Some (t_refresh + jwt_refresh_token_expiry config);
      AuthSession.ip_address := ip;
      AuthSession.user_agent := ua;
      AuthSession.created_at := created_at;
      AuthSession.last_activity := last_activity;
      AuthSession.expires_at := Some (t_expires + session_absolute_timeout config);
      AuthSession.is_active := true
    |} in
    (clock w = issued /\ issued <= refreshed /\ refreshed <= t_access
     /\ t_access <= t_refresh /\ t_refresh <= t_expires /\ t_expires <= t_login
     /\ t_login <= created_at /\ created_at <= last_activity
     /\ last_activity <= t_cache /\ t_cache <= t_audit /\ t_audit <= clock w')
    /\ data = {|
         ld_user_id := AuthUser.id u;
         ld_username := AuthUser.username u;
         ld_email := AuthUser.email u;
         ld_roles := map AuthRole.name (AuthUser.roles u);
         ld_access_token :=
           JWTManager.generate_access_token jm u sid issued jti_access;
         ld_refresh_token :=
           JWTManager.generate_refresh_token jm u sid refreshed jti_refresh;
         ld_expires_in := jwt_access_token_expiry config;
         ld_must_change_password := AuthUser.must_change_password u
       |}
    /\ sessions (database w') = sessions st ++ [s]
    /\ users (database w') = alter (login_update ip t_login) h (users st)
    /\ audit_logs (database w')
       = audit_logs st
         ++ [audit_row (audit_logs st) (Some (AuthUser.id u)) "LOGIN_SUCCESS"
                       "SUCCESS" [("session_id", VStr sid)] ip t_audit]
    /\ redis w'
       = <[cache_key sid :=
             (Py.td_seconds (t_expires + session_absolute_timeout config - t_cache),
              {| cached_user_id := AuthUser.id u;
                 cached_expires_at := Some (t_expires + session_absolute_timeout config);
                 cached_ip_address := ip |})]> (redis w)
    /\ entropy w' = tl (tl (tl (entropy w))).

(** [succeeded config jm h ip ua e r e']: the request that started in [e]
    returned the success [r]: the checks fell through into a state [e1],
    the concurrent-session check made [w2] and [st2] of it, and the
    session was created from there. *)
Definition succeeded (config : AuthConfig) (jm : JWTManager.t) (h : nat)
    (ip ua : option string) (e : Env) (r : Result) (e' : Env) : Prop :=
  exists e1 u1 w2 st2 data,
    synced h e1
    /\ untouched e e1
    /\ users (work e1) !! h = Some u1
    /\ users st2 = users (work e1)
    /\ audit_logs st2 = audit_logs (work e1)
    /\ database w2 = database (world e1)
    /\ entropy w2 = entropy (world e1)
    /\ clock (world e1) <= clock w2
    /\ evicted config (AuthUser.id u1) (clock (world e1))
               (sessions (work e1)) (redis (world e1)) (sessions st2) (redis w2)
    /\ r = (true, "Authentication successful", Some data)
    /\ session_created config jm h ip ua u1 w2 st2 data (world e').

(** What [SETEX] answers to a time to live of 0. *)
Definition setex_refused : string := "invalid expire time in 'setex' command".

(** [cache_refused config h ip u w st w']: "Create session" got as far as
    its commit and the cache then refused the entry, its time to live
    being 0.  The new session row and the login info on the user row are
    durable; the cache and the audit table are as they were. *)
Definition cache_refused (config : AuthConfig) (h : nat) (ip : option string)
    (u : AuthUser.t) (w : World) (st : Store) (w' : World) : Prop :=
  exists (t_expires t_login t_cache : Z) (s : AuthSession.t),
    clock w <= t_expires /\ t_expires <= t_login /\ t_login <= t_cache
    /\ t_cache <= clock w'
    /\ Py.td_seconds (t_expires + session_absolute_timeout config - t_cache) = 0
    /\ sessions (database w') = sessions st ++ [s]
    /\ AuthSession.session_id s = hd "" (entropy w)
    /\ AuthSession.user_id s = AuthUser.id u
    /\ AuthSession.expires_at s = Some (t_expires + session_absolute_timeout config)
    /\ AuthSession.is_active s = true
    /\ users (database w') = alter (login_update ip t_login) h (users st)
    /\ audit_logs (database w') = audit_logs st
    /\ redis w' = redis w
    /\ entropy w' = tl (tl (tl (entropy w))).

(** [refused_after_commit config h ip e e']: the request that started in
    [e] passed every check, and its session was committed and then refused
    by the cache. *)
Definition refused_after_commit (config : AuthConfig) (h : nat)
    (ip : option string) (e e' : Env) : Prop :=
  exists e1 u1 w2 st2,
    synced h e1
    /\ untouched e e1
    /\ users (work e1) !! h = Some u1
    /\ users st2 = users (work e1)
    /\ audit_logs st2 = audit_logs (work e1)
    /\ database w2 = database (world e1)
    /\ entropy w2 = entropy (world e1)
    /\ clock (world e1) <= clock w2
    /\ evicted config (AuthUser.id u1) (clock (world e1))
               (sessions (work e1)) (redis (world e1)) (sessions st2) (redis w2)
    /\ cache_refused config h ip u1 w2 st2 (world e').

(** The ways the [try] block of [authenticate] ends once the user row [h]
    is found: with a failure or a success it returns, with an exception
    that leaves no trace, or with the exception of the cache after the
    commit. *)
Definition login_outcome (config : AuthConfig) (jm : JWTManager.t) (h : nat)
    (ip ua : option string) (e : Env) (ce : Ctl Empty_set * Env) : Prop :=
  match ce with
  | (Return r, e') => failed_step h e r e' \/ succeeded config jm h ip ua e r e'
  | (Raise x, e') =>
      untouched e e' \/ (x = setex_refused /\ refused_after_commit config h ip e e')
  | (Next a, _) => False
  end.

(** The reading of the clock once all the time the world still holds has
    passed: no reading of a request lies beyond it. *)
Definition horizon (w : World) : Z :=
  clock w + Z.of_N (foldr N.add 0%N (ticks w)).


(** The invariant that the horizon stays where it is. *)
Definition horizon_is (c : Z) (e : Env) : Prop := horizon (world e) = c.

(** The handle [h] points at a durable row of the user table. *)
Definition valid_handle (h : nat) (e : Env) : Prop :=
  (h < length (users (database (world e))))%nat.

(** ** Further rows and configurations for the examples *)

Module Scenarios.

(** The defaults, with the password history switched off. *)
Definition no_history_config : AuthConfig := {|
  jwt_algorithm := "RS256";
  jwt_access_token_expiry := 900;
  jwt_refresh_token_expiry := 86400;
  jwt_issuer := "kgv-auth";
  jwt_audience := "kgv-api";
  password_min_length := 12;
  password_require_uppercase := true;
  password_require_lowercase := true;
  password_require_numbers := true;
  password_require_special := true;
  password_history_count := 0;
  password_expiry_days := 90;
  mfa_enabled := true;
  mfa_issuer_name := "KGV System";
  session_timeout := 3600;
  session_absolute_timeout := 43200;
  concurrent_sessions_limit := 3;
  max_login_attempts := 5;
  lockout_duration := 900;
  require_email_verification := true
|}.

(** The defaults of another deployment: a different issuer. *)
Definition staging_config : AuthConfig := {|
  jwt_algorithm := "RS256";
  jwt_access_token_expiry := 900;
  jwt_refresh_token_expiry := 86400;
  jwt_issuer := "kgv-auth-staging";
  jwt_audience := "kgv-api";
  password_min_length := 12;
  password_require_uppercase := true;
  password_require_lowercase := true;
  password_require_numbers := true;
  password_require_special := true;
  password_history_count := 5;
  password_expiry_days := 90;
  mfa_enabled := true;
  mfa_issuer_name := "KGV System";
  session_timeout := 3600;
  session_absolute_timeout := 43200;
  concurrent_sessions_limit := 3;
  max_login_attempts := 5;
  lockout_duration := 900;
  require_email_verification := true
|}.

(** A password history: one entry in a format no scheme recognises,
    followed by five Argon2 hashes. *)
Definition older_hashes : list string := ["md5:0c9a8e1f"].
Definition recent_hashes : list string :=
  ["$argon2id$spring"; "$argon2id$summer"; "$argon2id$autumn"; "$argon2id$winter";
   "$argon2id$solstice"].

(** Carol's hash is in a format neither Argon2 nor the legacy context
    recognises. *)
Definition carol : AuthUser.t := {|
  AuthUser.id := 3;
  AuthUser.uuid := "c4r0l-uuid";
  AuthUser.username := "carol";
  AuthUser.email := "carol@example.org";
  AuthUser.password_hash := "md5:5f4dcc3b";
  AuthUser.mfa_secret := None;
  AuthUser.mfa_enabled := false;
  AuthUser.email_verified := true;
  AuthUser.password_changed_at := Some 0;
  AuthUser.must_change_password := false;
  AuthUser.is_active := true;
  AuthUser.is_locked := true;
  AuthUser.locked_until := Some 999000;
  AuthUser.failed_login_attempts := 5;
  AuthUser.last_failed_login := Some 998100;
  AuthUser.last_login := None;
  AuthUser.last_login_ip := None;
  AuthUser.roles := [Fixtures.user_role]
|}.

Definition world_carol : World := {|
  database := {| users := [Fixtures.alice; Fixtures.bob; carol]; sessions := [];
                 audit_logs := [] |};
  redis := ∅;
  clock := 1000000;
  ticks := [1; 0; 2; 0; 0; 1; 0; 0; 3; 0; 0; 0; 1]%N;
  entropy := ["sid-1"; "jti-1"; "jti-2"; "sid-2"; "jti-3"; "jti-4"]
|}.


(** The toy Argon2 of [Fixtures]: the salt leaves no trace in the hash. *)
Definition argon2_hash (password salt : string) : string :=
  "$argon2id$" +:+ password.

Definition roles_table : list AuthRole.t := [Fixtures.user_role].

(** A Redis that never drops a key, a [repr] that quotes, and an engine
    that refuses to compare a string column with anything but a string. *)
Definition redis_holds (w : World) (key : string) : bool := true.
Definition py_repr (s : string) : string := "'" +:+ s +:+ "'".
Definition query_other (v : PyValue) (rows : list AuthSession.t) (now : Z)
    : string + option nat :=
  inl "operator does not exist: character varying = integer".

(** An access token of Alice for the session [sid-1], issued ten seconds
    before the clock of the worlds below, and its payload. *)
Definition alice_token : Jwt.Token :=
  JWTManager.generate_access_token (JWTManager.mk default_config 1%nat 1%nat)
    Fixtures.alice "sid-1" 999990 "jti-1".

Definition alice_claims : Jwt.Claims :=
  match alice_token with
  | Jwt.Jws _ payload _ => payload
  | Jwt.Garbage _ => ∅
  end.

(** The session is cached, and the session table does not have it. *)
Definition world_cached_only : World := {|
  database := {| users := [Fixtures.alice; Fixtures.bob]; sessions := [];
                 audit_logs := [] |};
  redis := {[ "session:sid-1" :=
                (43190, {| cached_user_id := 1; cached_expires_at := Some 1043190;
                           cached_ip_address := None |}) ]};
  clock := 1000000;
  ticks := [1; 0; 2; 0; 0; 1; 0; 0; 3; 0; 0; 0; 1]%N;
  entropy := ["sid-2"; "jti-3"; "jti-4"]
|}.

(** The session is stored, and the cache does not have it. *)
Definition world_stored_only : World := {|
  database := {| users := [Fixtures.alice; Fixtures.bob];
                 sessions := [Fixtures.session_of_alice 1 "sid-1" 999990 1043190];
                 audit_logs := [] |};
  redis := ∅;
  clock := 1000000;
  ticks := [1; 0; 2; 0; 0; 1; 0; 0; 3; 0; 0; 0; 1]%N;
  entropy := ["sid-2"; "jti-3"; "jti-4"]
|}.

End Scenarios.

(** ** AuthenticationService.register_user

    The [return] statements of this function and of [verify_session] are
    the ends of the branches of their conditionals, so their bodies hand
    the value on as [Next]; what the caller gets is that outcome, or the
    exception, and the world the call leaves. *)

(** What [register_user] hands back as third component: the new row, and
    its [email_verification_token], a column the rows of the model leave
    out because nothing in the module reads it. *)
Record RegisteredUser := {
  registered_row : AuthUser.t;
  email_verification_token : option string
}.

Definition Registration : Type := bool * string * option RegisteredUser.

Section Registration.

(** [PasswordHasher.hash(password)] with the salt the random source gave. *)
Variable argon2_hash : string -> string -> string.
Variable config : AuthConfig.

(** [hash_password] *)
Definition hash_password (password : string) : M string :=
  salt ← random_string; mret (argon2_hash password salt).

Definition is_existing (username email : string) (u : AuthUser.t) : bool :=
  String.eqb (AuthUser.username u) username || String.eqb (AuthUser.email u) email.

(** The INSERT of a new user row: the primary key comes from the table's
    sequence, [uuid] from [uuid.uuid4], [password_changed_at],
    [created_at] and [updated_at] from [datetime.utcnow], the other
    columns from their constant defaults. *)
Definition insert_user (username email password_hash : string)
    (email_verified : bool) (roles : list AuthRole.t) : M AuthUser.t :=
  e ← get;
  uuid ← random_string;
  password_changed_at ← utcnow;
  created_at ← utcnow;
  updated_at ← utcnow;
  let user := {|
    AuthUser.id := Z.of_nat (length (users (work e))) + 1;
    AuthUser.uuid := uuid;
    AuthUser.username := username;
    AuthUser.email := email;
    AuthUser.password_hash := password_hash;
    AuthUser.mfa_secret := None;
    AuthUser.mfa_enabled := false;
    AuthUser.email_verified := email_verified;
    AuthUser.password_changed_at := Some password_changed_at;
    AuthUser.must_change_password := false;
    AuthUser.is_active := true;
    AuthUser.is_locked := false;
    AuthUser.locked_until := None;
    AuthUser.failed_login_attempts := 0;
    AuthUser.last_failed_login := None;
    AuthUser.last_login := None;
    AuthUser.last_login_ip := None;
    AuthUser.roles := roles
  |} in
  update (set_work (set_users (fun l => l ++ [user])));;
  mret user.

(** The [try] block of [register_user]; [roles_table] is the table of
    roles, which the function only reads. *)
Definition register_user_body (roles_table : list AuthRole.t)
    (username email password : string) : M Registration :=
  (* Check if user exists *)
  e ← get;
  match find_index (is_existing username email) (users (work e)) with
  | Some _ =>
      _log_audit None "REGISTRATION_FAILED" "DUPLICATE"
                [("username", VStr username); ("email", VStr email)] None;;
      mret (false, "Username or email already exists", None)
  | None =>
      (* Validate password strength *)
      let '(is_valid, errors) :=
        PasswordManager.validate_password_strength config password
          (Some username) (Some email) in
      if negb is_valid then mret (false, Py.join "; " errors, None)
      else
        (* Create user *)
        password_hash ← hash_password password;
        token ← (if require_email_verification config
                 then t ← random_string; mret (Some t)
                 else mret None);
        (* Assign default role *)
        let default_role :=
          List.find (fun r => String.eqb (AuthRole.name r) "user") roles_table in
        let roles := match default_role with Some r => [r] | None => [] end in
        user ← insert_user username email password_hash
                 (negb (require_email_verification config)) roles;
        db_commit;;
        _log_audit (Some (AuthUser.id user)) "REGISTRATION" "SUCCESS"
                  [("username", VStr username); ("email", VStr email)] None;;
        mret (true, "Registration successful",
              Some {| registered_row := user; email_verification_token := token |})
  end.

(** [register_user]: the ORM session on the durable rows, the [try] body,
    [except Exception] with its rollback, and [finally: db.close()]. *)
Definition register_user (roles_table : list AuthRole.t)
    (username email password : string) (w : World) : Ctl Registration * World :=
  let db := {| world := w; work := database w; pending := [] |} in
  match register_user_body roles_table username email password db with
  | (Raise x, e) => (Next (false, "Registration failed: " +:+ x, None), world e)
  | (c, e) => (c, world e)
  end.

End Registration.

(** ** AuthenticationService.verify_session *)

Definition set_last_activity (v : Z) (s : AuthSession.t) : AuthSession.t :=
  let '(AuthSession.mk a b c d e f g h i j _ l m) := s in
  AuthSession.mk a b c d e f g h i j v l m.

Section VerifySession.

Variable int_of_str : string -> option Z.
(** [repr(s)] of a string inside a list. *)
Variable py_repr : string -> string.
(** Redis drops a key when its time-to-live has run out; the map of the
    model does not record when a key was set, so whether [GET] still finds
    a key that was stored is a variable. *)
Variable redis_holds : World -> string -> bool.
(** The engine's answer to the session query when the bound parameter is
    not a string: an error, or a row. *)
Variable query_other : PyValue -> list AuthSession.t -> Z -> string + option nat.
Variable config : AuthConfig.
Variable private_key public_key : nat.

(** [f"{v}"] for what [claims.get('session_id')] gives. *)
Definition format_claim (v : option PyValue) : string :=
  match v with
  | None => "None"
  | Some (VStr s) => s
  | Some (VInt n) => Py.str n
  | Some (VBool b) => if b then "True" else "False"
  | Some (VList l) => "[" +:+ Py.join ", " (map py_repr l) +:+ "]"
  end.

(** [redis_client.get(key)] *)
Definition redis_get (w : World) (key : string) : option (Z * CachedSession) :=
  if redis_holds w key then redis w !! key else None.

(** [_get_cached_session] *)
Definition _get_cached_session (session_id : option PyValue)
    : M (option CachedSession) :=
  e ← get;
  let key := cache_key (format_claim session_id) in
  mret (snd <$> redis_get (world e) key).

Definition is_current (session_id : string) (now : Z) (s : AuthSession.t) : bool :=
  String.eqb (AuthSession.session_id s) session_id
  && AuthSession.is_active s
  && match AuthSession.expires_at s with
     | Some t => now <? t
     | None => false
     end.

(** [...filter(session_id == v, is_active == True, expires_at > now).first()];
    a comparison with [None] is [IS NULL], which no row satisfies. *)
Definition query_session (session_id : option PyValue) (now : Z) : M (option nat) :=
  e ← get;
  match session_id with
  | None => mret None
  | Some (VStr sid) => mret (find_index (is_current sid now) (sessions (work e)))
  | Some v => call (query_other v (sessions (work e)) now)
  end.

(** [jwt.decode] reads the clock when header and signature are in order
    and the claims are about to be validated. *)
Definition signature_in_order (m : JWTManager.t) (token : Jwt.Token) : bool :=
  match token with
  | Jwt.Garbage _ => false
  | Jwt.Jws alg payload sig =>
      bool_decide (alg ∈ [jwt_algorithm (JWTManager.config m)])
      && Jwt.verify_signature alg payload sig (JWTManager.public_key m)
  end.

Definition verify_session_body (access_token : Jwt.Token) : M (option Jwt.Claims) :=
  let m := jwt_manager config private_key public_key in
  (* Verify JWT *)
  now ← (if signature_in_order m access_token then utcnow else mret 0);
  claims ← call (JWTManager.verify_token int_of_str m access_token "access" now);
  match claims with
  | None => mret None
  | Some claims =>
      if bool_decide (claims = ∅) then mret None
      else
        (* Check session in cache *)
        let session_id := claims !! "session_id" in
        cached_session ← _get_cached_session session_id;
        match cached_session with
        | Some _ => mret (Some claims)
        | None =>
            (* Check database if not in cache *)
            now ← utcnow;
            session ← query_session session_id now;
            match session with
            | Some session =>
                (* Update last activity *)
                now ← utcnow;
                write_session session (set_last_activity now);;
                db_commit;;
                (* Re-cache session *)
                s ← read_session session;
                _cache_session s;;
                mret (Some claims)
            | None => mret None
            end
        end
  end.

(** [verify_session]: there is no [except]; whatever the body raises
    leaves the function, after [finally: db.close()]. *)
Definition verify_session (access_token : Jwt.Token) (w : World)
    : Ctl (option Jwt.Claims) * World :=
  let db := {| world := w; work := database w; pending := [] |} in
  let '(c, e) := verify_session_body access_token db in
  (c, world e).

End VerifySession.

(** * Properties *)

(** ** Password strength *)

Section PasswordStrength.

Import PasswordManager.

Lemma err_length_not_common cfg : err_length cfg <> err_common.
Proof.
  intros H. apply (f_equal (String.get 9)) in H.
  unfold err_length in H. vm_compute in H. congruence.
Qed.

Lemma err_length_not_special cfg : err_length cfg <> err_special.
Proof.
  intros H. apply (f_equal (String.get 14)) in H.
  unfold err_length in H. vm_compute in H. congruence.
Qed.

Lemma in_append_if c msg errors x :
  In x (append_if c msg errors) <-> In x errors \/ (c = true /\ x = msg).
Proof.
  unfold append_if. destruct c.
  - rewrite in_app_iff. simpl. intuition congruence.
  - intuition congruence.
Qed.

(** The denylist test is list membership of the lower-cased password. *)
Lemma common_finding_iff cfg password username email :
  In err_common (validate_password_strength cfg password username email).2
  <-> In (Py.lower password) common_passwords.
Proof.
  unfold validate_password_strength. cbn [snd].
  assert (Hin : Py.in_list (Py.lower password) common_passwords = true
                <-> In (Py.lower password) common_passwords).
  { unfold Py.in_list. rewrite existsb_exists. split.
    - intros (x & Hx & Heq). apply String.eqb_eq in Heq. now subst.
    - intros H. exists (Py.lower password). split; [done | apply String.eqb_refl]. }
  rewrite <- Hin.
  destruct username as [u|], email as [e|]; try destruct (Py.truthy (Some e));
    repeat rewrite in_append_if; cbn [In];
    pose proof (err_length_not_common cfg);
    unfold err_common, err_upper, err_lower, err_number, err_special,
      err_username, err_email, err_variety in *;
    intuition (try congruence).
Qed.

Lemma special_finding_iff cfg password username email :
  In err_special (validate_password_strength cfg password username email).2
  <-> password_require_special cfg
      && negb (Py.re_search is_special password) = true.
Proof.
  unfold validate_password_strength. cbn [snd].
  destruct username as [u|], email as [e|]; try destruct (Py.truthy (Some e));
    repeat rewrite in_append_if; cbn [In];
    pose proof (err_length_not_special cfg);
    unfold err_common, err_upper, err_lower, err_number, err_special,
      err_username, err_email, err_variety in *;
    intuition (try congruence).
Qed.

Lemma validate_not_ok cfg password username email x :
  In x (validate_password_strength cfg password username email).2 ->
  (validate_password_strength cfg password username email).1 = false.
Proof.
  unfold validate_password_strength. cbn [fst snd].
  match goal with |- In x ?l -> _ => destruct l end; [intros [] | done].
Qed.

(** C9, as stated, fails: with the default configuration, which requires a
    special character, [validate_password_strength("password123",
    username="jdoe")] does not report both a common-password finding and a
    special-character finding, because it reports no common-password
    finding at all. *)
Lemma password123_no_common_finding :
  let r := validate_password_strength default_config "password123"
                                      (Some "jdoe") None in
  password_require_special default_config = true
  /\ ~ (r.1 = false /\ In err_common r.2 /\ In err_special r.2).
Proof.
  split; [reflexivity |].
  intros (_ & H & _). apply common_finding_iff in H.
  vm_compute in H. intuition discriminate.
Qed.

(** C9, amended: whenever the configuration requires a special character,
    [validate_password_strength("password123", username="jdoe")] returns
    not-ok and its violations contain the special-character finding, but no
    common-password finding: the denylist test is exact membership of the
    lower-cased password among the five listed words, and "password123" is
    none of them. *)
Theorem validate_password123_jdoe (cfg : AuthConfig) :
  password_require_special cfg = true ->
  let r := validate_password_strength cfg "password123" (Some "jdoe") None in
  r.1 = false /\ In err_special r.2 /\ ~ In err_common r.2.
Proof.
  intros Hspecial. cbv zeta.
  assert (Hs : In err_special
                 (validate_password_strength cfg "password123" (Some "jdoe") None).2).
  { apply special_finding_iff. rewrite Hspecial. reflexivity. }
  split; [| split].
  - exact (validate_not_ok _ _ _ _ _ Hs).
  - exact Hs.
  - intros H. apply common_finding_iff in H.
    vm_compute in H. intuition discriminate.
Qed.

Lemma validate_password123_jdoe_default :
  password_require_special default_config = true
  /\ let r := validate_password_strength default_config "password123"
                                         (Some "jdoe") None in
     r.1 = false /\ In err_special r.2 /\ ~ In err_common r.2.
Proof.
  split; [reflexivity |].
  apply (validate_password123_jdoe default_config). reflexivity.
Defined.

End PasswordStrength.

(** ** Tokens *)

Section Tokens.

Import Jwt JWTManager.

Variable int_of_str : string -> option Z.

(** Sufficient conditions for [jwt.decode] to accept a token. *)
Lemma decode_accepts alg payload sig pk aud iss now iat nbf exp :
  verify_signature alg payload sig pk = true ->
  payload !! "iat" = Some (VInt iat) -> iat <= now ->
  payload !! "nbf" = Some (VInt nbf) -> nbf <= now ->
  payload !! "exp" = Some (VInt exp) -> now < exp ->
  payload !! "iss" = Some (VStr iss) ->
  payload !! "aud" = Some (VStr aud) -> aud <> "" ->
  decode int_of_str (Jws alg payload sig) pk [alg] aud iss now = inr payload.
Proof.
  intros Hsig Hiat ? Hnbf ? Hexp ? Hiss Haud Hne.
  unfold decode, and_then, validate_time, validate_iss, validate_aud, check,
    int_claim, falsy.
  rewrite bool_decide_eq_true_2 by set_solver.
  rewrite Hsig, Hiat, Hnbf, Hexp, Hiss, Haud. cbn [and_then].
  rewrite (proj2 (Z.leb_le iat now)), (proj2 (Z.leb_le nbf now)),
    (proj2 (Z.ltb_lt now exp)) by done.
  rewrite (bool_decide_eq_false_2 (aud = "")) by done.
  rewrite !bool_decide_eq_true_2 by done. reflexivity.
Qed.

(** A time claim that is no list fails with one of the two errors it was
    given, or passes with an integer that satisfies the test. *)
Lemma validate_time_cases payload claim ill ok bad :
  (forall l, payload !! claim <> Some (VList l)) ->
  validate_time int_of_str payload claim ill ok bad = inl ill
  \/ validate_time int_of_str payload claim ill ok bad = inl bad
  \/ (validate_time int_of_str payload claim ill ok bad = inr tt
      /\ forall t, payload !! claim = Some (VInt t) -> ok t = true).
Proof.
  intros Hlist. unfold validate_time, and_then, int_claim, check.
  destruct (payload !! claim) as [[s | n | b | l] |].
  - destruct (int_of_str s) as [t |]; [| by left].
    destruct (ok t); [| by right; left]. right; right. split; [done | discriminate].
  - destruct (ok n) eqn:Hn; [| by right; left].
    right; right. split; [done |]. by intros t [= <-].
  - destruct (ok _); [| by right; left]. right; right. split; [done | discriminate].
  - by destruct (Hlist l).
  - right; right. split; [done | discriminate].
Qed.

(** What [jwt.decode] does with a signed token: it fails with a subclass
    of [InvalidTokenError], or it returns the payload, and then every check
    has passed. *)
Lemma decode_cases alg payload sig pk algs aud iss now :
  (verify_signature alg payload sig pk = true -> timed payload) ->
  (exists e, decode int_of_str (Jws alg payload sig) pk algs aud iss now = inl e
             /\ is_invalid_token_error e = true)
  \/ (decode int_of_str (Jws alg payload sig) pk algs aud iss now = inr payload
      /\ verify_signature alg payload sig pk = true
      /\ (forall exp, payload !! "exp" = Some (VInt exp) -> now < exp)
      /\ payload !! "iss" = Some (VStr iss)
      /\ match payload !! "aud" with
         | Some (VStr a) => aud = a
         | Some (VList l) => aud ∈ l
         | _ => False
         end).
Proof.
  intros Htimed. unfold decode, and_then at 1 2, check.
  destruct (bool_decide (alg ∈ algs)); [| left; eauto].
  destruct (verify_signature alg payload sig pk) eqn:Hsig; [| left; eauto].
  specialize (Htimed eq_refl).
  assert (Hin : forall c, c ∈ ["iat"; "nbf"; "exp"] ->
                          forall l, payload !! c <> Some (VList l))
    by (intros c Hc l; by apply Htimed).
  destruct (validate_time_cases payload "iat" InvalidIssuedAtError
              (fun iat => iat <=? now) ImmatureSignatureError
              (Hin "iat" ltac:(set_solver))) as [-> | [-> | [-> _]]];
    [left; eauto | left; eauto |].
  destruct (validate_time_cases payload "nbf" DecodeError
              (fun nbf => nbf <=? now) ImmatureSignatureError
              (Hin "nbf" ltac:(set_solver))) as [-> | [-> | [-> _]]];
    [left; eauto | left; eauto |].
  destruct (validate_time_cases payload "exp" DecodeError
              (fun exp => now <? exp) ExpiredSignatureError
              (Hin "exp" ltac:(set_solver))) as [-> | [-> | [-> Hexp]]];
    [left; eauto | left; eauto |].
  cbn [and_then]. unfold validate_iss, validate_aud, check.
  destruct (payload !! "iss") as [iss' |]; [| left; eauto].
  destruct (bool_decide (iss' = VStr iss)) eqn:Hiss; [| left; eauto].
  apply bool_decide_eq_true_1 in Hiss as ->. cbn [and_then].
  destruct (payload !! "aud") as [v |]; [| left; eauto].
  destruct (falsy v); [left; eauto |].
  destruct v as [a | n | b | l]; cbn [and_then]; try (left; eauto; fail).
  - destruct (bool_decide (aud = a)) eqn:Ha; [| left; eauto].
    apply bool_decide_eq_true_1 in Ha. right. repeat split; try done.
    intros exp Hx. apply Z.ltb_lt. by apply Hexp.
  - destruct (bool_decide (aud ∈ l)) eqn:Ha; [| left; eauto].
    apply bool_decide_eq_true_1 in Ha. right. repeat split; try done.
    intros exp Hx. apply Z.ltb_lt. by apply Hexp.
Qed.

Lemma verify_token_decode_error m token token_type now e :
  decode int_of_str token (public_key m) [jwt_algorithm (config m)]
         (jwt_audience (config m)) (jwt_issuer (config m)) now = inl e ->
  is_invalid_token_error e = true ->
  verify_token int_of_str m token token_type now = inr None.
Proof.
  unfold verify_token. intros -> He.
  destruct (is_expired_error e); [done |]. by rewrite He.
Qed.

Lemma access_claims_untyped m user session_id now jti :
  exists claims,
    generate_access_token m user session_id now jti
    = encode claims (private_key m) (jwt_algorithm (config m))
    /\ claims !! "token_type" = None
    /\ timed claims.
Proof.
  eexists. split; [reflexivity |]. split; [reflexivity |].
  intros claim l Hin.
  apply list_elem_of_In in Hin. cbn in Hin.
  destruct Hin as [<- | [<- | [<- | []]]]; discriminate.
Qed.

Lemma refresh_token_accepted m user session_id now jti t :
  public_key m = private_key m ->
  jwt_audience (config m) <> "" ->
  now <= t < now + jwt_refresh_token_expiry (config m) ->
  exists claims,
    decode int_of_str (generate_refresh_token m user session_id now jti)
           (public_key m) [jwt_algorithm (config m)] (jwt_audience (config m))
           (jwt_issuer (config m)) t = inr claims
    /\ claims !! "token_type" = Some (VStr "refresh")
    /\ claims !! "session_id" = Some (VStr session_id).
Proof.
  intros Hkey Haud [Hlo Hhi]. unfold generate_refresh_token, encode.
  eexists. split.
  - eapply decode_accepts; try reflexivity; try done.
    unfold verify_signature. rewrite Hkey. by apply bool_decide_eq_true_2.
  - split; reflexivity.
Qed.

(** The two kinds of token under [verify_token]: an access token issued by
    [generate_access_token] never
    verifies with expected type 'refresh', at any time and under any key.
    The converse does not hold: a refresh token issued by
    [generate_refresh_token], checked with expected type 'access' before
    its expiry under the matching public key (and a non-empty configured
    audience), verifies and returns its claims, marker included, because
    the type marker is examined only when the expected type is
    'refresh'. *)
Theorem token_kinds_one_way (m : JWTManager.t) (user : AuthUser.t)
    (session_id jti : string) (now t : Z) :
  verify_token int_of_str m (generate_access_token m user session_id now jti)
               "refresh" t = inr None
  /\ (public_key m = private_key m ->
      jwt_audience (config m) <> "" ->
      now <= t < now + jwt_refresh_token_expiry (config m) ->
      exists claims,
        verify_token int_of_str m
          (generate_refresh_token m user session_id now jti) "access" t
        = inr (Some claims)
        /\ claims !! "token_type" = Some (VStr "refresh")).
Proof.
  split.
  - destruct (access_claims_untyped m user session_id now jti)
      as (c & -> & Hc & Htimed).
    destruct (decode_cases (jwt_algorithm (config m)) c
                {| signer := private_key m; signed_alg := jwt_algorithm (config m);
                   signed_payload := c |}
                (public_key m) [jwt_algorithm (config m)]
                (jwt_audience (config m)) (jwt_issuer (config m)) t
                (fun _ => Htimed))
      as [(e & He & Hinv) | (Hd & _)].
    + by eapply verify_token_decode_error.
    + unfold verify_token, encode. rewrite Hd, Hc. reflexivity.
  - intros Hkey Haud Ht.
    destruct (refresh_token_accepted m user session_id now jti t Hkey Haud Ht)
      as (claims & Hd & Hty & _).
    exists claims. split; [| exact Hty].
    unfold verify_token. rewrite Hd.
    rewrite (bool_decide_eq_true_2 _ Hty). reflexivity.
Qed.


End Tokens.

(** C1 fails on this input: the refresh token issued by
    [generate_refresh_token] for Alice under the default configuration and
    checked with expected type 'access' in the second it was issued is not
    rejected.  Under "Verify token type" the marker is compared only when
    a refresh token is expected; nothing is compared when an access token
    is. *)
Lemma refresh_token_verifies_as_access :
  let m := JWTManager.mk default_config 1%nat 1%nat in
  JWTManager.verify_token Fixtures.int_of_str m
    (JWTManager.generate_refresh_token m Fixtures.alice "sid-1" 1000000 "jti-2")
    "access" 1000000 <> inr None.
Proof. vm_compute. discriminate. Qed.


Lemma token_kinds_one_way_default :
  let m := JWTManager.mk default_config 1%nat 1%nat in
  JWTManager.public_key m = JWTManager.private_key m
  /\ jwt_audience (JWTManager.config m) <> ""
  /\ 1000000 <= 1000000 < 1000000 + jwt_refresh_token_expiry (JWTManager.config m)
  /\ JWTManager.verify_token Fixtures.int_of_str m
       (JWTManager.generate_access_token m Fixtures.alice "sid-1" 1000000 "jti-1")
       "refresh" 1000000 = inr None
  /\ exists claims,
       JWTManager.verify_token Fixtures.int_of_str m
         (JWTManager.generate_refresh_token m Fixtures.alice "sid-1" 1000000 "jti-2")
         "access" 1000000 = inr (Some claims)
       /\ claims !! "token_type" = Some (VStr "refresh").
Proof.
  intros m.
  assert (Hkey : JWTManager.public_key m = JWTManager.private_key m) by reflexivity.
  assert (Haud : jwt_audience (JWTManager.config m) <> "") by discriminate.
  assert (Ht : 1000000 <= 1000000
               < 1000000 + jwt_refresh_token_expiry (JWTManager.config m))
    by (vm_compute; split; [discriminate | reflexivity]).
  destruct (token_kinds_one_way Fixtures.int_of_str m Fixtures.alice
              "sid-1" "jti-1" 1000000 1000000) as [Ha _].
  destruct (token_kinds_one_way Fixtures.int_of_str m Fixtures.alice
              "sid-1" "jti-2" 1000000 1000000) as [_ Hr].
  split; [exact Hkey |]. split; [exact Haud |]. split; [exact Ht |].
  split; [exact Ha |]. exact (Hr Hkey Haud Ht).
Defined.


(** ** The oldest-session query *)

Section Oldest.

(** The scan either keeps the candidate it came with, which then is no
    younger than any candidate of the list, or settles on a candidate of
    the list that is strictly older than the one it came with and no
    younger than any other candidate of the list. *)
Lemma oldest_from_spec uid l i best r :
  oldest_from uid l i best = Some r ->
  (exists t, best = Some (r, t)
             /\ forall j s, l !! j = Some s -> is_candidate uid s = true ->
                            t <= AuthSession.created_at s)
  \/ (exists j s,
        r = (i + j)%nat /\ l !! j = Some s /\ is_candidate uid s = true
        /\ (forall b t, best = Some (b, t) -> AuthSession.created_at s < t)
        /\ (forall j' s', l !! j' = Some s' -> is_candidate uid s' = true ->
                          AuthSession.created_at s <= AuthSession.created_at s')).
Proof.
  revert i best. induction l as [| x l IH]; intros i best Hr; cbn [oldest_from] in Hr.
  - destruct best as [[b t] |]; [| discriminate]. cbn in Hr. injection Hr as ->.
    left. exists t. split; [done |]. intros j s Hs. by destruct j.
  - apply IH in Hr.
    destruct (is_candidate uid x) eqn:Hx.
    + destruct best as [[b t] |].
      * destruct (AuthSession.created_at x <? t) eqn:Hlt.
        -- apply Z.ltb_lt in Hlt.
           destruct Hr as [(t' & [= -> <-] & Hall) | (j & s & -> & Hs & Hc & Hb & Hall)].
           ++ right. exists 0%nat, x. rewrite Nat.add_0_r.
              repeat split; try done.
              ** by intros b' t' [= _ <-].
              ** intros [| j'] s' Hs' Hc'; cbn in Hs'.
                 --- injection Hs' as <-. lia.
                 --- by apply (Hall j' s').
           ++ right. exists (S j), s. split; [lia |]. split; [done |]. split; [done |].
              split.
              ** intros b' t' [= _ <-]. specialize (Hb _ _ eq_refl). lia.
              ** intros [| j'] s' Hs' Hc'; cbn in Hs'.
                 --- injection Hs' as <-. specialize (Hb _ _ eq_refl). lia.
                 --- by apply (Hall j' s').
        -- apply Z.ltb_ge in Hlt.
           destruct Hr as [(t' & [= -> <-] & Hall) | (j & s & -> & Hs & Hc & Hb & Hall)].
           ++ left. exists t. split; [done |].
              intros [| j'] s' Hs' Hc'; cbn in Hs'.
              ** by injection Hs' as <-.
              ** by apply (Hall j' s').
           ++ right. exists (S j), s. split; [lia |]. split; [done |]. split; [done |].
              split; [exact Hb |].
              intros [| j'] s' Hs' Hc'; cbn in Hs'.
              ** injection Hs' as <-. specialize (Hb _ _ eq_refl). lia.
              ** by apply (Hall j' s').
      * destruct Hr as [(t' & [= -> <-] & Hall) | (j & s & -> & Hs & Hc & Hb & Hall)].
        -- right. exists 0%nat, x. rewrite Nat.add_0_r.
           repeat split; try done.
           intros [| j'] s' Hs' Hc'; cbn in Hs'.
           ++ injection Hs' as <-. lia.
           ++ by apply (Hall j' s').
        -- right. exists (S j), s. split; [lia |]. split; [done |]. split; [done |].
           split; [done |].
           intros [| j'] s' Hs' Hc'; cbn in Hs'.
           ++ injection Hs' as <-. specialize (Hb _ _ eq_refl). lia.
           ++ by apply (Hall j' s').
    + destruct Hr as [(t' & -> & Hall) | (j & s & -> & Hs & Hc & Hb & Hall)].
      * left. exists t'. split; [done |].
        intros [| j'] s' Hs' Hc'; cbn in Hs'.
        -- injection Hs' as <-. congruence.
        -- by apply (Hall j' s').
      * right. exists (S j), s. split; [lia |]. split; [done |]. split; [done |].
        split; [exact Hb |].
        intros [| j'] s' Hs' Hc'; cbn in Hs'.
        -- injection Hs' as <-. congruence.
        -- by apply (Hall j' s').
Qed.

(** The row the oldest-session query returns: one of the user's rows that
    are flagged active, no younger than any other such row.  Whether the
    row has expired plays no part. *)
Lemma oldest_from_flagged uid l r :
  oldest_from uid l 0 None = Some r ->
  exists s, l !! r = Some s
            /\ is_candidate uid s = true
            /\ forall j s', l !! j = Some s' -> is_candidate uid s' = true ->
                            AuthSession.created_at s <= AuthSession.created_at s'.
Proof.
  intros Hr. apply oldest_from_spec in Hr.
  destruct Hr as [(t & [=] & _) | (j & s & -> & Hs & Hc & _ & Hall)].
  exists s. by repeat split.
Qed.

End Oldest.

(** ** Running the primitives

    Equations for one step of each primitive on a request state whose
    three components are explicit; [run] rewrites with them. *)

Section Run.

Lemma run_bind {A B} (m : M A) (k : A -> M B) e :
  (m ≫= k) e = match m e with
               | (Next a, e') => k a e'
               | (Return r, e') => (Return r, e')
               | (Raise x, e') => (Raise x, e')
               end.
Proof. reflexivity. Qed.

Lemma run_get w st p :
  get {| world := w; work := st; pending := p |}
  = (Next {| world := w; work := st; pending := p |},
     {| world := w; work := st; pending := p |}).
Proof. reflexivity. Qed.

Lemma run_update f e : update f e = (Next tt, f e).
Proof. reflexivity. Qed.

Lemma run_ret {A} (a : A) e : mret (M:=M) a e = (Next a, e).
Proof. reflexivity. Qed.

Lemma run_throw {A} x e : mthrow (M:=M) (A:=A) x e = (Raise x, e).
Proof. reflexivity. Qed.

Lemma run_pass e : pass e = (Next tt, e).
Proof. reflexivity. Qed.

Lemma run_return {A} r e : return_ (A:=A) r e = (Return r, e).
Proof. reflexivity. Qed.

Lemma run_call_ok {A} (a : A) e : call (inr a) e = (Next a, e).
Proof. reflexivity. Qed.

Lemma run_call_raise {A} x e : call (A:=A) (inl x) e = (Raise x, e).
Proof. reflexivity. Qed.

Lemma run_utcnow w st p :
  utcnow {| world := w; work := st; pending := p |}
  = (Next (clock w), {| world := tick w; work := st; pending := p |}).
Proof. reflexivity. Qed.

Lemma run_random_string w st p :
  random_string {| world := w; work := st; pending := p |}
  = (Next (hd "" (entropy w)), {| world := draw w; work := st; pending := p |}).
Proof. reflexivity. Qed.

Lemma run_read_user w st p h u :
  users st !! h = Some u ->
  read_user h {| world := w; work := st; pending := p |}
  = (Next u, {| world := w; work := st; pending := p |}).
Proof.
  intros Hu. unfold read_user. rewrite run_bind, run_get. cbn. by rewrite Hu.
Qed.

Lemma run_read_user_detached w st p h :
  users st !! h = None ->
  read_user h {| world := w; work := st; pending := p |}
  = (Raise "DetachedInstanceError", {| world := w; work := st; pending := p |}).
Proof.
  intros Hu. unfold read_user. rewrite run_bind, run_get. cbn. by rewrite Hu.
Qed.

Lemma run_write_user w st p h f :
  write_user h f {| world := w; work := st; pending := p |}
  = (Next tt, {| world := w; work := set_users (alter f h) st; pending := p |}).
Proof. reflexivity. Qed.

Lemma run_write_session w st p h f :
  write_session h f {| world := w; work := st; pending := p |}
  = (Next tt, {| world := w; work := set_sessions (alter f h) st; pending := p |}).
Proof. reflexivity. Qed.

Lemma run_db_add w st p s :
  db_add s {| world := w; work := st; pending := p |}
  = (Next tt, {| world := w; work := st; pending := p ++ [s] |}).
Proof. reflexivity. Qed.

Lemma run_db_commit w st :
  db_commit {| world := w; work := st; pending := [] |}
  = (Next tt, {| world := set_database st w; work := st; pending := [] |}).
Proof. reflexivity. Qed.

Lemma run_db_commit_insert w st s :
  db_commit {| world := w; work := st; pending := [s] |}
  = (Next tt,
     let st' := set_sessions (fun l => l ++ [inserted w st s]) st in
     {| world := set_database st' (tick (tick w)); work := st'; pending := [] |}).
Proof. reflexivity. Qed.

Lemma run_log_audit w st uid ty status details ip :
  _log_audit uid ty status details ip {| world := w; work := st; pending := [] |}
  = (Next tt,
     let st' := set_audit_logs
                  (fun l => l ++ [audit_row (audit_logs st) uid ty status details ip
                                            (clock w)])
                  st in
     {| world := set_database st' (tick w); work := st'; pending := [] |}).
Proof. reflexivity. Qed.

Lemma run_query_user w st p username :
  query_user username {| world := w; work := st; pending := p |}
  = (Next (find_index (matches_login username) (users st)),
     {| world := w; work := st; pending := p |}).
Proof. reflexivity. Qed.

Lemma run_count_active_sessions w st p uid now :
  count_active_sessions uid now {| world := w; work := st; pending := p |}
  = (Next (Z.of_nat (length (List.filter (is_live uid now) (sessions st)))),
     {| world := w; work := st; pending := p |}).
Proof. reflexivity. Qed.

Lemma run_query_oldest_session w st p uid :
  query_oldest_session uid {| world := w; work := st; pending := p |}
  = (Next (oldest_from uid (sessions st) 0%nat None),
     {| world := w; work := st; pending := p |}).
Proof. reflexivity. Qed.

Lemma run_invalidate_session_cache w st p sid :
  _invalidate_session_cache sid {| world := w; work := st; pending := p |}
  = (Next tt, {| world := set_redis (fun r => delete (cache_key sid) r) w;
                 work := st; pending := p |}).
Proof. reflexivity. Qed.

Lemma lookup_users_alter st f h u :
  users st !! h = Some u ->
  users (set_users (alter f h) st) !! h = Some (f u).
Proof. intros Hu. cbn. by rewrite list_lookup_alter_eq, Hu. Qed.

Lemma lookup_users_sessions st g h :
  users (set_sessions g st) !! h = users st !! h.
Proof. reflexivity. Qed.

End Run.

Ltac lookup_user :=
  repeat first [ apply lookup_users_alter | rewrite lookup_users_sessions ];
  eassumption.

Ltac run1 :=
  first
    [ rewrite run_utcnow
    | rewrite run_random_string
    | rewrite run_write_user
    | rewrite run_write_session
    | rewrite run_db_add
    | rewrite run_db_commit
    | rewrite run_db_commit_insert
    | rewrite run_log_audit
    | rewrite run_query_user
    | rewrite run_count_active_sessions
    | rewrite run_query_oldest_session
    | rewrite run_invalidate_session_cache
    | rewrite run_pass
    | rewrite run_return
    | rewrite run_call_ok
    | rewrite run_call_raise
    | rewrite run_ret
    | rewrite run_throw
    | erewrite run_read_user by lookup_user
    | rewrite run_update
    | rewrite run_get
    | rewrite run_bind ];
  cbv beta iota zeta delta [set_world set_work set_pending];
  cbn [app world work pending].

Ltac run := repeat run1.

Ltac fields :=
  cbn [AuthUser.id AuthUser.uuid AuthUser.username AuthUser.email
       AuthUser.password_hash AuthUser.mfa_secret AuthUser.mfa_enabled
       AuthUser.email_verified AuthUser.password_changed_at
       AuthUser.must_change_password AuthUser.is_active AuthUser.is_locked
       AuthUser.locked_until AuthUser.failed_login_attempts
       AuthUser.last_failed_login AuthUser.last_login AuthUser.last_login_ip
       AuthUser.roles AuthUser.set_must_change_password AuthUser.set_is_locked
       AuthUser.set_locked_until AuthUser.set_failed_login_attempts
       AuthUser.set_last_failed_login AuthUser.set_last_login
       AuthUser.set_last_login_ip incr_failed] in *.

(** ** Statements that can only fail *)

Section FailsOnly.

Lemma fails_only_bind {A B} (m : M A) (k : A -> M B) :
  fails_only m -> (forall a, fails_only (k a)) -> fails_only (m ≫= k).
Proof.
  intros Hm Hk e He. rewrite run_bind. specialize (Hm e He).
  destruct (m e) as [[a | r | x] e']; [by apply Hk | done | done].
Qed.

Lemma fails_only_ret {A} (a : A) : fails_only (mret (M:=M) a).
Proof. by intros e He. Qed.

Lemma fails_only_pass : fails_only pass.
Proof. by intros e He. Qed.

Lemma fails_only_throw {A} (x : string) : fails_only (mthrow (M:=M) (A:=A) x).
Proof. by intros e He. Qed.

Lemma fails_only_call {A} (r : string + A) : fails_only (call r).
Proof. by destruct r; intros e He. Qed.

Lemma fails_only_return {A} msg data : fails_only (return_ (A:=A) (false, msg, data)).
Proof. by intros e He. Qed.

Lemma fails_only_get : fails_only get.
Proof. by intros e He. Qed.

Lemma fails_only_utcnow : fails_only utcnow.
Proof. by intros [w st p] He. Qed.

Lemma fails_only_read_user h : fails_only (read_user h).
Proof.
  intros [w st p] He. unfold read_user. rewrite run_bind, run_get. cbn.
  by destruct (users st !! h).
Qed.

Lemma fails_only_write_user h f : fails_only (write_user h f).
Proof. by intros [w st p] He. Qed.

Lemma fails_only_read_session h : fails_only (read_session h).
Proof.
  intros [w st p] He. unfold read_session. rewrite run_bind, run_get. cbn.
  by destruct (sessions st !! h).
Qed.

Lemma fails_only_write_session h f : fails_only (write_session h f).
Proof. by intros [w st p] He. Qed.

Lemma fails_only_db_commit : fails_only db_commit.
Proof. intros [w st p] He. cbn in He. by subst p. Qed.

Lemma fails_only_log_audit uid ty status details ip :
  fails_only (_log_audit uid ty status details ip).
Proof. intros [w st p] He. cbn in He. by subst p. Qed.

Lemma fails_only_count_active_sessions uid now :
  fails_only (count_active_sessions uid now).
Proof. by intros [w st p] He. Qed.

Lemma fails_only_query_oldest_session uid : fails_only (query_oldest_session uid).
Proof. by intros [w st p] He. Qed.

Lemma fails_only_invalidate_session_cache sid :
  fails_only (_invalidate_session_cache sid).
Proof. by intros [w st p] He. Qed.

End FailsOnly.

Create HintDb fails_only.
#[export] Hint Resolve fails_only_ret fails_only_pass fails_only_throw fails_only_call
  fails_only_return fails_only_get fails_only_utcnow fails_only_read_user
  fails_only_write_user fails_only_read_session fails_only_write_session
  fails_only_db_commit fails_only_log_audit fails_only_count_active_sessions
  fails_only_query_oldest_session fails_only_invalidate_session_cache : fails_only.

Ltac fails_only :=
  repeat first
    [ solve [auto with fails_only]
    | match goal with
      | |- fails_only (if ?c then _ else _) => destruct c
      | |- fails_only (match ?x with _ => _ end) => destruct x
      | |- fails_only (let _ := _ in _) => cbv zeta
      end
    | apply fails_only_bind; [| intros ?] ].

(** ** Invariants of a request *)

Section Preserves.

Lemma preserves_bind {A B} I (m : M A) (k : A -> M B) :
  preserves I m -> (forall a, preserves I (k a)) -> preserves I (m ≫= k).
Proof.
  intros Hm Hk e He. rewrite run_bind. specialize (Hm e He).
  destruct (m e) as [[a | r | x] e']; [by apply Hk | done | done].
Qed.

Lemma preserves_pure {A} I (m : M A) :
  (forall e, (m e).2 = e) -> preserves I m.
Proof. intros Hm e He. by rewrite Hm. Qed.

Lemma keeps_rows_refl l : keeps_rows l l.
Proof. intros i s Hs. exists s. by repeat split. Qed.

Lemma keeps_rows_app old new extra :
  keeps_rows old new -> keeps_rows old (new ++ extra).
Proof.
  intros H i s Hs. destruct (H i s Hs) as (s' & Hs' & Hsame).
  exists s'. split; [| done]. by apply lookup_app_l_Some.
Qed.

Lemma keeps_rows_set_is_active old new h v :
  keeps_rows old new ->
  keeps_rows old (alter (AuthSession.set_is_active v) h new).
Proof.
  intros H i s Hs. destruct (H i s Hs) as (s' & Hs' & Hsame).
  destruct (decide (i = h)) as [-> |].
  - exists (AuthSession.set_is_active v s').
    rewrite list_lookup_alter_eq, Hs'. split; [done |].
    by destruct s'.
  - exists s'. by rewrite list_lookup_alter_ne.
Qed.

Variable old : list AuthSession.t.

Lemma rows_kept_ret {A} (a : A) : preserves (rows_kept old) (mret (M:=M) a).
Proof. by apply preserves_pure. Qed.

Lemma rows_kept_pass : preserves (rows_kept old) pass.
Proof. by apply preserves_pure. Qed.

Lemma rows_kept_throw {A} (x : string) :
  preserves (rows_kept old) (mthrow (M:=M) (A:=A) x).
Proof. by apply preserves_pure. Qed.

Lemma rows_kept_call {A} (r : string + A) : preserves (rows_kept old) (call r).
Proof. apply preserves_pure. by destruct r. Qed.

Lemma rows_kept_return {A} r : preserves (rows_kept old) (return_ (A:=A) r).
Proof. by apply preserves_pure. Qed.

Lemma rows_kept_utcnow : preserves (rows_kept old) utcnow.
Proof. by intros [w st p] He. Qed.

Lemma rows_kept_random_string : preserves (rows_kept old) random_string.
Proof. by intros [w st p] He. Qed.

Lemma rows_kept_read_user h : preserves (rows_kept old) (read_user h).
Proof.
  apply preserves_pure. intros [w st p]. unfold read_user.
  rewrite run_bind, run_get. cbn. by destruct (users st !! h).
Qed.

Lemma rows_kept_write_user h f : preserves (rows_kept old) (write_user h f).
Proof. by intros [w st p] He. Qed.

Lemma rows_kept_read_session h : preserves (rows_kept old) (read_session h).
Proof.
  apply preserves_pure. intros [w st p]. unfold read_session.
  rewrite run_bind, run_get. cbn. by destruct (sessions st !! h).
Qed.

Lemma rows_kept_write_session h v :
  preserves (rows_kept old) (write_session h (AuthSession.set_is_active v)).
Proof.
  intros [w st p] [Hw Hd]. split; [| done]. cbn.
  by apply keeps_rows_set_is_active.
Qed.

Lemma rows_kept_db_add s : preserves (rows_kept old) (db_add s).
Proof. by intros [w st p] He. Qed.

Lemma rows_kept_insert_session s : preserves (rows_kept old) (insert_session s).
Proof. intros [w st p] [Hw Hd]. split; [| done]. cbn. by apply keeps_rows_app. Qed.

Lemma rows_kept_flush l : preserves (rows_kept old) (flush l).
Proof.
  induction l as [| s l IH]; [apply rows_kept_pass |].
  cbn [flush]. apply preserves_bind; [apply rows_kept_insert_session | done].
Qed.

Lemma flush_next l e : (flush l e).1 = Next tt.
Proof.
  revert e. induction l as [| s l IH]; intros [w st p]; [done |].
  cbn [flush]. rewrite run_bind. unfold insert_session. run. apply IH.
Qed.

Lemma db_commit_state e :
  (db_commit e).2
  = let e1 := (flush (pending e) e).2 in
    {| world := set_database (work e1) (world e1); work := work e1; pending := [] |}.
Proof.
  destruct e as [w st p]. unfold db_commit. run. cbn [pending].
  pose proof (flush_next p {| world := w; work := st; pending := p |}) as Hf.
  destruct (flush p _) as [c [w1 st1 p1]]. cbn in Hf. subst c. by run.
Qed.

Lemma rows_kept_db_commit : preserves (rows_kept old) db_commit.
Proof.
  intros e He. rewrite db_commit_state.
  pose proof (rows_kept_flush (pending e) e He) as [Hw _].
  by split.
Qed.

Lemma rows_kept_log_audit uid ty status details ip :
  preserves (rows_kept old) (_log_audit uid ty status details ip).
Proof.
  unfold _log_audit.
  apply preserves_bind; [by apply preserves_pure | intros e0].
  apply preserves_bind; [apply rows_kept_utcnow | intros created].
  apply preserves_bind; [by intros [w st p] He | intros _].
  apply rows_kept_db_commit.
Qed.

Lemma rows_kept_query_user username : preserves (rows_kept old) (query_user username).
Proof. by apply preserves_pure. Qed.

Lemma rows_kept_count_active_sessions uid now :
  preserves (rows_kept old) (count_active_sessions uid now).
Proof. by apply preserves_pure. Qed.

Lemma rows_kept_query_oldest_session uid :
  preserves (rows_kept old) (query_oldest_session uid).
Proof. by apply preserves_pure. Qed.

Lemma rows_kept_invalidate_session_cache sid :
  preserves (rows_kept old) (_invalidate_session_cache sid).
Proof. by intros [w st p] He. Qed.

Lemma rows_kept_cache_session s : preserves (rows_kept old) (_cache_session s).
Proof.
  unfold _cache_session. destruct (AuthSession.expires_at s); [| apply rows_kept_throw].
  apply preserves_bind; [apply rows_kept_utcnow | intros now].
  cbv zeta. destruct (_ =? 0); [apply rows_kept_throw | by intros [w st p] He].
Qed.

End Preserves.

Create HintDb rows_kept.
#[export] Hint Resolve rows_kept_ret rows_kept_pass rows_kept_throw rows_kept_call
  rows_kept_return rows_kept_utcnow rows_kept_random_string rows_kept_read_user
  rows_kept_write_user rows_kept_read_session rows_kept_write_session
  rows_kept_db_add rows_kept_db_commit rows_kept_log_audit rows_kept_query_user
  rows_kept_count_active_sessions rows_kept_query_oldest_session
  rows_kept_invalidate_session_cache rows_kept_cache_session : rows_kept.

Ltac rows_kept :=
  repeat first
    [ solve [auto with rows_kept]
    | match goal with
      | |- preserves _ (if ?c then _ else _) => destruct c
      | |- preserves _ (match ?x with _ => _ end) => destruct x
      | |- preserves _ (let _ := _ in _) => cbv zeta
      end
    | apply preserves_bind; [| intros ?] ].

(** ** Properties of [authenticate] *)

Section Authenticate.

Variable argon2_verify : string -> string -> bool.
Variable pwd_context_verify : string -> string -> string + bool.
Variable totp_at : string -> Z -> string.
Variable config : AuthConfig.
Variable private_key public_key : nat.

Local Abbreviation auth :=
  (authenticate argon2_verify pwd_context_verify totp_at config private_key public_key).
Local Abbreviation verify_password :=
  (PasswordManager.verify_password argon2_verify pwd_context_verify).

(** *** Single paths *)

Lemma clock_tick_le w : clock w <= clock (tick w).
Proof. cbn. lia. Qed.


(** A locked account whose [locked_until] lies ahead of the clock. *)
Lemma authenticate_locked username password ip ua mfa w h u locked_until :
  find_index (matches_login username) (users (database w)) = Some h ->
  users (database w) !! h = Some u ->
  AuthUser.is_locked u = true ->
  AuthUser.locked_until u = Some locked_until ->
  clock w < locked_until ->
  let '(r, w') := auth username password ip ua mfa w in
  let remaining := Py.td_seconds (locked_until - clock (tick w)) in
  r = (false, msg_locked remaining, None)
  /\ users (database w') = users (database w)
  /\ sessions (database w') = sessions (database w)
  /\ audit_logs (database w')
     = audit_logs (database w)
       ++ [audit_row (audit_logs (database w)) (Some (AuthUser.id u)) "LOGIN_FAILED"
                     "ACCOUNT_LOCKED" [("remaining_seconds", VInt remaining)] ip
                     (clock (tick (tick w)))].
Proof.
  intros Hfind Hu Hlocked Huntil Hlt. unfold authenticate, authenticate_body.
  run. rewrite Hfind. run.
  unfold check_locked. run. rewrite Hlocked, Huntil. run.
  rewrite (proj2 (Z.ltb_lt _ _)) by done. run. cbn. done.
Qed.

Lemma run_check_locked_pass w st h u ip :
  users st !! h = Some u ->
  lock_clear u (clock w) ->
  exists w1 st1,
    check_locked h ip {| world := w; work := st; pending := [] |}
    = (Next tt, {| world := w1; work := st1; pending := [] |})
    /\ users st1 = <[h := unlocked u]> (users st)
    /\ users st1 !! h = Some (unlocked u)
    /\ sessions st1 = sessions st
    /\ audit_logs st1 = audit_logs st
    /\ database w1 = database w
    /\ redis w1 = redis w
    /\ entropy w1 = entropy w
    /\ (w1 = w \/ w1 = tick w).
Proof.
  intros Hu Hclear. unfold check_locked, unlocked, lock_clear in *. run.
  assert (Hh : (h < length (users st))%nat) by by eapply lookup_lt_Some.
  destruct (AuthUser.is_locked u) eqn:Hlocked.
  - assert (Hst : users (set_users
                     (alter (AuthUser.set_failed_login_attempts 0) h)
                     (set_users (alter (AuthUser.set_locked_until None) h)
                        (set_users (alter (AuthUser.set_is_locked false) h) st)))
                  = <[h := AuthUser.set_failed_login_attempts 0
                             (AuthUser.set_locked_until None
                                (AuthUser.set_is_locked false u))]> (users st)).
    { cbn. rewrite !list_alter_alter_eq. apply list_eq. intros i.
      destruct (decide (i = h)) as [-> |].
      - rewrite list_lookup_alter_eq, list_lookup_insert_eq, Hu by done. done.
      - by rewrite list_lookup_alter_ne, list_lookup_insert_ne. }
    destruct (AuthUser.locked_until u) as [t |] eqn:Huntil.
    + run. rewrite (proj2 (Z.ltb_ge _ _)) by (by apply Hclear). run.
      do 2 eexists. split; [reflexivity |]. rewrite Hst.
      rewrite list_lookup_insert_eq by done. cbn. auto 10.
    + run. do 2 eexists. split; [reflexivity |]. rewrite Hst.
      rewrite list_lookup_insert_eq by done. cbn. auto 10.
  - run. exists w, st. split; [reflexivity |].
    rewrite list_insert_id by done. auto 10.
Qed.

Lemma unlocked_fields u :
  AuthUser.id (unlocked u) = AuthUser.id u
  /\ AuthUser.password_hash (unlocked u) = AuthUser.password_hash u
  /\ AuthUser.is_active (unlocked u) = AuthUser.is_active u
  /\ AuthUser.email_verified (unlocked u) = AuthUser.email_verified u
  /\ AuthUser.mfa_enabled (unlocked u) = AuthUser.mfa_enabled u
  /\ AuthUser.mfa_secret (unlocked u) = AuthUser.mfa_secret u
  /\ AuthUser.failed_login_attempts (unlocked u)
     = (if AuthUser.is_locked u then 0 else AuthUser.failed_login_attempts u).
Proof. unfold unlocked. destruct u as [? ? ? ? ? ? ? ? ? ? ? [] ? ? ? ? ? ?]; done. Qed.

Ltac pass_lock Hu Hclear :=
  let w1 := fresh "w1" in
  let st1 := fresh "st1" in
  let Hrun := fresh "Hrun" in
  let Hus := fresh "Hus" in
  let Hu1 := fresh "Hu1" in
  let Hss := fresh "Hss" in
  let Hal := fresh "Hal" in
  let Hdb := fresh "Hdb" in
  let Hrd := fresh "Hrd" in
  let Hen := fresh "Hen" in
  let Hw1 := fresh "Hw1" in
  match goal with
  | |- context [check_locked ?h ?ip {| world := ?w; work := ?st; pending := [] |}] =>
      destruct (run_check_locked_pass w st h _ ip Hu Hclear)
        as (w1 & st1 & Hrun & Hus & Hu1 & Hss & Hal & Hdb & Hrd & Hen & Hw1);
      rewrite Hrun; clear Hrun
  end.

(** A wrong password below the lockout threshold. *)
Lemma authenticate_wrong_password username password ip ua mfa w h u :
  find_index (matches_login username) (users (database w)) = Some h ->
  users (database w) !! h = Some u ->
  lock_clear u (clock w) ->
  verify_password password (AuthUser.password_hash u) = inr false ->
  AuthUser.failed_login_attempts (unlocked u) + 1 < max_login_attempts config ->
  let '(r, w') := auth username password ip ua mfa w in
  r = (false, "Invalid credentials", None)
  /\ (exists now,
        users (database w')
        = <[h := AuthUser.set_last_failed_login (Some now) (incr_failed (unlocked u))]>
            (users (database w)))
  /\ sessions (database w') = sessions (database w)
  /\ (exists created,
        audit_logs (database w')
        = audit_logs (database w)
          ++ [audit_row (audit_logs (database w)) (Some (AuthUser.id u)) "LOGIN_FAILED"
                "INVALID_PASSWORD"
                [("attempts", VInt (AuthUser.failed_login_attempts (unlocked u) + 1))]
                ip created]).
Proof.
  intros Hfind Hu Hclear Hpw Hlt.
  destruct (unlocked_fields u) as (Hid & Hhash & _).
  unfold authenticate, authenticate_body.
  run. rewrite Hfind. run. pass_lock Hu Hclear. run.
  unfold check_password. run. rewrite Hhash, Hpw. run. cbn [negb]. run.
  destruct (unlocked u) eqn:Hunl; fields.
  rewrite (proj2 (Z.leb_gt _ _)) by lia. run. fields.
  cbn. rewrite !list_alter_alter_eq, Hus, Hss, Hal.
  assert (Hh : (h < length (users (database w)))%nat) by by eapply lookup_lt_Some.
  split; [done |]. split; [| split; [done |]].
  - eexists. apply list_eq. intros i. destruct (decide (i = h)) as [-> |].
    + rewrite list_lookup_alter_eq, !list_lookup_insert_eq
        by (rewrite ?length_insert; done). reflexivity.
    + rewrite list_lookup_alter_ne, !list_lookup_insert_ne by done. done.
  - subst id. eexists. reflexivity.
Qed.

Lemma alter_as_insert {A} (f : A -> A) (h : nat) (l : list A) (x : A) :
  l !! h = Some x -> alter f h l = <[h := f x]> l.
Proof.
  intros Hx. assert (Hh : (h < length l)%nat) by by eapply lookup_lt_Some.
  apply list_eq. intros i. destruct (decide (i = h)) as [-> |].
  - by rewrite list_lookup_alter_eq, list_lookup_insert_eq, Hx.
  - by rewrite list_lookup_alter_ne, list_lookup_insert_ne.
Qed.

Lemma insert_insert_same {A} (h : nat) (l : list A) (x y : A) :
  <[h := y]> (<[h := x]> l) = <[h := y]> l.
Proof.
  apply list_eq. intros i. destruct (decide (i = h)) as [-> |].
  - destruct (decide (h < length l)%nat).
    + by rewrite !list_lookup_insert_eq by (rewrite ?length_insert; done).
    + by rewrite !list_insert_ge by (rewrite ?length_insert; lia).
  - by rewrite !list_lookup_insert_ne.
Qed.

(** A wrong password that reaches the lockout threshold. *)
Lemma authenticate_lockout username password ip ua mfa w h u :
  find_index (matches_login username) (users (database w)) = Some h ->
  users (database w) !! h = Some u ->
  lock_clear u (clock w) ->
  verify_password password (AuthUser.password_hash u) = inr false ->
  max_login_attempts config <= AuthUser.failed_login_attempts (unlocked u) + 1 ->
  let '(r, w') := auth username password ip ua mfa w in
  r = (false, "Account locked due to multiple failed attempts", None)
  /\ (exists failed now,
        clock w <= failed <= now /\ now <= clock w'
        /\ users (database w')
           = <[h := AuthUser.set_locked_until (Some (now + lockout_duration config))
                      (AuthUser.set_is_locked true
                         (AuthUser.set_last_failed_login (Some failed)
                            (incr_failed (unlocked u))))]>
               (users (database w)))
  /\ sessions (database w') = sessions (database w)
  /\ (exists created,
        audit_logs (database w')
        = audit_logs (database w)
          ++ [audit_row (audit_logs (database w)) (Some (AuthUser.id u))
                "ACCOUNT_LOCKED" "MAX_ATTEMPTS"
                [("attempts", VInt (AuthUser.failed_login_attempts (unlocked u) + 1))]
                ip created]).
Proof.
  intros Hfind Hu Hclear Hpw Hge.
  destruct (unlocked_fields u) as (Hid & Hhash & _).
  unfold authenticate, authenticate_body.
  run. rewrite Hfind. run. pass_lock Hu Hclear. run.
  unfold check_password. run. rewrite Hhash, Hpw. run. cbn [negb]. run.
  rewrite <- Hid.
  destruct (unlocked u) eqn:Hunl; fields.
  rewrite (proj2 (Z.leb_le _ _)) by lia. run. fields.
  cbn. rewrite !list_alter_alter_eq, Hss, Hal.
  rewrite (alter_as_insert _ _ _ _ Hu1), Hus, insert_insert_same. fields.
  split; [done |]. split; [| split; [done | eauto]].
  exists (clock w1), (clock (tick w1)). split; [| split; [| done]].
  - pose proof (clock_tick_le w). pose proof (clock_tick_le w1).
    destruct Hw1 as [-> | ->]; lia.
  - pose proof (clock_tick_le (tick (tick w1))). cbn in *. lia.
Qed.



(** The right password on an account whose email is not verified, when
    verification is required. *)
Lemma authenticate_email_not_verified username password ip ua mfa w h u :
  find_index (matches_login username) (users (database w)) = Some h ->
  users (database w) !! h = Some u ->
  lock_clear u (clock w) ->
  verify_password password (AuthUser.password_hash u) = inr true ->
  AuthUser.is_active u = true ->
  require_email_verification config = true ->
  AuthUser.email_verified u = false ->
  let '(r, w') := auth username password ip ua mfa w in
  r = (false, "Email not verified", None)
  /\ users (database w') = <[h := unlocked u]> (users (database w))
  /\ sessions (database w') = sessions (database w)
  /\ (exists created,
        audit_logs (database w')
        = audit_logs (database w)
          ++ [audit_row (audit_logs (database w)) (Some (AuthUser.id u))
                "LOGIN_FAILED" "EMAIL_NOT_VERIFIED" [] ip created]).
Proof.
  intros Hfind Hu Hclear Hpw Hactive Hreq Hver.
  destruct (unlocked_fields u) as (Hid & Hhash & Hact & Hv & _).
  unfold authenticate, authenticate_body.
  run. rewrite Hfind. run. pass_lock Hu Hclear. run.
  unfold check_password. run. rewrite Hhash, Hpw. run. cbn [negb]. run.
  unfold check_active. run. rewrite Hact, Hactive. cbn [negb]. run.
  unfold check_email_verified. run. rewrite Hv, Hreq, Hver. cbn [negb andb]. run.
  cbn. rewrite Hus, Hss, Hal, Hid. eauto.
Qed.



(** A user with a second factor, the right password and a wrong code. *)
Lemma authenticate_mfa_invalid username password ip ua mfa token w h u :
  find_index (matches_login username) (users (database w)) = Some h ->
  users (database w) !! h = Some u ->
  lock_clear u (clock w) ->
  verify_password password (AuthUser.password_hash u) = inr true ->
  AuthUser.is_active u = true ->
  (require_email_verification config = true -> AuthUser.email_verified u = true) ->
  AuthUser.mfa_enabled u = true ->
  mfa = Some token -> Py.truthy mfa = true ->
  (forall now, MFAManager.verify_token totp_at (AuthUser.mfa_secret u) token now
               = inr false) ->
  let '(r, w') := auth username password ip ua mfa w in
  r = (false, "Invalid MFA token", None)
  /\ users (database w') = <[h := incr_failed (unlocked u)]> (users (database w))
  /\ sessions (database w') = sessions (database w)
  /\ (exists created,
        audit_logs (database w')
        = audit_logs (database w)
          ++ [audit_row (audit_logs (database w)) (Some (AuthUser.id u))
                "LOGIN_FAILED" "INVALID_MFA"
                [("attempts", VInt (AuthUser.failed_login_attempts (unlocked u) + 1))]
                ip created]).
Proof.
  intros Hfind Hu Hclear Hpw Hactive Hemail Hmfa -> Htoken Hcode.
  destruct (unlocked_fields u) as (Hid & Hhash & Hact & Hver & Hen & Hsec & _).
  unfold authenticate, authenticate_body.
  run. rewrite Hfind. run. pass_lock Hu Hclear. run.
  unfold check_password. run. rewrite Hhash, Hpw. run. cbn [negb]. run.
  unfold check_active. run. rewrite Hact, Hactive. cbn [negb]. run.
  unfold check_email_verified. run. rewrite Hver.
  replace (require_email_verification config && negb (AuthUser.email_verified u))
    with false
    by (destruct (require_email_verification config); [rewrite Hemail |]; done).
  run.
  unfold check_mfa. run. rewrite Hen, Hmfa, Htoken. cbn [negb]. run.
  rewrite Hsec. cbn [default]. rewrite Hcode. run. cbn [negb]. run.
  rewrite <- Hid.
  destruct (unlocked u) eqn:Hunl; fields.
  cbn. rewrite Hss, Hal.
  rewrite (alter_as_insert _ _ _ _ Hu1), Hus, insert_insert_same. fields.
  eauto.
Qed.

Lemma find_index_insert {A} (p : A -> bool) (h : nat) (l : list A) (x y : A) :
  l !! h = Some x -> p y = p x ->
  find_index p (<[h := y]> l) = find_index p l.
Proof.
  revert h. induction l as [| a l IH]; intros [| h] Hx Hp; simpl in *; try done.
  - injection Hx as ->. by rewrite Hp.
  - destruct (p a); [done |]. by rewrite (IH h).
Qed.

Lemma unlocked_id u : AuthUser.is_locked u = false -> unlocked u = u.
Proof. unfold unlocked. by intros ->. Qed.

Lemma lock_clear_unlocked u now : AuthUser.is_locked u = false -> lock_clear u now.
Proof. unfold lock_clear. congruence. Qed.

Lemma attempts_below_threshold username wrong ip ua mfa w h u (k : nat) :
  find_index (matches_login username) (users (database w)) = Some h ->
  users (database w) !! h = Some u ->
  AuthUser.is_locked u = false ->
  AuthUser.failed_login_attempts u = 0 ->
  verify_password wrong (AuthUser.password_hash u) = inr false ->
  Z.of_nat k < max_login_attempts config ->
  let wk := attempts k (auth username wrong ip ua mfa) w in
  find_index (matches_login username) (users (database wk)) = Some h
  /\ exists uk,
       users (database wk) !! h = Some uk
       /\ AuthUser.is_locked uk = false
       /\ AuthUser.failed_login_attempts uk = Z.of_nat k
       /\ AuthUser.password_hash uk = AuthUser.password_hash u
       /\ AuthUser.id uk = AuthUser.id u.
Proof.
  intros Hfind Hu Hlocked Hzero Hpw. induction k as [| k IH]; intros Hk wk.
  - cbn in *. eauto 10.
  - destruct IH as (Hfindk & uk & Huk & Hlk & Hfk & Hhk & Hidk); [lia |].
    subst wk. cbn [attempts].
    set (wk := attempts k _ w) in *.
    pose proof (authenticate_wrong_password username wrong ip ua mfa wk h uk
                  Hfindk Huk (lock_clear_unlocked _ _ Hlk)) as Hstep.
    rewrite (unlocked_id uk Hlk), Hhk in Hstep.
    specialize (Hstep Hpw ltac:(lia)).
    destruct (auth username wrong ip ua mfa wk) as [r w'].
    destruct Hstep as (_ & (now & Hus) & _ & _). cbn [snd].
    assert (Hh : (h < length (users (database wk)))%nat) by by eapply lookup_lt_Some.
    rewrite Hus. split.
    + rewrite (find_index_insert _ _ _ uk); [done | done |].
      by destruct uk.
    + eexists. rewrite list_lookup_insert_eq by done. split; [done |].
      destruct uk; fields. repeat split; try done. lia.
Qed.

(** C3: starting from an unlocked account whose failure counter is 0, and
    with [max_login_attempts >= 1], fewer than [max_login_attempts]
    consecutive wrong passwords leave the account unlocked; the attempt
    number [max_login_attempts] answers "Account locked ..." and leaves, in
    the durable store, the row locked with
    [locked_until = now + lockout_duration] for a clock reading [now]
    taken during that call; and while the clock has not reached
    [locked_until], a further call fails whatever password it brings, and
    leaves the row as it is. *)
Theorem lockout_after_max_attempts (username wrong : string)
    (ip ua mfa : option string) (w : World) (h : nat) (u : AuthUser.t) :
  1 <= max_login_attempts config ->
  find_index (matches_login username) (users (database w)) = Some h ->
  users (database w) !! h = Some u ->
  AuthUser.is_locked u = false ->
  AuthUser.failed_login_attempts u = 0 ->
  verify_password wrong (AuthUser.password_hash u) = inr false ->
  let login := auth username wrong ip ua mfa in
  let n := Z.to_nat (max_login_attempts config) in
  (forall k, (k < n)%nat ->
     exists uk, users (database (attempts k login w)) !! h = Some uk
                /\ AuthUser.is_locked uk = false)
  /\ let w1 := attempts (n - 1) login w in
     let '(r, w2) := login w1 in
     r = (false, "Account locked due to multiple failed attempts", None)
     /\ exists u2 now,
          users (database w2) !! h = Some u2
          /\ AuthUser.is_locked u2 = true
          /\ clock w1 <= now <= clock w2
          /\ AuthUser.locked_until u2 = Some (now + lockout_duration config)
          /\ forall password ip' ua' mfa',
               clock w2 < now + lockout_duration config ->
               let '(r', w3) := auth username password ip' ua' mfa' w2 in
               (exists remaining, r' = (false, msg_locked remaining, None))
               /\ users (database w3) = users (database w2).
Proof.
  intros Hmax Hfind Hu Hlocked Hzero Hpw login n. split.
  - intros k Hk.
    destruct (attempts_below_threshold username wrong ip ua mfa w h u k
                Hfind Hu Hlocked Hzero Hpw ltac:(lia))
      as (_ & uk & Huk & Hlk & _).
    eauto.
  - intros w1.
    destruct (attempts_below_threshold username wrong ip ua mfa w h u
                (n - 1) Hfind Hu Hlocked Hzero Hpw ltac:(lia))
      as (Hfind1 & u1 & Hu1 & Hl1 & Hf1 & Hh1 & Hid1).
    fold login in Hfind1, Hu1. fold w1 in Hfind1, Hu1.
    pose proof (authenticate_lockout username wrong ip ua mfa w1 h u1
                  Hfind1 Hu1 (lock_clear_unlocked _ _ Hl1)) as Hstep.
    rewrite (unlocked_id u1 Hl1), Hh1 in Hstep.
    specialize (Hstep Hpw ltac:(lia)). fold login in Hstep.
    destruct (login w1) as [r w2].
    destruct Hstep as (-> & (failed & now & Hfailed & Hnow & Hus) & _ & _).
    split; [done |].
    assert (Hh : (h < length (users (database w1)))%nat) by by eapply lookup_lt_Some.
    eexists _, now. split; [rewrite Hus; by apply list_lookup_insert_eq |].
    split; [by destruct u1 |]. split; [lia |]. split; [by destruct u1 |].
    intros password ip' ua' mfa' Hfuture.
    set (u2 := AuthUser.set_locked_until _ _) in Hus.
    pose proof (authenticate_locked username password ip' ua' mfa' w2 h
                  u2 (now + lockout_duration config)) as Hrej.
    rewrite Hus in Hrej.
    rewrite (find_index_insert _ _ _ u1) in Hrej by (try done; by destruct u1).
    rewrite list_lookup_insert_eq in Hrej by done.
    specialize (Hrej Hfind1 eq_refl ltac:(by destruct u1) ltac:(by destruct u1)
                     Hfuture).
    destruct (auth username password ip' ua' mfa' w2) as [r' w3].
    destruct Hrej as (-> & Hus3 & _). rewrite Hus3, Hus. eauto.
Qed.

Lemma fails_only_check_locked h ip : fails_only (check_locked h ip).
Proof. unfold check_locked. fails_only. Qed.

Lemma fails_only_check_password h password ip :
  fails_only (check_password argon2_verify pwd_context_verify config h password ip).
Proof. unfold check_password. fails_only. Qed.

Lemma fails_only_check_active h ip : fails_only (check_active h ip).
Proof. unfold check_active. fails_only. Qed.

Lemma fails_only_check_email_verified h ip :
  fails_only (check_email_verified config h ip).
Proof. unfold check_email_verified. fails_only. Qed.

Lemma fails_only_check_mfa h mfa ip : fails_only (check_mfa totp_at h mfa ip).
Proof. unfold check_mfa. fails_only. Qed.

Lemma fails_only_check_password_expiry h :
  fails_only (check_password_expiry config h).
Proof. unfold check_password_expiry. fails_only. Qed.

Lemma fails_only_check_concurrent_sessions h :
  fails_only (check_concurrent_sessions config h).
Proof. unfold check_concurrent_sessions. fails_only. Qed.

(** What [create_session] makes durable when it returns. *)
Lemma create_session_outcome h ip ua w st :
  match create_session config private_key public_key h ip ua
          {| world := w; work := st; pending := [] |} with
  | (Return r, e') =>
      exists s t_access t_refresh t_expires,
        sessions (database (world e')) = sessions st ++ [s]
        /\ t_access <= t_refresh <= t_expires
        /\ AuthSession.access_token_expires s
           = Some (t_access + jwt_access_token_expiry config)
        /\ AuthSession.refresh_token_expires s
           = Some (t_refresh + jwt_refresh_token_expiry config)
        /\ AuthSession.expires_at s
           = Some (t_expires + session_absolute_timeout config)
        /\ AuthSession.is_active s = true
  | (Raise _, _) => True
  | (Next a, _) => False
  end.
Proof.
  unfold create_session. run.
  destruct (users st !! h) as [u |] eqn:Hu.
  - unfold generate_access_token, generate_refresh_token. run.
    unfold _cache_session. cbn [AuthSession.expires_at]. run.
    destruct (Py.td_seconds _ =? 0); run; [done |].
    cbn [world database set_database sessions set_sessions
      set_audit_logs set_world set_redis].
    do 4 eexists. split; [reflexivity |].
    cbn [AuthSession.with_defaults inserted
      AuthSession.access_token_expires AuthSession.refresh_token_expires
      AuthSession.expires_at AuthSession.is_active].
    split; [| done]. cbn. lia.
  - rewrite run_read_user_detached by done. done.
Qed.

(** A statement that can only fail, followed by [k]: a success comes
    from [k]. *)
Lemma success_after_fails_only {A} (m : M A) (k : M Empty_set)
    (P : Env -> Prop) :
  fails_only m ->
  (forall e, pending e = [] ->
     match k e with
     | (Return r, e') => r.1.1 = true -> P e'
     | _ => True
     end) ->
  forall e, pending e = [] ->
    match (m ≫= fun _ => k) e with
    | (Return r, e') => r.1.1 = true -> P e'
    | _ => True
    end.
Proof.
  intros Hm Hk e He. rewrite run_bind. specialize (Hm e He).
  destruct (m e) as [[a | r | x] e']; [by apply Hk | | done].
  rewrite Hm. discriminate.
Qed.

(** A success stores a session row whose expiry columns are three clock
    readings, in this order, plus the three configured lifetimes. *)
Lemma success_stores_session (username password : string)
    (ip ua mfa : option string) (w : World) :
  let '(r, w') := auth username password ip ua mfa w in
  r.1.1 = true ->
  exists s access refresh expires,
    last (sessions (database w')) = Some s
    /\ AuthSession.access_token_expires s = Some access
    /\ AuthSession.refresh_token_expires s = Some refresh
    /\ AuthSession.expires_at s = Some expires
    /\ (jwt_access_token_expiry config <= session_absolute_timeout config ->
        access <= expires)
    /\ (jwt_refresh_token_expiry config <= session_absolute_timeout config ->
        refresh <= expires).
Proof.
  set (P := fun e : Env =>
    exists s access refresh expires,
      last (sessions (database (world e))) = Some s
      /\ AuthSession.access_token_expires s = Some access
      /\ AuthSession.refresh_token_expires s = Some refresh
      /\ AuthSession.expires_at s = Some expires
      /\ (jwt_access_token_expiry config <= session_absolute_timeout config ->
          access <= expires)
      /\ (jwt_refresh_token_expiry config <= session_absolute_timeout config ->
          refresh <= expires)).
  assert (Hbody :
    match authenticate_body argon2_verify pwd_context_verify totp_at config
            private_key public_key username password ip ua mfa
            {| world := w; work := database w; pending := [] |} with
    | (Return r, e') => r.1.1 = true -> P e'
    | _ => True
    end).
  { unfold authenticate_body. run.
    destruct (find_index _ _) as [h |]; [| run; discriminate].
    apply success_after_fails_only; [apply fails_only_check_locked | | done].
    apply success_after_fails_only; [apply fails_only_check_password |].
    apply success_after_fails_only; [apply fails_only_check_active |].
    apply success_after_fails_only; [apply fails_only_check_email_verified |].
    apply success_after_fails_only; [apply fails_only_check_mfa |].
    apply success_after_fails_only; [apply fails_only_check_password_expiry |].
    apply success_after_fails_only; [apply fails_only_check_concurrent_sessions |].
    intros [w1 st1 p1] Hp. cbn in Hp. subst p1.
    pose proof (create_session_outcome h ip ua w1 st1) as Hc.
    destruct (create_session _ _ _ _ _ _ _) as [[[] | r | x] e']; [| done].
    intros _. destruct Hc as (s & ta & tr & te & Hs & Ht & Ha & Hr & He & _).
    exists s, (ta + jwt_access_token_expiry config),
      (tr + jwt_refresh_token_expiry config),
      (te + session_absolute_timeout config).
    rewrite Hs, last_snoc. repeat split; try done; lia. }
  unfold authenticate.
  destruct (authenticate_body _ _ _ _ _ _ _ _ _ _ _ _) as [[[] | r | x] e'];
    [exact Hbody | discriminate].
Qed.

Lemma rows_kept_authenticate_body old username password ip ua mfa :
  preserves (rows_kept old)
    (authenticate_body argon2_verify pwd_context_verify totp_at config
       private_key public_key username password ip ua mfa).
Proof.
  unfold authenticate_body, check_locked, check_password, check_active,
    check_email_verified, check_mfa, check_password_expiry,
    check_concurrent_sessions, create_session, generate_access_token,
    generate_refresh_token.
  rows_kept.
Qed.

Lemma authenticate_keeps_rows username password ip ua mfa w :
  keeps_rows (sessions (database w))
    (sessions (database (auth username password ip ua mfa w).2)).
Proof.
  pose proof (rows_kept_authenticate_body (sessions (database w))
                username password ip ua mfa
                {| world := w; work := database w; pending := [] |}) as H.
  unfold authenticate.
  destruct (authenticate_body _ _ _ _ _ _ _ _ _ _ _ _) as [[[] | r | x] e'];
    apply H; split; apply keeps_rows_refl.
Qed.


(** C2, amended: the session row a successful [authenticate] stores has
    [access_token_expires <= expires_at] provided that
    [jwt_access_token_expiry <= session_absolute_timeout], and
    [refresh_token_expires <= expires_at] provided that
    [jwt_refresh_token_expiry <= session_absolute_timeout]; nothing in the
    code clamps a token lifetime to the absolute timeout.  No call of
    [authenticate], successful or not, changes the three expiry columns of
    a row that is already stored, so what holds of a row when it is created
    holds of it from then on. *)
Theorem session_expiry_bounds (username password : string)
    (ip ua mfa : option string) (w : World) :
  let '(r, w') := auth username password ip ua mfa w in
  (r.1.1 = true ->
   exists s access refresh expires,
     last (sessions (database w')) = Some s
     /\ AuthSession.access_token_expires s = Some access
     /\ AuthSession.refresh_token_expires s = Some refresh
     /\ AuthSession.expires_at s = Some expires
     /\ (jwt_access_token_expiry config <= session_absolute_timeout config ->
         access <= expires)
     /\ (jwt_refresh_token_expiry config <= session_absolute_timeout config ->
         refresh <= expires))
  /\ keeps_rows (sessions (database w)) (sessions (database w')).
Proof.
  pose proof (success_stores_session username password ip ua mfa w) as Hnew.
  pose proof (authenticate_keeps_rows username password ip ua mfa w) as Hold.
  destruct (auth username password ip ua mfa w) as [r w']. by split.
Qed.

End Authenticate.

(** ** The documented defaults, evaluated *)

Section Defaults.

Import Fixtures.

(** C2, as stated, fails under the documented defaults (token lifetimes 900
    and 86400 seconds, absolute timeout 43200 seconds): the session a
    successful login stores has its [refresh_token_expires] after its
    [expires_at]. *)
Lemma refresh_outlives_session_default :
  let '(r, w') := login default_config "alice" "correct horse"
                        (Some "10.0.0.1") None None world0 in
  r.1.1 = true
  /\ exists s refresh expires,
       last (sessions (database w')) = Some s
       /\ AuthSession.refresh_token_expires s = Some refresh
       /\ AuthSession.expires_at s = Some expires
       /\ ~ refresh <= expires.
Proof.
  vm_compute. split; [reflexivity |].
  eexists _, 1086403, 1043204. repeat split. intros H. by apply H.
Qed.

Lemma session_expiry_bounds_default :
  let '(r, w') := login default_config "alice" "correct horse"
                        (Some "10.0.0.1") None None world0 in
  r.1.1 = true
  /\ jwt_access_token_expiry default_config <= session_absolute_timeout default_config
  /\ exists s access expires,
       last (sessions (database w')) = Some s
       /\ AuthSession.access_token_expires s = Some access
       /\ AuthSession.expires_at s = Some expires
       /\ access <= expires.
Proof.
  pose proof (session_expiry_bounds argon2_verify pwd_context_verify totp_at
                default_config 1%nat 1%nat "alice" "correct horse"
                (Some "10.0.0.1") None None world0) as H.
  unfold login.
  assert (Hok : (authenticate argon2_verify pwd_context_verify totp_at
                   default_config 1%nat 1%nat "alice" "correct horse"
                   (Some "10.0.0.1") None None world0).1.1.1 = true)
    by (vm_compute; reflexivity).
  destruct (authenticate _ _ _ _ _ _ _ _ _ _ _ _) as [r w'].
  cbn [fst] in Hok.
  assert (Hle : jwt_access_token_expiry default_config
                <= session_absolute_timeout default_config) by (vm_compute; discriminate).
  destruct H as [H _].
  destruct (H Hok) as (s & access & refresh & expires & Hs & Ha & _ & He & Hae & _).
  split; [exact Hok |]. split; [exact Hle |].
  exists s, access, expires. repeat split; try assumption. by apply Hae.
Defined.



(** C4 fails on this input: Alice holds exactly [concurrent_sessions_limit]
    = 3 sessions that are active and unexpired, and one older row that
    expired but is still flagged active.  The login succeeds, the row it
    deactivates is the expired one, the oldest of the three live sessions
    survives, and Alice ends with four live sessions. *)
Theorem eviction_picks_expired_session :
  concurrent_sessions_limit default_config = 3
  /\ live_sessions 1 world_at_limit = ["first"; "second"; "third"]
  /\ let '(r, w') := login default_config "alice" "correct horse"
                           None None None world_at_limit in
     r.1.1 = true
     /\ map (fun s => (AuthSession.session_id s, AuthSession.is_active s))
            (sessions (database w'))
        = [("stale", false); ("first", true); ("second", true); ("third", true);
           ("sid-5", true)]
     /\ live_sessions 1 w' = ["first"; "second"; "third"; "sid-5"].
Proof. vm_compute. done. Qed.

(** C5 fails on this input: Bob, four failures on record and the default
    threshold of five, presents the right password and a wrong one-time
    code.  The counter goes to five and is committed, but the row is not
    locked; a wrong password in the same state locks it. *)
Theorem invalid_mfa_does_not_lock :
  max_login_attempts default_config = 5
  /\ AuthUser.failed_login_attempts bob_four_failures = 4
  /\ (let '(r, w') := login default_config "bob" "battery staple"
                            None None (Some "000000") world_bob_four_failures in
      r = (false, "Invalid MFA token", None)
      /\ map (fun u => (AuthUser.failed_login_attempts u, AuthUser.is_locked u,
                        AuthUser.locked_until u))
             (users (database w'))
         = [(0, false, None); (5, false, None)])
  /\ (let '(r, w') := login default_config "bob" "not the password"
                            None None (Some "000000") world_bob_four_failures in
      r = (false, "Account locked due to multiple failed attempts", None)
      /\ map (fun u => (AuthUser.failed_login_attempts u, AuthUser.is_locked u,
                        AuthUser.locked_until u))
             (users (database w'))
         = [(0, false, None); (5, true, Some 1000901)]).
Proof. vm_compute. done. Qed.

(** C6 fails on this input: Bob presents the right password and no
    one-time code.  The call fails with "MFA token required" and the audit
    table is as it was; the same call with a wrong code writes one row. *)
Theorem mfa_required_writes_no_audit :
  (let '(r, w') := login default_config "bob" "battery staple"
                         (Some "10.0.0.7") None None world0 in
   r = (false, "MFA token required", None)
   /\ audit_logs (database w') = audit_logs (database world0))
  /\ (let '(r, w') := login default_config "bob" "battery staple"
                            (Some "10.0.0.7") None (Some "000000") world0 in
      r = (false, "Invalid MFA token", None)
      /\ map (fun a => (AuthAuditLog.event_type a, AuthAuditLog.event_status a))
             (audit_logs (database w'))
         = [("LOGIN_FAILED", "INVALID_MFA")]).
Proof. vm_compute. done. Qed.


Lemma lockout_after_max_attempts_alice :
  1 <= max_login_attempts default_config
  /\ find_index (matches_login "alice") (users (database world0)) = Some 0%nat
  /\ users (database world0) !! 0%nat = Some alice
  /\ AuthUser.is_locked alice = false
  /\ AuthUser.failed_login_attempts alice = 0
  /\ PasswordManager.verify_password argon2_verify pwd_context_verify "guess"
       (AuthUser.password_hash alice) = inr false
  /\ let attempt := login default_config "alice" "guess" None None None in
     (attempt (attempts 4 attempt world0)).1
     = (false, "Account locked due to multiple failed attempts", None).
Proof.
  assert (Hmax : 1 <= max_login_attempts default_config) by (vm_compute; discriminate).
  split; [exact Hmax |]. split; [reflexivity |]. split; [reflexivity |].
  split; [reflexivity |]. split; [reflexivity |]. split; [reflexivity |].
  intros attempt.
  destruct (lockout_after_max_attempts argon2_verify pwd_context_verify totp_at
              default_config 1%nat 1%nat "alice" "guess" None None None world0
              0%nat alice Hmax eq_refl eq_refl eq_refl eq_refl eq_refl) as [_ H].
  change (Z.to_nat (max_login_attempts default_config) - 1)%nat with 4%nat in H.
  cbv zeta in H. subst attempt. unfold login.
  destruct (authenticate _ _ _ _ _ _ _ _ _ _ _ (attempts 4 _ world0)) as [r w2].
  destruct H as [-> _]. reflexivity.
Defined.

End Defaults.

(** * Further properties *)

(** ** What the password policy accepts *)

Section PasswordPolicy.

Import PasswordManager.

Lemma append_if_nil c msg errors :
  append_if c msg errors = [] <-> c = false /\ errors = [].
Proof.
  unfold append_if. destruct c.
  - split; [| intros [? _]; discriminate].
    intros H. by apply app_eq_nil in H as [_ ?].
  - tauto.
Qed.

Lemma validate_ok_nil cfg password username email :
  (validate_password_strength cfg password username email).1 = true
  <-> (validate_password_strength cfg password username email).2 = [].
Proof.
  unfold validate_password_strength. cbn [fst snd].
  match goal with |- _ <-> ?l = [] => destruct l end; split; done.
Qed.

Lemma truthy_nonempty s : Py.truthy (Some s) = true <-> s <> "".
Proof. destruct s; split; done. Qed.

Lemma require_iff (c found : bool) :
  c && negb found = false <-> (c = true -> found = true).
Proof. destruct c, found; split; try done; intros H; by specialize (H eq_refl). Qed.

(** X1: [validate_password_strength] accepts a password exactly when
    it is at least [password_min_length] characters long, has a character
    of each class the configuration requires, is not, lower-cased, one of
    the five denylisted words, does not contain the lower-cased username or
    the lower-cased part of the e-mail address before the first [@]
    (an absent or empty username or e-mail address is not looked at), and
    has at least five distinct characters. *)
Theorem validate_accepts_iff (cfg : AuthConfig) (password : string)
    (username email : option string) :
  (validate_password_strength cfg password username email).1 = true
  <->
  password_min_length cfg <= Py.len password
  /\ (password_require_uppercase cfg = true -> Py.re_search Py.is_upper password = true)
  /\ (password_require_lowercase cfg = true -> Py.re_search Py.is_lower password = true)
  /\ (password_require_numbers cfg = true -> Py.re_search Py.is_digit password = true)
  /\ (password_require_special cfg = true -> Py.re_search is_special password = true)
  /\ Py.in_list (Py.lower password) common_passwords = false
  /\ (forall u, username = Some u -> u <> "" ->
        Py.contains (Py.lower u) (Py.lower password) = false)
  /\ (forall e, email = Some e -> e <> "" ->
        Py.contains (Py.lower (Py.split_head "@" e)) (Py.lower password) = false)
  /\ 5 <= Py.len_set password.
Proof.
  rewrite validate_ok_nil. unfold validate_password_strength. cbn [snd].
  rewrite append_if_nil, Z.ltb_ge.
  assert (Hu : forall errors,
    match username with
    | Some u => append_if (Py.truthy username
                           && Py.contains (Py.lower u) (Py.lower password))
                          err_username errors
    | None => errors
    end = []
    <-> (forall u, username = Some u -> u <> "" ->
           Py.contains (Py.lower u) (Py.lower password) = false)
        /\ errors = []).
  { intros errors. destruct username as [u |].
    - rewrite append_if_nil. split.
      + intros [Hc ->]. split; [| done]. intros u' [= <-] Hne.
        apply truthy_nonempty in Hne. rewrite Hne in Hc. done.
      + intros [Hc ->]. split; [| done].
        destruct (Py.truthy (Some u)) eqn:Ht; [| done].
        apply truthy_nonempty in Ht. by rewrite (Hc u).
    - split; [intros ->; split; [discriminate | done] | by intros [_ ->]]. }
  assert (He : forall errors,
    match email with
    | Some e =>
        if Py.truthy email then
          append_if (Py.contains (Py.lower (Py.split_head "@" e)) (Py.lower password))
                    err_email errors
        else errors
    | None => errors
    end = []
    <-> (forall e, email = Some e -> e <> "" ->
           Py.contains (Py.lower (Py.split_head "@" e)) (Py.lower password) = false)
        /\ errors = []).
  { intros errors. destruct email as [e |].
    - destruct (Py.truthy (Some e)) eqn:Ht.
      + rewrite append_if_nil. apply truthy_nonempty in Ht. split.
        * intros [Hc ->]. split; [| done]. by intros e' [= <-] _.
        * intros [Hc ->]. split; [| done]. by apply Hc.
      + split; [| by intros [_ ->]]. intros ->. split; [| done].
        intros e' [= <-] Hne. apply truthy_nonempty in Hne. congruence.
    - split; [intros ->; split; [discriminate | done] | by intros [_ ->]]. }
  cbv zeta. rewrite He, Hu, !append_if_nil, !require_iff, Z.ltb_ge.
  tauto.
Qed.

(** X2: an e-mail address that begins with [@] makes
    [validate_password_strength] reject every password, with the finding
    "Password cannot contain email address": the part before the [@] is the
    empty string, which every password contains, and the emptiness test is
    applied to the whole address only. *)
Theorem empty_email_prefix_rejects_everything (cfg : AuthConfig)
    (password domain : string) (username : option string) :
  let r := validate_password_strength cfg password username (Some ("@" +:+ domain)) in
  r.1 = false /\ In err_email r.2.
Proof.
  cbv zeta.
  assert (Hin : In err_email
    (validate_password_strength cfg password username (Some ("@" +:+ domain))).2).
  { change ("@" +:+ domain) with (String "@" domain).
    unfold validate_password_strength. cbn [snd Py.truthy].
    cbn [Py.split_head Ascii.eqb Bool.eqb Py.lower].
    assert (Hc : Py.contains "" (Py.lower password) = true)
      by by destruct (Py.lower password).
    rewrite Hc. rewrite !in_append_if. left. right. done. }
  split; [| exact Hin]. by eapply validate_not_ok.
Qed.

End PasswordPolicy.

(** ** Password history *)

Section PasswordHistoryProperties.

Variable argon2_verify : string -> string -> bool.
Variable pwd_context_verify : string -> string -> string + bool.
Variable config : AuthConfig.

Local Abbreviation verify_password :=
  (PasswordManager.verify_password argon2_verify pwd_context_verify).
Local Abbreviation check_history :=
  (check_password_history argon2_verify pwd_context_verify config).

(** When no verification raises, the loop answers [False] exactly when
    one of the hashes verifies. *)
Lemma scan_history_spec p hashes :
  (forall h, h ∈ hashes -> exists b, verify_password p h = inr b) ->
  exists b, scan_history argon2_verify pwd_context_verify p hashes = inr b
            /\ (b = false <-> exists h, h ∈ hashes /\ verify_password p h = inr true).
Proof.
  induction hashes as [| h hashes IH]; intros Hok.
  - exists true. split; [done |]. split; [done |].
    intros (h & Hh & _). by apply elem_of_nil in Hh.
  - cbn [scan_history].
    destruct (Hok h) as [b Hb]; [by left |]. rewrite Hb.
    destruct b.
    + exists false. split; [done |]. split; [| done].
      intros _. exists h. split; [by left | done].
    + destruct IH as (b & -> & Hiff); [intros h' Hh'; apply Hok; by right |].
      exists b. split; [done |]. rewrite Hiff. split.
      * intros (h' & Hh' & Hv). exists h'. split; [by right | done].
      * intros (h' & Hh' & Hv). apply elem_of_cons in Hh' as [-> | Hh'].
        -- congruence.
        -- by exists h'.
Qed.

Lemma slice_from_last {A} (older recent : list A) :
  recent <> [] ->
  slice_from (- Z.of_nat (length recent)) (older ++ recent) = recent.
Proof.
  intros Hne. unfold slice_from.
  assert (0 < Z.of_nat (length recent)) by (destruct recent; [done | cbn; lia]).
  rewrite (proj2 (Z.ltb_lt _ _)) by lia.
  rewrite length_app.
  replace (Z.to_nat _) with (length older) by lia.
  by rewrite drop_app_length.
Qed.

Lemma slice_from_all {A} (k : Z) (l : list A) :
  k = 0 \/ Z.of_nat (length l) <= k -> slice_from (- k) l = l.
Proof.
  intros Hk. unfold slice_from. destruct (- k <? 0) eqn:Hlt.
  - apply Z.ltb_lt in Hlt. replace (Z.to_nat _) with 0%nat by lia. done.
  - apply Z.ltb_ge in Hlt. replace (Z.to_nat _) with 0%nat by lia. done.
Qed.

(** X3: with a positive [password_history_count],
    [check_password_history] looks at the last [password_history_count]
    hashes of the history and at no older one: when none of these
    verifications raises, the answer is [False] exactly when the new
    password verifies against one of them, whatever the older hashes
    are. *)
Theorem history_window (p : string) (older recent : list string) :
  0 < password_history_count config ->
  Z.of_nat (length recent) = password_history_count config ->
  (forall h, h ∈ recent -> exists b, verify_password p h = inr b) ->
  exists b,
    check_history p (Some (older ++ recent)) = inr b
    /\ (b = false <-> exists h, h ∈ recent /\ verify_password p h = inr true).
Proof.
  intros Hpos Hlen Hok.
  assert (Hne : recent <> []) by (intros ->; cbn in Hlen; lia).
  unfold check_password_history.
  destruct (older ++ recent) as [| x l] eqn:Hl.
  { apply app_eq_nil in Hl as [_ ?]. done. }
  rewrite <- Hl, <- Hlen, slice_from_last by done.
  by apply scan_history_spec.
Qed.

(** X4: when [password_history_count] is zero, the slice
    [password_history[-0:]] is the whole list, so [check_password_history]
    compares the new password with every hash of the history, exactly as it
    does when the history is no longer than the count: when no verification
    raises, the answer is [False] exactly when the password verifies
    against some hash of the history. *)
Theorem history_count_zero_checks_everything (p : string) (history : list string) :
  password_history_count config = 0
  \/ Z.of_nat (length history) <= password_history_count config ->
  (forall h, h ∈ history -> exists b, verify_password p h = inr b) ->
  exists b,
    check_history p (Some history) = inr b
    /\ (b = false <-> exists h, h ∈ history /\ verify_password p h = inr true).
Proof.
  intros Hcount Hok. unfold check_password_history.
  destruct history as [| x l] eqn:Hl.
  { exists true. split; [done |]. split; [done |].
    intros (h & Hh & _). by apply elem_of_nil in Hh. }
  rewrite <- Hl in *. rewrite slice_from_all by done.
  by apply scan_history_spec.
Qed.

End PasswordHistoryProperties.

(** ** One-time codes and backup codes *)

Section TotpProperties.

Variable totp_at : string -> Z -> string.

Lemma totp_verify_window secret token now :
  MFAManager.totp_verify totp_at secret token now 1 = true
  <-> exists i, -1 <= i <= 1 /\ token = totp_at secret (now / 30 + i).
Proof.
  unfold MFAManager.totp_verify.
  change (seqZ (- (1)) (2 * 1 + 1)) with [-1; 0; 1].
  cbn [existsb]. rewrite !orb_true_iff, !String.eqb_eq. split.
  - intros [H | [H | [H | H]]]; [exists (-1) | exists 0 | exists 1 | done];
      (split; [lia | done]).
  - intros (i & Hi & ->).
    assert (i = -1 \/ i = 0 \/ i = 1) as [-> | [-> | ->]] by lia; auto.
Qed.

(** X5: the one-time code of the 30-second step that contains the
    time [t] is accepted by [MFAManager.verify_token] at every time [t']
    at most 30 seconds before or after [t]. *)
Theorem totp_accepts_within_one_step (secret : string) (t t' : Z) :
  - 30 <= t' - t <= 30 ->
  MFAManager.verify_token totp_at (Some secret) (totp_at secret (t / 30)) t'
  = inr true.
Proof.
  intros Ht. unfold MFAManager.verify_token. f_equal.
  apply totp_verify_window. exists (t / 30 - t' / 30). split.
  - Z.to_euclidean_division_equations. lia.
  - f_equal. lia.
Qed.

End TotpProperties.

Section BackupCodes.

Lemma choice_is_digit r : Py.is_digit (choice "0123456789" r) = true.
Proof.
  unfold choice. cbn [String.length].
  assert (Hlt : (r mod 10 < 10)%nat) by (apply Nat.mod_upper_bound; lia).
  destruct (r mod 10)%nat as [| [| [| [| [| [| [| [| [| [| k]]]]]]]]]];
    [reflexivity .. | lia].
Qed.

Lemma backup_codes_spec n draws :
  length (backup_codes n draws).1 = n
  /\ Forall (fun code => is_backup_code code = true) (backup_codes n draws).1.
Proof.
  revert draws. induction n as [| n IH]; intros draws; [by split |].
  cbn [backup_codes random_digits].
  destruct (backup_codes n _) as [codes rest] eqn:Hrec.
  specialize (IH (tl (tl (tl (tl (tl (tl (tl (tl draws))))))))).
  rewrite Hrec in IH. destruct IH as [Hlen Hall]. cbn [fst] in *.
  split; [cbn; by rewrite Hlen |].
  constructor; [| done].
  repeat match goal with
  | |- context [choice ?s ?r] =>
      let H := fresh "Hd" in
      pose proof (choice_is_digit r) as H;
      generalize dependent (choice s r); intros ? H
  end.
  cbv -[Py.is_digit]. by repeat match goal with H : Py.is_digit _ = true |- _ => rewrite H; clear H end.
Qed.

(** X7: [generate_backup_codes(count)] returns [count] codes (none for a
    count below one), each of the shape [dddd-dddd]: four decimal digits, a
    hyphen, four decimal digits, whatever the random source gives. *)
Theorem backup_codes_format (count : Z) (draws : list nat) :
  let codes := (generate_backup_codes count draws).1 in
  length codes = Z.to_nat count
  /\ Forall (fun code => is_backup_code code = true) codes.
Proof. apply backup_codes_spec. Qed.

End BackupCodes.

(** ** Issued tokens *)

Section IssuedTokens.

Import Jwt JWTManager.

Variable int_of_str : string -> option Z.

(** [jwt.decode] on a payload with the registered claims of an issued
    token, check by check. *)
Lemma decode_issued alg payload sig pk algs aud iss t iat exp iss0 aud0 :
  payload !! "iat" = Some (VInt iat) ->
  payload !! "nbf" = Some (VInt iat) ->
  payload !! "exp" = Some (VInt exp) ->
  payload !! "iss" = Some (VStr iss0) ->
  payload !! "aud" = Some (VStr aud0) ->
  decode int_of_str (Jws alg payload sig) pk algs aud iss t
  = if negb (bool_decide (alg ∈ algs)) then inl InvalidAlgorithmError
    else if negb (verify_signature alg payload sig pk) then inl InvalidSignatureError
    else if negb (iat <=? t) then inl ImmatureSignatureError
    else if negb (t <? exp) then inl ExpiredSignatureError
    else if negb (bool_decide (iss0 = iss)) then inl InvalidIssuerError
    else if bool_decide (aud0 = "") then inl (MissingRequiredClaimError "aud")
    else if negb (bool_decide (aud = aud0)) then inl InvalidAudienceError
    else inr payload.
Proof.
  intros Hiat Hnbf Hexp Hiss Haud.
  unfold decode, and_then, validate_time, validate_iss, validate_aud, check,
    int_claim, falsy.
  rewrite Hiat, Hnbf, Hexp, Hiss, Haud. cbn [and_then].
  destruct (bool_decide (alg ∈ algs)); [| reflexivity].
  destruct (verify_signature alg payload sig pk); [| reflexivity].
  destruct (iat <=? t); [| reflexivity].
  destruct (t <? exp); [| reflexivity]. cbn [negb].
  destruct (decide (iss0 = iss)) as [-> | Hne].
  - rewrite (bool_decide_eq_true_2 (VStr iss = VStr iss)),
      (bool_decide_eq_true_2 (iss = iss)) by done. cbn [negb].
    destruct (bool_decide (aud0 = "")); [reflexivity |].
    destruct (bool_decide (aud = aud0)); reflexivity.
  - rewrite (bool_decide_eq_false_2 (iss0 = iss)) by done.
    rewrite bool_decide_eq_false_2 by congruence. reflexivity.
Qed.

Lemma signature_of_encode claims key alg pk :
  verify_signature alg claims
    {| signer := key; signed_alg := alg; signed_payload := claims |} pk
  = bool_decide (pk = key).
Proof.
  unfold verify_signature. apply bool_decide_ext. split; [by intros [= ->] | by intros ->].
Qed.

(** X8: an access token issued by [generate_access_token] at time
    [now] verifies with expected type 'access' at time [t] exactly when the
    manager's public key matches its private key, the configured audience
    is not empty, and [now <= t < now + jwt_access_token_expiry]; then
    [verify_token] returns claims that carry the user's uuid as [sub], the
    username, the session id and the token id, and otherwise it returns
    [None]. *)
Theorem access_token_valid_exactly_in_window (m : JWTManager.t) (user : AuthUser.t)
    (session_id jti : string) (now t : Z) :
  let token := generate_access_token m user session_id now jti in
  let valid := public_key m = private_key m
               /\ jwt_audience (config m) <> ""
               /\ now <= t < now + jwt_access_token_expiry (config m) in
  (valid ->
   exists claims,
     verify_token int_of_str m token "access" t = inr (Some claims)
     /\ claims !! "sub" = Some (VStr (AuthUser.uuid user))
     /\ claims !! "username" = Some (VStr (AuthUser.username user))
     /\ claims !! "session_id" = Some (VStr session_id)
     /\ claims !! "jti" = Some (VStr jti))
  /\ (~ valid -> verify_token int_of_str m token "access" t = inr None).
Proof.
  cbv zeta. unfold verify_token, generate_access_token, encode.
  erewrite decode_issued; [| reflexivity ..].
  rewrite bool_decide_eq_true_2 by set_solver. rewrite signature_of_encode.
  cbn [negb andb String.eqb Ascii.eqb Bool.eqb].
  split.
  - intros (Hkey & Haud & Hlo & Hhi).
    rewrite (bool_decide_eq_true_2 _ Hkey), (proj2 (Z.leb_le _ _) Hlo),
      (proj2 (Z.ltb_lt _ _) Hhi), (bool_decide_eq_false_2 _ Haud),
      !bool_decide_eq_true_2 by done.
    cbn [negb]. eexists. split; [reflexivity |]. repeat split; reflexivity.
  - intros Hnot.
    destruct (bool_decide (public_key m = private_key m)) eqn:Hkey; [| done].
    destruct (now <=? t) eqn:Hlo; [| done].
    destruct (t <? now + jwt_access_token_expiry (config m)) eqn:Hhi; [| done].
    rewrite !bool_decide_eq_true_2 by done. cbn [negb].
    destruct (bool_decide (jwt_audience (config m) = "")) eqn:Haud; [done |].
    exfalso. apply Hnot.
    apply bool_decide_eq_true_1 in Hkey. apply bool_decide_eq_false_1 in Haud.
    apply Z.leb_le in Hlo. apply Z.ltb_lt in Hhi. done.
Qed.

(** X9: a token issued by a manager, of either kind, is rejected
    by [verify_token] of any manager whose configured issuer, audience or
    algorithm differs, whatever its keys, the expected type and the
    time. *)
Theorem tokens_bound_to_issuer_and_audience (m m' : JWTManager.t) (user : AuthUser.t)
    (session_id jti token_type : string) (now t : Z) (token : Token) :
  token = generate_access_token m user session_id now jti
  \/ token = generate_refresh_token m user session_id now jti ->
  jwt_issuer (config m') <> jwt_issuer (config m)
  \/ jwt_audience (config m') <> jwt_audience (config m)
  \/ jwt_algorithm (config m') <> jwt_algorithm (config m) ->
  verify_token int_of_str m' token token_type t = inr None.
Proof.
  intros Htoken Hdiff.
  assert (Hd : exists e,
    decode int_of_str token (public_key m') [jwt_algorithm (config m')]
           (jwt_audience (config m')) (jwt_issuer (config m')) t = inl e
    /\ is_invalid_token_error e = true).
  { destruct Htoken as [-> | ->];
      unfold generate_access_token, generate_refresh_token, encode;
      (erewrite decode_issued; [| reflexivity ..]);
      (destruct (bool_decide (_ ∈ _)) eqn:Halg; cbn [negb];
         [| eexists; split; reflexivity]);
      (destruct (verify_signature _ _ _ _); cbn [negb];
         [| eexists; split; reflexivity]);
      (destruct (now <=? t); cbn [negb]; [| eexists; split; reflexivity]);
      (destruct (t <? _); cbn [negb]; [| eexists; split; reflexivity]);
      (destruct (bool_decide (jwt_issuer (config m) = _)) eqn:Hiss; cbn [negb];
         [| eexists; split; reflexivity]);
      (destruct (bool_decide (jwt_audience (config m) = "")); cbn [negb];
         [eexists; split; reflexivity |]);
      (destruct (bool_decide (_ = jwt_audience (config m))) eqn:Haud; cbn [negb];
         [| eexists; split; reflexivity]);
      exfalso;
      apply bool_decide_eq_true_1 in Halg, Hiss, Haud;
      apply list_elem_of_singleton in Halg;
      destruct Hdiff as [? | [? | ?]]; congruence. }
  destruct Hd as (e & He & Hinv).
  unfold verify_token. rewrite He.
  destruct (is_expired_error e); [done |]. by rewrite Hinv.
Qed.

(** X10: the [permissions] claim of an access token lists, without
    repetition, exactly the strings [resource:action] of the permissions of
    the user's roles. *)
Theorem permissions_claim (m : JWTManager.t) (user : AuthUser.t)
    (session_id jti : string) (now : Z) :
  match generate_access_token m user session_id now jti with
  | Jws _ payload _ =>
      exists l,
        payload !! "permissions" = Some (VList l)
        /\ NoDup l
        /\ forall x, x ∈ l <->
             exists role perm,
               role ∈ AuthUser.roles user
               /\ perm ∈ AuthRole.permissions role
               /\ x = AuthPermission.resource perm +:+ ":" +:+ AuthPermission.action perm
  | Garbage _ => False
  end.
Proof.
  unfold generate_access_token, encode.
  exists (remove_dups (permission_strings user)).
  split; [apply lookup_insert_eq |]. split; [apply NoDup_remove_dups |].
  intros x. rewrite elem_of_remove_dups. unfold permission_strings.
  rewrite list_elem_of_In, in_flat_map. split.
  - intros (role & Hrole & Hx). apply in_map_iff in Hx as (perm & <- & Hperm).
    exists role, perm. by rewrite !list_elem_of_In.
  - intros (role & perm & Hrole & Hperm & ->).
    exists role. rewrite <- list_elem_of_In. split; [done |].
    apply in_map_iff. exists perm. by rewrite <- list_elem_of_In.
Qed.

End IssuedTokens.

(** ** The checks in front of the session *)

Section KeepsAccount.

Lemma same_account_refl u : same_account u u.
Proof. by repeat split. Qed.

Lemma same_account_trans u1 u2 u3 :
  same_account u1 u2 -> same_account u2 u3 -> same_account u1 u3.
Proof.
  unfold same_account. intros H12 H23.
  destruct H12 as (? & ? & ? & ? & ? & ? & ? & ? & ? & ? & ?).
  destruct H23 as (? & ? & ? & ? & ? & ? & ? & ? & ? & ? & ?).
  repeat split; congruence.
Qed.

Lemma keeps_account_id : keeps_account id.
Proof. intros u. apply same_account_refl. Qed.

Lemma keeps_account_compose f g :
  keeps_account f -> keeps_account g -> keeps_account (f ∘ g).
Proof. intros Hf Hg u. eapply same_account_trans; [apply Hg | apply Hf]. Qed.

Lemma keeps_set_must_change_password v :
  keeps_account (AuthUser.set_must_change_password v).
Proof. intros []. by repeat split. Qed.

Lemma keeps_set_is_locked v : keeps_account (AuthUser.set_is_locked v).
Proof. intros []. by repeat split. Qed.

Lemma keeps_set_locked_until v : keeps_account (AuthUser.set_locked_until v).
Proof. intros []. by repeat split. Qed.

Lemma keeps_set_failed_login_attempts v :
  keeps_account (AuthUser.set_failed_login_attempts v).
Proof. intros []. by repeat split. Qed.

Lemma keeps_set_last_failed_login v :
  keeps_account (AuthUser.set_last_failed_login v).
Proof. intros []. by repeat split. Qed.

Lemma keeps_set_last_login v : keeps_account (AuthUser.set_last_login v).
Proof. intros []. by repeat split. Qed.

Lemma keeps_set_last_login_ip v : keeps_account (AuthUser.set_last_login_ip v).
Proof. intros []. by repeat split. Qed.

Lemma keeps_incr_failed : keeps_account incr_failed.
Proof. intros []. by repeat split. Qed.

End KeepsAccount.

Create HintDb keeps_account.
#[export] Hint Resolve keeps_account_id keeps_account_compose
  keeps_set_must_change_password keeps_set_is_locked keeps_set_locked_until
  keeps_set_failed_login_attempts keeps_set_last_failed_login keeps_set_last_login
  keeps_set_last_login_ip keeps_incr_failed : keeps_account.

Ltac store_fields :=
  cbn [fst snd world work pending database redis entropy clock ticks
       users sessions audit_logs set_users set_sessions set_audit_logs
       set_database set_redis tick draw] in *.

(** The user table of the goal as one update of the durable one. *)
Ltac one_update Hus :=
  rewrite ?Hus; rewrite ?list_alter_alter_eq;
  first [ eexists; split; [| reflexivity]; solve [auto 10 with keeps_account]
        | exists id; split; [apply keeps_account_id | by rewrite list_alter_id] ].

Ltac untouched :=
  unfold untouched; store_fields; repeat split; try done; lia.

Ltac synced Hus :=
  unfold synced; store_fields;
  split; [done |]; split; [done |]; split; [done |]; one_update Hus.

Ltac failed_step Hss Hal Hus :=
  unfold failed_step; store_fields;
  split; [done |]; split; [done |]; split; [reflexivity |];
  split; [done |]; split; [done |]; split; [lia |];
  split; [by rewrite ?Hss |];
  split; [rewrite ?Hal;
          first [ exists []; split; [by rewrite app_nil_r | cbn; lia]
                | eexists [_]; split; [reflexivity | cbn; lia] ]
         | one_update Hus ].

Ltac gate_leaf Hss Hal Hus :=
  lazymatch goal with
  | |- synced _ _ /\ untouched _ _ => split; [synced Hus | untouched]
  | |- failed_step _ _ _ _ => failed_step Hss Hal Hus
  | |- untouched _ _ => untouched
  end.

Section Gates.

Variable argon2_verify : string -> string -> bool.
Variable pwd_context_verify : string -> string -> string + bool.
Variable totp_at : string -> Z -> string.
Variable config : AuthConfig.
Variable private_key public_key : nat.

Lemma gate_bind h {A B} (m : M A) (k : A -> M B) :
  gate h m -> (forall a, gate h (k a)) -> gate h (m ≫= k).
Proof.
  intros Hm Hk e He. rewrite run_bind. specialize (Hm e He).
  destruct (m e) as [[a | r | x] e1]; [| done | done].
  destruct Hm as [He1 (Hdb & Hrd & Hen & Hck)].
  specialize (Hk a e1 He1).
  destruct (k a e1) as [[b | r | x] e2].
  - destruct Hk as [He2 (Hdb2 & Hrd2 & Hen2 & Hck2)].
    split; [done |]. unfold untouched. rewrite Hdb2, Hrd2, Hen2. repeat split; try done. lia.
  - destruct Hk as (? & ? & ? & Hrd2 & Hen2 & Hck2 & Hs2 & Ha2 & Hu2).
    unfold failed_step. rewrite <- Hdb, <- Hrd, <- Hen.
    repeat split; try done. lia.
  - destruct Hk as (Hdb2 & Hrd2 & Hen2 & Hck2).
    unfold untouched. rewrite Hdb2, Hrd2, Hen2. repeat split; try done. lia.
Qed.

Lemma gate_check_active h ip : gate h (check_active h ip).
Proof.
  intros [w st p] (Hp & Hss & Hal & g & Hg & Hus). store_fields. subst p.
  unfold check_active.
  destruct (users st !! h) as [u |] eqn:Hu;
    [| rewrite run_bind, run_read_user_detached by done; gate_leaf Hss Hal Hus].
  run. destruct (AuthUser.is_active u); cbn [negb]; run; gate_leaf Hss Hal Hus.
Qed.

Lemma gate_check_email_verified h ip : gate h (check_email_verified config h ip).
Proof.
  intros [w st p] (Hp & Hss & Hal & g & Hg & Hus). store_fields. subst p.
  unfold check_email_verified.
  destruct (users st !! h) as [u |] eqn:Hu;
    [| rewrite run_bind, run_read_user_detached by done; gate_leaf Hss Hal Hus].
  run. destruct (require_email_verification config && negb (AuthUser.email_verified u));
    run; gate_leaf Hss Hal Hus.
Qed.

Lemma gate_check_locked h ip : gate h (check_locked h ip).
Proof.
  intros [w st p] (Hp & Hss & Hal & g & Hg & Hus). store_fields. subst p.
  unfold check_locked.
  destruct (users st !! h) as [u |] eqn:Hu;
    [| rewrite run_bind, run_read_user_detached by done; gate_leaf Hss Hal Hus].
  run. destruct (AuthUser.is_locked u); run; [| gate_leaf Hss Hal Hus].
  destruct (AuthUser.locked_until u) as [t |]; run; [| gate_leaf Hss Hal Hus].
  destruct (clock w <? t); run; gate_leaf Hss Hal Hus.
Qed.

Lemma gate_check_password h password ip :
  gate h (check_password argon2_verify pwd_context_verify config h password ip).
Proof.
  intros [w st p] (Hp & Hss & Hal & g & Hg & Hus). store_fields. subst p.
  unfold check_password.
  destruct (users st !! h) as [u |] eqn:Hu;
    [| rewrite run_bind, run_read_user_detached by done; gate_leaf Hss Hal Hus].
  run.
  destruct (PasswordManager.verify_password _ _ _ _) as [x | []];
    run; cbn [negb]; run; [gate_leaf Hss Hal Hus | gate_leaf Hss Hal Hus |].
  destruct (max_login_attempts config <=? _); run; gate_leaf Hss Hal Hus.
Qed.

Lemma gate_check_mfa h mfa ip : gate h (check_mfa totp_at h mfa ip).
Proof.
  intros [w st p] (Hp & Hss & Hal & g & Hg & Hus). store_fields. subst p.
  unfold check_mfa.
  destruct (users st !! h) as [u |] eqn:Hu;
    [| rewrite run_bind, run_read_user_detached by done; gate_leaf Hss Hal Hus].
  run. destruct (AuthUser.mfa_enabled u); run; [| gate_leaf Hss Hal Hus].
  destruct (Py.truthy mfa); cbn [negb]; run; [| gate_leaf Hss Hal Hus].
  destruct (MFAManager.verify_token _ _ _ _) as [x | []];
    run; cbn [negb]; run; gate_leaf Hss Hal Hus.
Qed.

Lemma gate_check_password_expiry h : gate h (check_password_expiry config h).
Proof.
  intros [w st p] (Hp & Hss & Hal & g & Hg & Hus). store_fields. subst p.
  unfold check_password_expiry.
  destruct (0 <? password_expiry_days config); run; [| gate_leaf Hss Hal Hus].
  destruct (users st !! h) as [u |] eqn:Hu;
    [| rewrite run_read_user_detached by done; gate_leaf Hss Hal Hus].
  run. destruct (AuthUser.password_changed_at u) as [changed |]; run;
    [| gate_leaf Hss Hal Hus].
  destruct (password_expiry_days config <? _); run; gate_leaf Hss Hal Hus.
Qed.

End Gates.

Section SessionCreated.

Variable config : AuthConfig.
Variable private_key public_key : nat.

Lemma run_read_session w st p h s :
  sessions st !! h = Some s ->
  read_session h {| world := w; work := st; pending := p |}
  = (Next s, {| world := w; work := st; pending := p |}).
Proof.
  intros Hs. unfold read_session. rewrite run_bind, run_get. cbn. by rewrite Hs.
Qed.

Lemma find_index_lookup {A} (p : A -> bool) (l : list A) (h : nat) :
  find_index p l = Some h -> exists x, l !! h = Some x /\ p x = true.
Proof.
  revert h. induction l as [| y l IH]; intros h Hf; [done |].
  cbn in Hf. destruct (p y) eqn:Hy.
  - injection Hf as <-. by exists y.
  - destruct (find_index p l) as [i |]; [| done].
    injection Hf as <-. by apply IH.
Qed.

(** "Check concurrent sessions" falls through. *)
Lemma check_concurrent_sessions_outcome h w st u :
  users st !! h = Some u ->
  exists w2 st2,
    check_concurrent_sessions config h {| world := w; work := st; pending := [] |}
    = (Next tt, {| world := w2; work := st2; pending := [] |})
    /\ users st2 = users st
    /\ audit_logs st2 = audit_logs st
    /\ database w2 = database w
    /\ entropy w2 = entropy w
    /\ clock w <= clock w2
    /\ evicted config (AuthUser.id u) (clock w) (sessions st) (redis w)
               (sessions st2) (redis w2).
Proof.
  intros Hu. unfold check_concurrent_sessions. run.
  destruct (concurrent_sessions_limit config <=? _) eqn:Hlimit.
  - run. destruct (oldest_from _ _ _ _) as [o |] eqn:Hold.
    + destruct (oldest_from_flagged _ _ _ Hold) as (so & Hso & Hcand & Hmin).
      run. erewrite run_read_session
        by (cbn [sessions set_sessions]; rewrite list_lookup_alter_eq, Hso; reflexivity).
      run. do 2 eexists. split; [reflexivity |]. store_fields.
      repeat split; try done; [lia |].
      right. exists o, so. apply Z.leb_le in Hlimit.
      repeat split; try done. by destruct so.
    + run. do 2 eexists. split; [reflexivity |]. store_fields.
      repeat split; try done; [lia |]. by left.
  - run. do 2 eexists. split; [reflexivity |]. store_fields.
    repeat split; try done; [lia |]. by left.
Qed.

(** "Create session" and what follows it: a success, unless the cache
    refuses the entry. *)
Lemma create_session_outcome_full h ip ua w st u :
  users st !! h = Some u ->
  match create_session config private_key public_key h ip ua
          {| world := w; work := st; pending := [] |} with
  | (Return r, e') =>
      exists data,
        r = (true, "Authentication successful", Some data)
        /\ session_created config (jwt_manager config private_key public_key)
             h ip ua u w st data (world e')
  | (Raise x, e') => x = setex_refused /\ cache_refused config h ip u w st (world e')
  | (Next a, _) => False
  end.
Proof.
  intros Hu. unfold create_session. run.
  unfold generate_access_token, generate_refresh_token. run.
  unfold _cache_session. cbn [AuthSession.expires_at]. run.
  destruct (Py.td_seconds _ =? 0) eqn:Httl; run.
  - apply Z.eqb_eq in Httl. split; [reflexivity |].
    unfold cache_refused. store_fields.
    cbn [inserted AuthSession.with_defaults AuthSession.session_id AuthSession.user_id
         AuthSession.expires_at AuthSession.ip_address].
    rewrite !list_alter_alter_eq.
    eexists _, _, _, _.
    split; [| split; [| split; [| split; [| split; [exact Httl |]]]]].
    5: { repeat (split; [reflexivity |]). reflexivity. }
    all: store_fields; lia.
  - eexists. split; [reflexivity |].
    unfold session_created. store_fields.
    cbn [inserted AuthSession.with_defaults AuthSession.session_id AuthSession.user_id
         AuthSession.expires_at AuthSession.ip_address].
    rewrite !list_alter_alter_eq.
    destruct u; fields.
    do 12 eexists. cbv zeta.
    split; [| split; [| split; [| split; [| split; [| split]]]]].
    2: reflexivity.
    2: reflexivity.
    2: reflexivity.
    2: reflexivity.
    2: reflexivity.
    2: reflexivity.
    store_fields. lia.
Qed.

End SessionCreated.

Section LoginOutcome.

Variable argon2_verify : string -> string -> bool.
Variable pwd_context_verify : string -> string -> string + bool.
Variable totp_at : string -> Z -> string.
Variable config : AuthConfig.
Variable private_key public_key : nat.

Local Abbreviation auth :=
  (authenticate argon2_verify pwd_context_verify totp_at config private_key public_key).
Local Abbreviation jm := (jwt_manager config private_key public_key).
Local Abbreviation outcome := (login_outcome config jm).

Lemma untouched_refl e : untouched e e.
Proof. unfold untouched. repeat split; try done; lia. Qed.

Lemma untouched_trans e1 e2 e3 : untouched e1 e2 -> untouched e2 e3 -> untouched e1 e3.
Proof.
  intros (Hd & Hr & He & Hc) (Hd' & Hr' & He' & Hc').
  unfold untouched. rewrite Hd', Hr', He'. repeat split; try done; lia.
Qed.

Lemma failed_step_after h e e1 r e' :
  untouched e e1 -> failed_step h e1 r e' -> failed_step h e r e'.
Proof.
  intros (Hd & Hr & He & Hc) Hf. unfold failed_step in *.
  rewrite <- Hd, <- Hr, <- He.
  destruct Hf as (? & ? & ? & ? & ? & ? & ? & ? & ?). repeat split; try done; lia.
Qed.

Lemma outcome_after h ip ua e e1 ce :
  untouched e e1 -> outcome h ip ua e1 ce -> outcome h ip ua e ce.
Proof.
  intros Hun. destruct ce as [[[] | r | x] e']; cbn [login_outcome].
  - intros [Hf | (e2 & u2 & w2 & st2 & data & Hs & Hun2 & Hrest)].
    + left. by eapply failed_step_after.
    + right. exists e2, u2, w2, st2, data. split; [done |].
      split; [by eapply untouched_trans | done].
  - intros [Hx | (-> & e2 & u2 & w2 & st2 & Hs & Hun2 & Hrest)].
    + left. by eapply untouched_trans.
    + right. split; [done |]. exists e2, u2, w2, st2. split; [done |].
      split; [by eapply untouched_trans | done].
Qed.

Lemma gate_then h ip ua {A} (m : M A) (k : A -> M Empty_set) :
  gate h m ->
  (forall a e1, synced h e1 -> valid_handle h e1 -> outcome h ip ua e1 (k a e1)) ->
  forall e, synced h e -> valid_handle h e -> outcome h ip ua e ((m ≫= k) e).
Proof.
  intros Hm Hk e He Hv. rewrite run_bind. specialize (Hm e He).
  destruct (m e) as [[a | r | x] e1]; [| by left | by left].
  destruct Hm as [He1 Hun].
  eapply outcome_after; [exact Hun |]. apply Hk; [done |].
  unfold valid_handle. by rewrite (proj1 Hun).
Qed.

(** From a synced state with a valid handle, the concurrent-session check
    and the creation of the session end in a success, or in the refusal
    of the cache after the commit. *)
Lemma session_ends h ip ua e1 :
  synced h e1 -> valid_handle h e1 ->
  match (check_concurrent_sessions config h
           ≫= fun _ => create_session config private_key public_key h ip ua) e1 with
  | (Return r, e') => succeeded config jm h ip ua e1 r e'
  | (Raise x, e') => x = setex_refused /\ refused_after_commit config h ip e1 e'
  | (Next a, _) => False
  end.
Proof.
  intros Hs Hv. pose proof Hs as (Hp & Hss & Hal & g & Hg & Hus).
  destruct e1 as [w st p]. unfold valid_handle in Hv. store_fields. subst p.
  apply lookup_lt_is_Some_2 in Hv as [u0 Hu0].
  assert (Hu : users st !! h = Some (g u0))
    by (by rewrite Hus, list_lookup_alter_eq, Hu0).
  destruct (check_concurrent_sessions_outcome config h w st _ Hu)
    as (w2 & st2 & Hrun & Hus2 & Hal2 & Hdb2 & Hen2 & Hck2 & Hev).
  rewrite run_bind, Hrun.
  assert (Hu2 : users st2 !! h = Some (g u0)) by by rewrite Hus2.
  pose proof (create_session_outcome_full config private_key public_key h ip ua
                w2 st2 _ Hu2) as Hc.
  destruct (create_session _ _ _ _ _ _ _) as [[[] | r | x] e'].
  - destruct Hc as (data & -> & Hcreated).
    exists {| world := w; work := st; pending := [] |}, (g u0), w2, st2, data.
    split; [done |]. split; [apply untouched_refl |]. by repeat split.
  - destruct Hc as (-> & Hrefused). split; [done |].
    exists {| world := w; work := st; pending := [] |}, (g u0), w2, st2.
    split; [done |]. split; [apply untouched_refl |]. by repeat split.
Qed.

Lemma session_outcome h ip ua e1 :
  synced h e1 -> valid_handle h e1 ->
  outcome h ip ua e1
    ((check_concurrent_sessions config h
        ≫= fun _ => create_session config private_key public_key h ip ua) e1).
Proof.
  intros Hs Hv. pose proof (session_ends h ip ua e1 Hs Hv) as H.
  match type of H with
  | match ?ce with _ => _ end => destruct ce as [[[] | r | x] e']
  end; cbn [login_outcome]; by right.
Qed.

Lemma body_outcome username password ip ua mfa w h :
  find_index (matches_login username) (users (database w)) = Some h ->
  let e0 := {| world := w; work := database w; pending := [] |} in
  outcome h ip ua e0
    (authenticate_body argon2_verify pwd_context_verify totp_at config
       private_key public_key username password ip ua mfa e0).
Proof.
  intros Hfind e0. unfold authenticate_body. subst e0. run. rewrite Hfind.
  assert (Hs : synced h {| world := w; work := database w; pending := [] |}).
  { unfold synced. store_fields. repeat split; try done.
    exists id. split; [apply keeps_account_id | by rewrite list_alter_id]. }
  assert (Hv : valid_handle h {| world := w; work := database w; pending := [] |}).
  { apply find_index_lookup in Hfind as (u & Hu & _).
    unfold valid_handle. store_fields. by eapply lookup_lt_Some. }
  revert Hs Hv. generalize {| world := w; work := database w; pending := [] |}.
  apply gate_then; [apply gate_check_locked | intros _].
  apply gate_then; [apply gate_check_password | intros _].
  apply gate_then; [apply gate_check_active | intros _].
  apply gate_then; [apply gate_check_email_verified | intros _].
  apply gate_then; [apply gate_check_mfa | intros _].
  apply gate_then; [apply gate_check_password_expiry | intros _].
  apply session_outcome.
Qed.

End LoginOutcome.

(** ** The clock of a request never passes the horizon *)

Lemma horizon_tick w : horizon (tick w) = horizon w.
Proof.
  unfold horizon, tick. cbn [clock ticks].
  destruct (ticks w) as [| n l]; cbn [hd tl foldr]; lia.
Qed.


Section HorizonKept.

Variable c : Z.

Lemma horizon_pure {A} (m : M A) :
  (forall e, world (m e).2 = world e) -> preserves (horizon_is c) m.
Proof. intros Hm e He. unfold horizon_is in *. by rewrite Hm. Qed.

Lemma horizon_ret {A} (a : A) : preserves (horizon_is c) (mret (M:=M) a).
Proof. by apply horizon_pure. Qed.

Lemma horizon_pass : preserves (horizon_is c) pass.
Proof. by apply horizon_pure. Qed.

Lemma horizon_throw {A} (x : string) :
  preserves (horizon_is c) (mthrow (M:=M) (A:=A) x).
Proof. by apply horizon_pure. Qed.

Lemma horizon_call {A} (r : string + A) : preserves (horizon_is c) (call r).
Proof. apply horizon_pure. by destruct r. Qed.

Lemma horizon_return {A} r : preserves (horizon_is c) (return_ (A:=A) r).
Proof. by apply horizon_pure. Qed.

Lemma horizon_get : preserves (horizon_is c) get.
Proof. by apply horizon_pure. Qed.

Lemma horizon_utcnow : preserves (horizon_is c) utcnow.
Proof.
  intros [w st p] He. unfold horizon_is in *. cbn in *.
  by rewrite <- He, <- (horizon_tick w).
Qed.

Lemma horizon_random_string : preserves (horizon_is c) random_string.
Proof. by intros [w st p] He. Qed.

Lemma horizon_read_user h : preserves (horizon_is c) (read_user h).
Proof.
  apply horizon_pure. intros [w st p]. unfold read_user.
  rewrite run_bind, run_get. cbn. by destruct (users st !! h).
Qed.

Lemma horizon_write_user h f : preserves (horizon_is c) (write_user h f).
Proof. by apply horizon_pure. Qed.

Lemma horizon_read_session h : preserves (horizon_is c) (read_session h).
Proof.
  apply horizon_pure. intros [w st p]. unfold read_session.
  rewrite run_bind, run_get. cbn. by destruct (sessions st !! h).
Qed.

Lemma horizon_write_session h f : preserves (horizon_is c) (write_session h f).
Proof. by apply horizon_pure. Qed.

Lemma horizon_db_add s : preserves (horizon_is c) (db_add s).
Proof. by apply horizon_pure. Qed.

Lemma horizon_insert_session s : preserves (horizon_is c) (insert_session s).
Proof.
  intros [w st p] He. unfold horizon_is in *. cbn in *.
  by rewrite <- He, <- (horizon_tick w), <- (horizon_tick (tick w)).
Qed.

Lemma horizon_flush l : preserves (horizon_is c) (flush l).
Proof.
  induction l as [| s l IH]; [apply horizon_pass |].
  cbn [flush]. apply preserves_bind; [apply horizon_insert_session | done].
Qed.

Lemma horizon_db_commit : preserves (horizon_is c) db_commit.
Proof.
  intros e He. rewrite db_commit_state.
  pose proof (horizon_flush (pending e) e He) as H.
  unfold horizon_is in *. cbn. exact H.
Qed.

Lemma horizon_log_audit uid ty status details ip :
  preserves (horizon_is c) (_log_audit uid ty status details ip).
Proof.
  unfold _log_audit.
  apply preserves_bind; [by apply horizon_pure | intros e0].
  apply preserves_bind; [apply horizon_utcnow | intros created].
  apply preserves_bind; [by apply horizon_pure | intros _].
  apply horizon_db_commit.
Qed.

Lemma horizon_count_active_sessions uid now :
  preserves (horizon_is c) (count_active_sessions uid now).
Proof. by apply horizon_pure. Qed.

Lemma horizon_query_oldest_session uid :
  preserves (horizon_is c) (query_oldest_session uid).
Proof. by apply horizon_pure. Qed.

Lemma horizon_invalidate_session_cache sid :
  preserves (horizon_is c) (_invalidate_session_cache sid).
Proof. by intros [w st p] He. Qed.

Lemma horizon_cache_session s : preserves (horizon_is c) (_cache_session s).
Proof.
  unfold _cache_session. destruct (AuthSession.expires_at s); [| apply horizon_throw].
  apply preserves_bind; [apply horizon_utcnow | intros now].
  cbv zeta. destruct (_ =? 0); [apply horizon_throw | by intros [w st p] He].
Qed.

End HorizonKept.

Create HintDb horizon.
#[export] Hint Resolve horizon_ret horizon_pass horizon_throw horizon_call
  horizon_return horizon_get horizon_utcnow horizon_random_string horizon_read_user
  horizon_write_user horizon_read_session horizon_write_session
  horizon_db_add horizon_db_commit horizon_log_audit
  horizon_count_active_sessions horizon_query_oldest_session
  horizon_invalidate_session_cache horizon_cache_session : horizon.

Ltac horizon :=
  repeat first
    [ solve [auto with horizon]
    | match goal with
      | |- preserves _ (if ?c then _ else _) => destruct c
      | |- preserves _ (match ?x with _ => _ end) => destruct x
      | |- preserves _ (let _ := _ in _) => cbv zeta
      end
    | apply preserves_bind; [| intros ?] ].

Section HorizonOfLogin.

Variable argon2_verify : string -> string -> bool.
Variable pwd_context_verify : string -> string -> string + bool.
Variable totp_at : string -> Z -> string.
Variable config : AuthConfig.
Variable private_key public_key : nat.




(** Wherever the [try] block of [authenticate] stops, the horizon is where
    it was. *)
Lemma horizon_authenticate_body c username password ip ua mfa :
  preserves (horizon_is c)
    (authenticate_body argon2_verify pwd_context_verify totp_at config
       private_key public_key username password ip ua mfa).
Proof.
  unfold authenticate_body, check_locked, check_password, check_active,
    check_email_verified, check_mfa, check_password_expiry,
    check_concurrent_sessions, create_session, generate_access_token,
    generate_refresh_token, query_user.
  horizon.
Qed.

(** No call of [authenticate] takes the clock beyond the horizon. *)
Lemma authenticate_within_horizon username password ip ua mfa w :
  horizon (authenticate argon2_verify pwd_context_verify totp_at config
             private_key public_key username password ip ua mfa w).2
  = horizon w.
Proof.
  pose proof (horizon_authenticate_body (horizon w) username password ip ua mfa
                {| world := w; work := database w; pending := [] |} eq_refl) as H.
  unfold horizon_is in H. unfold authenticate.
  destruct (authenticate_body _ _ _ _ _ _ _ _ _ _ _ _) as [[[] | r | x] e1];
    exact H.
Qed.

End HorizonOfLogin.

Ltac open_succeeded Hs :=
  let e1 := fresh "e1" in
  destruct Hs as (e1 & u1 & w2 & st2 & data & Hsync & Hun & Hu1 & Hus2 & Hal2 & Hdb2
                  & Hen2 & Hck2 & Hev & Hr & Hc);
  destruct Hsync as (Hp1 & Hss1 & Hal1 & g & Hg & Hus1);
  destruct Hun as (Hdb1 & Hrd1 & Hen1 & Hck1);
  destruct Hc as (issued & refreshed & t_access & t_refresh & t_expires & t_login
                  & created & last_activity & t_cache & t_audit & jti_a & jti_r & Hc);
  cbv zeta in Hc;
  destruct Hc as (Htimes & Hdata & Hsessions & Husers & Haudit & Hredis & Hentropy);
  destruct Htimes as (Ht0 & Ht1 & Ht2 & Ht3 & Ht4 & Ht5 & Ht6 & Ht7 & Ht8 & Ht9 & Ht10);
  destruct e1 as [w1 st1 p1];
  store_fields.

Ltac open_refused Hr :=
  let e1 := fresh "e1" in
  destruct Hr as (e1 & u1 & w2 & st2 & Hsync & Hun & Hu1 & Hus2 & Hal2 & Hdb2
                  & Hen2 & Hck2 & Hev & Hc);
  destruct Hsync as (Hp1 & Hss1 & Hal1 & g & Hg & Hus1);
  destruct Hun as (Hdb1 & Hrd1 & Hen1 & Hck1);
  destruct Hc as (t_expires & t_login & t_cache & s & Ht0 & Ht1 & Ht2 & Ht3 & Httl
                  & Hsessions & Hsid & Huid & Hexp & Hact & Husers & Haudit
                  & Hredis & Hentropy);
  destruct e1 as [w1 st1 p1];
  store_fields.

Section LoginProperties.

Variable argon2_verify : string -> string -> bool.
Variable pwd_context_verify : string -> string -> string + bool.
Variable totp_at : string -> Z -> string.
Variable config : AuthConfig.
Variable private_key public_key : nat.

Local Abbreviation auth :=
  (authenticate argon2_verify pwd_context_verify totp_at config private_key public_key).
Local Abbreviation jm := (jwt_manager config private_key public_key).

(** The ways a call of [authenticate] ends when the identifier matches the
    row [h]: in the [except] branch, before any write has become durable
    or after the commit of the session, with a failure, or with a
    success. *)
Lemma authenticate_cases username password ip ua mfa w h :
  find_index (matches_login username) (users (database w)) = Some h ->
  let e0 := {| world := w; work := database w; pending := [] |} in
  let '(r, w') := auth username password ip ua mfa w in
  let e' := {| world := w'; work := database w'; pending := [] |} in
  (exists x, r = (false, "Authentication failed: " +:+ x, None)
             /\ (untouched e0 e'
                 \/ (x = setex_refused /\ refused_after_commit config h ip e0 e')))
  \/ failed_step h e0 r e'
  \/ succeeded config jm h ip ua e0 r e'.
Proof.
  intros Hfind e0.
  pose proof (body_outcome argon2_verify pwd_context_verify totp_at config
                private_key public_key username password ip ua mfa w h Hfind) as H.
  cbv zeta in H. unfold authenticate. fold e0 in H |- *.
  destruct (authenticate_body _ _ _ _ _ _ _ _ _ _ _ _) as [[[] | r | x] e1];
    cbn [login_outcome] in H.
  - destruct H as [H | H]; [right; left | right; right]; exact H.
  - left. exists x. split; [done |].
    destruct H as [H | [Hx H]]; [left | right; split; [done |]]; exact H.
Qed.

(** The identifier matches no row. *)
Lemma authenticate_no_match username password ip ua mfa w :
  find_index (matches_login username) (users (database w)) = None ->
  let '(r, w') := auth username password ip ua mfa w in
  r = (false, "Invalid credentials", None)
  /\ users (database w') = users (database w)
  /\ sessions (database w') = sessions (database w)
  /\ (exists a, audit_logs (database w') = audit_logs (database w) ++ [a])
  /\ redis w' = redis w
  /\ entropy w' = entropy w.
Proof.
  intros Hfind. unfold authenticate, authenticate_body.
  run. rewrite Hfind. run. store_fields.
  split; [done |]. split; [done |]. split; [done |].
  split; [eexists; reflexivity |]. done.
Qed.

Lemma alter_frame (f : AuthUser.t -> AuthUser.t) h (l l' : list AuthUser.t) :
  keeps_account f -> l' = alter f h l ->
  length l' = length l
  /\ forall i u, l !! i = Some u ->
       exists u', l' !! i = Some u' /\ same_account u u' /\ (i <> h -> u' = u).
Proof.
  intros Hf ->. split; [apply length_alter |].
  intros i u Hu. destruct (decide (i = h)) as [-> | Hne].
  - exists (f u). rewrite list_lookup_alter_eq, Hu.
    split; [done |]. split; [apply Hf | by intros []].
  - exists u. rewrite list_lookup_alter_ne by done.
    split; [done |]. split; [apply same_account_refl | done].
Qed.

Lemma succeeded_users h ip ua e r e' :
  succeeded config jm h ip ua e r e' ->
  exists f, keeps_account f
            /\ users (database (world e')) = alter f h (users (database (world e))).
Proof.
  intros (e1 & u1 & w2 & st2 & data & Hs & Hun & Hu1 & Hus2 & _ & _ & _ & _ & _ & _ & Hc).
  destruct Hs as (_ & _ & _ & g & Hg & Hus).
  destruct Hc as (? & ? & ? & ? & ? & t_login & ? & ? & ? & ? & ? & ? & Hc).
  cbv zeta in Hc. destruct Hc as (_ & _ & _ & Husers & _).
  rewrite Husers, Hus2, Hus, (proj1 Hun), list_alter_alter_eq.
  eexists. split; [| reflexivity].
  apply keeps_account_compose; [| done].
  unfold login_update. intros []. by repeat split.
Qed.

Lemma refused_users h ip e e' :
  refused_after_commit config h ip e e' ->
  exists f, keeps_account f
            /\ users (database (world e')) = alter f h (users (database (world e))).
Proof.
  intros (e1 & u1 & w2 & st2 & Hs & Hun & Hu1 & Hus2 & _ & _ & _ & _ & _ & Hc).
  destruct Hs as (_ & _ & _ & g & Hg & Hus).
  destruct Hc as (? & t_login & ? & ? & _ & _ & _ & _ & _ & _ & _ & _ & _ & _
                  & Husers & _).
  rewrite Husers, Hus2, Hus, (proj1 Hun), list_alter_alter_eq.
  eexists. split; [| reflexivity].
  apply keeps_account_compose; [| done].
  unfold login_update. intros []. by repeat split.
Qed.

(** The user rows after a call: all in place, the same accounts, and
    untouched but for the row the query returned. *)
Lemma authenticate_users_frame (username password : string)
    (ip ua mfa : option string) (w : World) :
  let '(r, w') := auth username password ip ua mfa w in
  length (users (database w')) = length (users (database w))
  /\ forall i u, users (database w) !! i = Some u ->
       exists u', users (database w') !! i = Some u'
                  /\ same_account u u'
                  /\ (find_index (matches_login username) (users (database w)) <> Some i ->
                      u' = u).
Proof.
  destruct (find_index (matches_login username) (users (database w))) as [h |] eqn:Hfind.
  - pose proof (authenticate_cases username password ip ua mfa w h Hfind) as H.
    cbv zeta in H. destruct (auth username password ip ua mfa w) as [r w'].
    assert (Hf : exists f, keeps_account f
                           /\ users (database w') = alter f h (users (database w))).
    { destruct H as [(x & _ & [Hun | [_ Hr]]) | [Hf | Hs]].
      - destruct Hun as (Hdb & _). store_fields. rewrite Hdb.
        exists id. split; [apply keeps_account_id | by rewrite list_alter_id].
      - by apply refused_users in Hr.
      - by destruct Hf as (_ & _ & _ & _ & _ & _ & _ & _ & Hf).
      - by apply succeeded_users in Hs. }
    destruct Hf as (f & Hf & Hus).
    destruct (alter_frame f h _ _ Hf Hus) as [Hlen Hrows].
    split; [done |]. intros i u Hu.
    destruct (Hrows i u Hu) as (u' & Hu' & Hsame & Hother).
    exists u'. split; [done |]. split; [done |].
    intros Hne. apply Hother. congruence.
  - pose proof (authenticate_no_match username password ip ua mfa w Hfind) as H.
    destruct (auth username password ip ua mfa w) as [r w'].
    destruct H as (_ & Hus & _). rewrite Hus. split; [done |].
    intros i u Hu. exists u. split; [done |]. split; [apply same_account_refl | done].
Qed.


(** X11: whatever the outcome, [authenticate] leaves the number of
    user rows as it was, changes at most one row, and changes no row that
    the identifier does not match, neither through its username nor
    through its e-mail address; every row is still the same account: it
    keeps its [id], [uuid], [username], [email], [password_hash],
    [mfa_secret], [mfa_enabled], [email_verified], [password_changed_at],
    [is_active] and its roles. *)
Theorem authenticate_touches_one_account (username password : string)
    (ip ua mfa : option string) (w : World) :
  let '(r, w') := auth username password ip ua mfa w in
  length (users (database w')) = length (users (database w))
  /\ (forall i u, users (database w) !! i = Some u ->
        exists u', users (database w') !! i = Some u'
                   /\ same_account u u'
                   /\ (matches_login username u = false -> u' = u))
  /\ exists h : nat,
       forall i u, users (database w) !! i = Some u -> i <> h ->
         users (database w') !! i = Some u.
Proof.
  pose proof (authenticate_users_frame username password ip ua mfa w) as H.
  destruct (auth username password ip ua mfa w) as [r w'].
  destruct H as [Hlen Hrows]. split; [done |]. split.
  - intros i u Hu. destruct (Hrows i u Hu) as (u' & Hu' & Hsame & Hother).
    exists u'. split; [done |]. split; [done |].
    intros Hno. apply Hother. intros Hfind.
    apply find_index_lookup in Hfind as (u2 & Hu2 & Hm). congruence.
  - exists (default 0%nat
              (find_index (matches_login username) (users (database w)))).
    intros i u Hu Hne. destruct (Hrows i u Hu) as (u' & Hu' & _ & Hother).
    rewrite Hu'. f_equal. apply Hother. intros Hfind. by rewrite Hfind in Hne.
Qed.

(** X12: whatever the outcome, [authenticate] leaves the stored
    audit rows as they are and appends at most one row; a success appends
    exactly one, of type LOGIN_SUCCESS and status SUCCESS, with the id of
    the user, the caller's IP address and the id of the new session. *)
Theorem authenticate_audit_append_only (username password : string)
    (ip ua mfa : option string) (w : World) :
  let '(r, w') := auth username password ip ua mfa w in
  exists extra,
    audit_logs (database w') = audit_logs (database w) ++ extra
    /\ (length extra <= 1)%nat
    /\ (r.1.1 = true ->
        exists a h u s,
          extra = [a]
          /\ find_index (matches_login username) (users (database w)) = Some h
          /\ users (database w) !! h = Some u
          /\ last (sessions (database w')) = Some s
          /\ AuthAuditLog.user_id a = Some (AuthUser.id u)
          /\ AuthAuditLog.event_type a = "LOGIN_SUCCESS"
          /\ AuthAuditLog.event_status a = "SUCCESS"
          /\ AuthAuditLog.ip_address a = ip
          /\ AuthAuditLog.details a
             = Some [("session_id", VStr (AuthSession.session_id s))]).
Proof.
  destruct (find_index (matches_login username) (users (database w))) as [h |] eqn:Hfind.
  - pose proof (authenticate_cases username password ip ua mfa w h Hfind) as H.
    cbv zeta in H. destruct (auth username password ip ua mfa w) as [r w'].
    destruct H as [(x & -> & [Hun | [_ Hr]]) | [Hf | Hs]].
    + destruct Hun as (Hdb & _). store_fields. rewrite Hdb.
      exists []. rewrite app_nil_r. split; [done |]. split; [cbn; lia | done].
    + open_refused Hr. rewrite Haudit, Hal2, Hal1, Hdb1.
      exists []. rewrite app_nil_r. split; [done |]. split; [cbn; lia | done].
    + destruct Hf as (Hr & _ & _ & _ & _ & _ & _ & (extra & Hal & Hlen) & _).
      store_fields. exists extra. split; [done |]. split; [done |]. congruence.
    + open_succeeded Hs. subst r.
      apply find_index_lookup in Hfind as Hu0. destruct Hu0 as (u0 & Hu0 & _).
      assert (Hu1' : u1 = g u0).
      { rewrite Hus1, Hdb1, list_lookup_alter_eq, Hu0 in Hu1. by injection Hu1. }
      destruct (Hg u0) as (Hid & _). rewrite <- Hu1' in Hid.
      eexists [_]. rewrite Haudit, Hal2, Hal1, Hdb1.
      split; [reflexivity |]. split; [cbn; lia |]. intros _.
      eexists _, h, u0, _. rewrite Hsessions, last_snoc.
      split; [reflexivity |]. split; [done |]. split; [done |]. split; [reflexivity |].
      cbn. rewrite Hid. by repeat split.
  - pose proof (authenticate_no_match username password ip ua mfa w Hfind) as H.
    destruct (auth username password ip ua mfa w) as [r w'].
    destruct H as (-> & _ & _ & (a & Ha) & _).
    exists [a]. split; [done |]. split; [cbn; lia | done].
Qed.

Lemma except_message x :
  Py.starts_with "Authentication failed" ("Authentication failed: " +:+ x) = true.
Proof. reflexivity. Qed.

(** X13: a call of [authenticate] that one of its checks refuses, that
    is, a call that does not succeed and whose message is not the
    "Authentication failed" of the [except] branch, hands back no data,
    leaves the session table and the session cache as they were, and takes
    nothing from the random source. *)
Theorem refused_login_leaves_sessions (username password : string)
    (ip ua mfa : option string) (w : World) :
  let '(r, w') := auth username password ip ua mfa w in
  r.1.1 = false ->
  Py.starts_with "Authentication failed" r.1.2 = false ->
  r.2 = None
  /\ sessions (database w') = sessions (database w)
  /\ redis w' = redis w
  /\ entropy w' = entropy w.
Proof.
  destruct (find_index (matches_login username) (users (database w))) as [h |] eqn:Hfind.
  - pose proof (authenticate_cases username password ip ua mfa w h Hfind) as H.
    cbv zeta in H. destruct (auth username password ip ua mfa w) as [r w'].
    intros Hfail Hmsg. destruct H as [(x & -> & _) | [Hf | Hs]].
    + cbn [fst snd] in Hmsg. by rewrite except_message in Hmsg.
    + destruct Hf as (_ & ? & _ & ? & ? & _ & ? & _). by store_fields.
    + destruct Hs as (? & ? & ? & ? & ? & _ & _ & _ & _ & _ & _ & _ & _ & _ & -> & _).
      done.
  - pose proof (authenticate_no_match username password ip ua mfa w Hfind) as H.
    destruct (auth username password ip ua mfa w) as [r w'].
    by destruct H as (-> & _ & ? & _ & ? & ?).
Qed.


(** X6: when the password context cannot make sense of the stored
    hash and raises, [authenticate] answers "Authentication failed: "
    followed by the text of the exception, and nothing has been written:
    no audit row, no failed attempt on the counter, no lock; the cache and
    the random source are untouched as well. *)
Theorem verification_error_changes_nothing (username password : string)
    (ip ua mfa : option string) (w : World) (h : nat) (u : AuthUser.t)
    (x : string) :
  find_index (matches_login username) (users (database w)) = Some h ->
  users (database w) !! h = Some u ->
  lock_clear u (clock w) ->
  PasswordManager.verify_password argon2_verify pwd_context_verify password
    (AuthUser.password_hash u) = inl x ->
  let '(r, w') := auth username password ip ua mfa w in
  r = (false, "Authentication failed: " +:+ x, None)
  /\ database w' = database w
  /\ redis w' = redis w
  /\ entropy w' = entropy w.
Proof.
  intros Hfind Hu Hclear Hpw.
  unfold authenticate, authenticate_body. run. rewrite Hfind.
  destruct (run_check_locked_pass w (database w) h u ip Hu Hclear)
    as (w1 & st1 & Hrun & _ & Hu1 & _ & _ & Hdb1 & Hrd1 & Hen1 & _).
  rewrite run_bind, Hrun. clear Hrun.
  destruct (unlocked_fields u) as (_ & Hhash & _).
  unfold check_password. run. rewrite Hhash, Hpw. run.
  by store_fields.
Qed.

(** A success comes from a matching row. *)
Lemma success_cases username password ip ua mfa w :
  let '(r, w') := auth username password ip ua mfa w in
  r.1.1 = true ->
  exists h u0,
    find_index (matches_login username) (users (database w)) = Some h
    /\ users (database w) !! h = Some u0
    /\ succeeded config jm h ip ua {| world := w; work := database w; pending := [] |}
         r {| world := w'; work := database w'; pending := [] |}.
Proof.
  destruct (find_index (matches_login username) (users (database w))) as [h |] eqn:Hfind.
  - pose proof (authenticate_cases username password ip ua mfa w h Hfind) as H.
    cbv zeta in H. destruct (auth username password ip ua mfa w) as [r w'].
    intros Hok. apply find_index_lookup in Hfind as Hu0. destruct Hu0 as (u0 & Hu0 & _).
    exists h, u0. split; [done |]. split; [done |].
    destruct H as [(x & -> & _) | [Hf | Hs]]; [done | | done].
    destruct Hf as (Hr & _). congruence.
  - pose proof (authenticate_no_match username password ip ua mfa w Hfind) as H.
    destruct (auth username password ip ua mfa w) as [r w'].
    by destruct H as (-> & _).
Qed.

(** X15: a successful [authenticate] stores, as the last row of the
    session table, an active session whose id is the next string of the
    random source, whose user is the one the data names, whose tokens are
    the two tokens handed to the caller and whose IP address and user agent
    are the caller's; the session is cached under its id with its user,
    expiry and IP address, and [expires_in] is the configured access-token
    lifetime. *)
Theorem success_stores_what_it_returns (username password : string)
    (ip ua mfa : option string) (w : World) :
  let '(r, w') := auth username password ip ua mfa w in
  r.1.1 = true ->
  exists data s ttl,
    r = (true, "Authentication successful", Some data)
    /\ last (sessions (database w')) = Some s
    /\ AuthSession.session_id s = hd "" (entropy w)
    /\ AuthSession.user_id s = ld_user_id data
    /\ AuthSession.access_token s = Some (ld_access_token data)
    /\ AuthSession.refresh_token s = Some (ld_refresh_token data)
    /\ AuthSession.ip_address s = ip
    /\ AuthSession.user_agent s = ua
    /\ AuthSession.is_active s = true
    /\ ld_expires_in data = jwt_access_token_expiry config
    /\ redis w' !! cache_key (AuthSession.session_id s)
       = Some (ttl, {| cached_user_id := ld_user_id data;
                       cached_expires_at := AuthSession.expires_at s;
                       cached_ip_address := ip |}).
Proof.
  pose proof (success_cases username password ip ua mfa w) as H.
  destruct (auth username password ip ua mfa w) as [r w'].
  intros Hok. destruct (H Hok) as (h & u0 & Hfind & Hu0 & Hs). clear H.
  open_succeeded Hs. subst r.
  eexists data, _, _. split; [reflexivity |].
  rewrite Hsessions, last_snoc. split; [reflexivity |].
  rewrite Hredis. cbn [AuthSession.session_id AuthSession.user_id
    AuthSession.access_token AuthSession.refresh_token AuthSession.ip_address
    AuthSession.user_agent AuthSession.is_active AuthSession.expires_at].
  rewrite lookup_insert_eq. rewrite Hen2, Hen1.
  rewrite Hdata. cbn [ld_user_id ld_expires_in]. by repeat split.
Qed.

(** X16: a successful [authenticate] leaves the row of the user it
    found with [failed_login_attempts] zero, [last_login] a clock reading
    taken during the call and [last_login_ip] the caller's address, and the
    data it hands back name that user: id, username, e-mail address, role
    names, and the row's [must_change_password] flag. *)
Theorem success_records_the_login (username password : string)
    (ip ua mfa : option string) (w : World) :
  let '(r, w') := auth username password ip ua mfa w in
  r.1.1 = true ->
  exists h u u' t data,
    find_index (matches_login username) (users (database w)) = Some h
    /\ users (database w) !! h = Some u
    /\ users (database w') !! h = Some u'
    /\ same_account u u'
    /\ AuthUser.failed_login_attempts u' = 0
    /\ AuthUser.last_login u' = Some t
    /\ clock w <= t <= clock w'
    /\ AuthUser.last_login_ip u' = ip
    /\ r.2 = Some data
    /\ ld_user_id data = AuthUser.id u
    /\ ld_username data = AuthUser.username u
    /\ ld_email data = AuthUser.email u
    /\ ld_roles data = map AuthRole.name (AuthUser.roles u)
    /\ ld_must_change_password data = AuthUser.must_change_password u'.
Proof.
  pose proof (success_cases username password ip ua mfa w) as H.
  destruct (auth username password ip ua mfa w) as [r w'].
  intros Hok. destruct (H Hok) as (h & u0 & Hfind & Hu0 & Hs). clear H.
  open_succeeded Hs. subst r.
  assert (Hu1' : u1 = g u0).
  { rewrite Hus1, Hdb1, list_lookup_alter_eq, Hu0 in Hu1. by injection Hu1. }
  pose proof (Hg u0) as Hsame. rewrite <- Hu1' in Hsame.
  exists h, u0, (login_update ip t_login u1), t_login, data.
  split; [done |]. split; [done |].
  split; [by rewrite Husers, Hus2, list_lookup_alter_eq, Hu1 |].
  destruct Hsame as (? & ? & ? & ? & ? & ? & ? & ? & ? & ? & ?).
  rewrite Hdata. cbn [ld_user_id ld_username ld_email ld_roles ld_must_change_password].
  unfold login_update. destruct u1. fields.
  repeat split; try done; try lia. congruence.
Qed.

(** What "Check concurrent sessions" and the INSERT of the new session
    make of the stored session rows. *)
Lemma evicted_rows uid now (ss ss2 ss' : list AuthSession.t)
    (rd rd2 : gmap string (Z * CachedSession)) (snew : AuthSession.t) :
  evicted config uid now ss rd ss2 rd2 ->
  ss' = ss2 ++ [snew] ->
  exists changed : option nat,
    (forall i s, ss !! i = Some s ->
       ss' !! i
       = Some (if bool_decide (changed = Some i)
               then AuthSession.set_is_active false s else s))
    /\ forall o, changed = Some o ->
         exists so,
           ss !! o = Some so
           /\ AuthSession.user_id so = uid
           /\ AuthSession.is_active so = true
           /\ concurrent_sessions_limit config
              <= Z.of_nat (length (List.filter (is_live uid now) ss))
           /\ forall j s', ss !! j = Some s' ->
                AuthSession.user_id s' = uid ->
                AuthSession.is_active s' = true ->
                AuthSession.created_at so <= AuthSession.created_at s'.
Proof.
  intros Hev ->.
  destruct Hev as [[Hss2 Hrd2] | (o & so & Hlim & Hso & Hcand & Hmin & Hss2 & Hrd2)].
  - exists None. split; [| done]. intros i s Hs.
    rewrite Hss2, bool_decide_eq_false_2 by done.
    by apply lookup_app_l_Some.
  - exists (Some o). split.
    + intros i s Hs. rewrite Hss2.
      apply lookup_app_l_Some.
      destruct (decide (i = o)) as [-> | Hne].
      * rewrite bool_decide_eq_true_2 by done.
        by rewrite list_lookup_alter_eq, Hs.
      * rewrite bool_decide_eq_false_2 by congruence.
        by rewrite list_lookup_alter_ne.
    + intros o' [= <-].
      unfold is_candidate in Hcand. apply andb_true_iff in Hcand as [Huid Hact].
      apply Z.eqb_eq in Huid.
      exists so. split; [done |]. split; [done |]. split; [done |].
      split; [done |].
      intros j s' Hs' Huid' Hact'. apply (Hmin j s' Hs').
      unfold is_candidate. by rewrite Huid', Z.eqb_refl, Hact'.
Qed.

(** X17: a call of [authenticate] changes at most one stored session
    row, and only by clearing its [is_active] flag.  It does so only when
    the user's active, unexpired sessions number at least
    [concurrent_sessions_limit] at a clock reading of the call; the row is
    one of that user's rows flagged active, with the least [created_at]
    among them. *)
Theorem login_evicts_at_most_one (username password : string)
    (ip ua mfa : option string) (w : World) :
  let '(r, w') := auth username password ip ua mfa w in
  exists changed : option nat,
    (forall i s, sessions (database w) !! i = Some s ->
       sessions (database w') !! i
       = Some (if bool_decide (changed = Some i)
               then AuthSession.set_is_active false s else s))
    /\ forall o, changed = Some o ->
         exists h u so now,
           find_index (matches_login username) (users (database w)) = Some h
           /\ users (database w) !! h = Some u
           /\ sessions (database w) !! o = Some so
           /\ AuthSession.user_id so = AuthUser.id u
           /\ AuthSession.is_active so = true
           /\ clock w <= now <= clock w'
           /\ concurrent_sessions_limit config
              <= Z.of_nat (length (List.filter (is_live (AuthUser.id u) now)
                                               (sessions (database w))))
           /\ forall j s', sessions (database w) !! j = Some s' ->
                AuthSession.user_id s' = AuthUser.id u ->
                AuthSession.is_active s' = true ->
                AuthSession.created_at so <= AuthSession.created_at s'.
Proof.
  assert (Hsame : forall w' : World,
            sessions (database w') = sessions (database w) ->
            forall i s, sessions (database w) !! i = Some s ->
              sessions (database w') !! i
              = Some (if bool_decide (None = Some i)
                      then AuthSession.set_is_active false s else s)).
  { intros w' Hss i s Hs. by rewrite Hss, bool_decide_eq_false_2. }
  destruct (find_index (matches_login username) (users (database w))) as [h |] eqn:Hfind.
  2: { pose proof (authenticate_no_match username password ip ua mfa w Hfind) as H.
       destruct (auth username password ip ua mfa w) as [r w'].
       destruct H as (_ & _ & Hss & _). exists None. split; [by apply Hsame | done]. }
  pose proof (authenticate_cases username password ip ua mfa w h Hfind) as H.
  cbv zeta in H. destruct (auth username password ip ua mfa w) as [r w'].
  apply find_index_lookup in Hfind as Hu0. destruct Hu0 as (u0 & Hu0 & _).
  assert (Hrows : forall w1 (ss2 : list AuthSession.t) rd1 rd2 snew,
            clock w <= clock w1 <= clock w' ->
            evicted config (AuthUser.id u0) (clock w1) (sessions (database w)) rd1
                    ss2 rd2 ->
            sessions (database w') = ss2 ++ [snew] ->
            exists changed : option nat,
              (forall i s, sessions (database w) !! i = Some s ->
                 sessions (database w') !! i
                 = Some (if bool_decide (changed = Some i)
                         then AuthSession.set_is_active false s else s))
              /\ forall o, changed = Some o ->
                   exists h' u so now,
                     Some h = Some h'
                     /\ users (database w) !! h' = Some u
                     /\ sessions (database w) !! o = Some so
                     /\ AuthSession.user_id so = AuthUser.id u
                     /\ AuthSession.is_active so = true
                     /\ clock w <= now <= clock w'
                     /\ concurrent_sessions_limit config
                        <= Z.of_nat (length (List.filter (is_live (AuthUser.id u) now)
                                                         (sessions (database w))))
                     /\ forall j s', sessions (database w) !! j = Some s' ->
                          AuthSession.user_id s' = AuthUser.id u ->
                          AuthSession.is_active s' = true ->
                          AuthSession.created_at so <= AuthSession.created_at s').
  { intros w1 ss2 rd1 rd2 snew Hck Hev Hss.
    destruct (evicted_rows _ _ _ _ _ _ _ snew Hev Hss) as (changed & Hrows & Hwhy).
    exists changed. split; [done |]. intros o Ho.
    destruct (Hwhy o Ho) as (so & ? & ? & ? & ? & ?).
    exists h, u0, so, (clock w1). repeat split; try done; lia. }
  destruct H as [(x & _ & [Hun | [_ Hr]]) | [Hf | Hs]].
  - destruct Hun as (Hdb & _). store_fields.
    exists None. split; [apply Hsame; by rewrite Hdb | done].
  - open_refused Hr.
    assert (Hu1' : u1 = g u0).
    { rewrite Hus1, Hdb1, list_lookup_alter_eq, Hu0 in Hu1. by injection Hu1. }
    destruct (Hg u0) as (Hid & _). rewrite <- Hu1' in Hid.
    rewrite Hss1, Hdb1, Hid in Hev.
    eapply (Hrows w1); [| exact Hev | exact Hsessions]. lia.
  - destruct Hf as (_ & _ & _ & _ & _ & _ & Hss & _). store_fields.
    exists None. split; [by apply Hsame | done].
  - open_succeeded Hs. subst r.
    assert (Hu1' : u1 = g u0).
    { rewrite Hus1, Hdb1, list_lookup_alter_eq, Hu0 in Hu1. by injection Hu1. }
    destruct (Hg u0) as (Hid & _). rewrite <- Hu1' in Hid.
    rewrite Hss1, Hdb1, Hid in Hev.
    eapply (Hrows w1); [| exact Hev | exact Hsessions]. lia.
Qed.


(** *** Credentials that pass every check *)









End LoginProperties.

(** ** Properties of [register_user] *)

Section RegisterUser.

Variable argon2_hash : string -> string -> string.
Variable config : AuthConfig.

Local Abbreviation register := (register_user argon2_hash config).
Local Abbreviation validate :=
  (PasswordManager.validate_password_strength config).

Lemma find_index_none {A} (p : A -> bool) (l : list A) :
  find_index p l = None -> forall x, x ∈ l -> p x = false.
Proof.
  induction l as [| y l IH]; intros Hf x Hx; [by apply elem_of_nil in Hx |].
  cbn in Hf. destruct (p y) eqn:Hy; [done |].
  destruct (find_index p l); [done |].
  apply elem_of_cons in Hx as [-> | Hx]; [done | by apply IH].
Qed.

(** The row a registration inserts and the token that goes with it. *)
Lemma register_user_success roles username email password w :
  find_index (is_existing username email) (users (database w)) = None ->
  (validate password (Some username) (Some email)).1 = true ->
  exists uuid changed created w',
    let user := {|
      AuthUser.id := Z.of_nat (length (users (database w))) + 1;
      AuthUser.uuid := uuid;
      AuthUser.username := username;
      AuthUser.email := email;
      AuthUser.password_hash := argon2_hash password (hd "" (entropy w));
      AuthUser.mfa_secret := None;
      AuthUser.mfa_enabled := false;
      AuthUser.email_verified := negb (require_email_verification config);
      AuthUser.password_changed_at := Some changed;
      AuthUser.must_change_password := false;
      AuthUser.is_active := true;
      AuthUser.is_locked := false;
      AuthUser.locked_until := None;
      AuthUser.failed_login_attempts := 0;
      AuthUser.last_failed_login := None;
      AuthUser.last_login := None;
      AuthUser.last_login_ip := None;
      AuthUser.roles :=
        match List.find (fun r => String.eqb (AuthRole.name r) "user") roles with
        | Some r => [r]
        | None => []
        end
    |} in
    let token := if require_email_verification config
                 then Some (hd "" (tl (entropy w))) else None in
    register roles username email password w
    = (Next (true, "Registration successful",
             Some {| registered_row := user; email_verification_token := token |}),
       w')
    /\ clock w <= changed <= clock w'
    /\ users (database w') = users (database w) ++ [user]
    /\ sessions (database w') = sessions (database w)
    /\ audit_logs (database w')
       = audit_logs (database w)
         ++ [audit_row (audit_logs (database w)) (Some (AuthUser.id user))
                       "REGISTRATION" "SUCCESS"
                       [("username", VStr username); ("email", VStr email)] None
                       created]
    /\ redis w' = redis w.
Proof.
  intros Hfind Hok. unfold register_user, register_user_body. run. rewrite Hfind.
  destruct (validate _ _ _) as [ok errors].
  cbn in Hok. subst ok. cbn [negb]. unfold hash_password, insert_user. run.
  destruct (require_email_verification config); run;
    do 4 eexists; cbv zeta; (split; [reflexivity |]); store_fields;
    (split; [lia |]); done.
Qed.

(** X19: [register_user] refuses a username or an e-mail address that a
    stored row already has: it returns "Username or email already exists",
    stores no user, hashes no password and takes nothing from the random
    source; the one thing it writes is an audit row REGISTRATION_FAILED /
    DUPLICATE without a user id. *)
Theorem duplicate_registration_refused (roles : list AuthRole.t)
    (username email password : string) (w : World) (u : AuthUser.t) :
  u ∈ users (database w) ->
  AuthUser.username u = username \/ AuthUser.email u = email ->
  exists a w',
    register roles username email password w
    = (Next (false, "Username or email already exists", None), w')
    /\ users (database w') = users (database w)
    /\ sessions (database w') = sessions (database w)
    /\ audit_logs (database w') = audit_logs (database w) ++ [a]
    /\ AuthAuditLog.user_id a = None
    /\ AuthAuditLog.event_type a = "REGISTRATION_FAILED"
    /\ AuthAuditLog.event_status a = "DUPLICATE"
    /\ AuthAuditLog.details a
       = Some [("username", VStr username); ("email", VStr email)]
    /\ redis w' = redis w
    /\ entropy w' = entropy w.
Proof.
  intros Hin Hdup.
  destruct (find_index (is_existing username email) (users (database w)))
    as [i |] eqn:Hfind.
  2: { pose proof (find_index_none _ _ Hfind u Hin) as Hno.
       unfold is_existing in Hno. apply orb_false_iff in Hno as [Hn He].
       apply String.eqb_neq in Hn, He. by destruct Hdup. }
  unfold register_user, register_user_body. run. rewrite Hfind. run.
  do 2 eexists. split; [reflexivity |]. store_fields. by repeat split.
Qed.

(** X20: when no stored row has the username or the e-mail address and the
    password does not pass [validate_password_strength], [register_user]
    returns the findings joined by "; " and leaves the world exactly as
    it was: no user row, no audit row, no clock reading, nothing taken from
    the random source. *)
Theorem weak_password_registers_nothing (roles : list AuthRole.t)
    (username email password : string) (w : World) :
  find_index (is_existing username email) (users (database w)) = None ->
  (validate password (Some username) (Some email)).1 = false ->
  register roles username email password w
  = (Next (false,
           Py.join "; " (validate password (Some username) (Some email)).2, None),
     w).
Proof.
  intros Hfind Hbad. unfold register_user, register_user_body. run. rewrite Hfind.
  destruct (validate _ _ _) as [ok errors]. cbn in Hbad. subst ok. cbn [negb snd].
  by run.
Qed.

(** X21: when no stored row has the username or the e-mail address and the
    password passes [validate_password_strength], [register_user] succeeds
    and appends one user row: the given username and e-mail address, the
    Argon2 hash of the password, [email_verified] the negation of
    [require_email_verification], the role named 'user' if the role table
    has one, active, unlocked, without second factor, zero failed
    attempts, [password_changed_at] a clock reading of the call.  An
    e-mail verification token is generated exactly when the configuration
    requires verification.  One audit row REGISTRATION / SUCCESS with the
    new id is written; sessions and cache are left alone. *)
Theorem registration_stores_user (roles : list AuthRole.t)
    (username email password : string) (w : World) :
  find_index (is_existing username email) (users (database w)) = None ->
  (validate password (Some username) (Some email)).1 = true ->
  exists user token w' a changed,
    register roles username email password w
    = (Next (true, "Registration successful",
             Some {| registered_row := user; email_verification_token := token |}),
       w')
    /\ users (database w') = users (database w) ++ [user]
    /\ sessions (database w') = sessions (database w)
    /\ redis w' = redis w
    /\ audit_logs (database w') = audit_logs (database w) ++ [a]
    /\ AuthAuditLog.user_id a = Some (AuthUser.id user)
    /\ AuthAuditLog.event_type a = "REGISTRATION"
    /\ AuthAuditLog.event_status a = "SUCCESS"
    /\ AuthUser.username user = username
    /\ AuthUser.email user = email
    /\ AuthUser.password_hash user = argon2_hash password (hd "" (entropy w))
    /\ AuthUser.email_verified user = negb (require_email_verification config)
    /\ (token = None <-> require_email_verification config = false)
    /\ AuthUser.roles user
       = match List.find (fun r => String.eqb (AuthRole.name r) "user") roles with
         | Some r => [r]
         | None => []
         end
    /\ AuthUser.is_active user = true
    /\ AuthUser.is_locked user = false
    /\ AuthUser.mfa_enabled user = false
    /\ AuthUser.must_change_password user = false
    /\ AuthUser.failed_login_attempts user = 0
    /\ AuthUser.password_changed_at user = Some changed
    /\ clock w <= changed <= clock w'.
Proof.
  intros Hfind Hok.
  destruct (register_user_success roles username email password w Hfind Hok)
    as (uuid & changed & created & w' & H).
  cbv zeta in H. destruct H as (Hrun & Hck & Hus & Hss & Hal & Hrd).
  eexists _, _, w', _, changed. split; [exact Hrun |].
  split; [exact Hus |]. split; [exact Hss |]. split; [exact Hrd |].
  split; [exact Hal |]. cbn.
  repeat split; try done; try lia;
    destruct (require_email_verification config); done.
Qed.

(** X22: [register_user] keeps usernames pairwise distinct and e-mail
    addresses pairwise distinct: if they are so before a call, they are so
    after it, whatever the call returns. *)
Theorem registration_keeps_names_distinct (roles : list AuthRole.t)
    (username email password : string) (w : World) :
  NoDup (map AuthUser.username (users (database w))) ->
  NoDup (map AuthUser.email (users (database w))) ->
  let w' := (register roles username email password w).2 in
  NoDup (map AuthUser.username (users (database w')))
  /\ NoDup (map AuthUser.email (users (database w'))).
Proof.
  intros Hnames Hmails. cbv zeta.
  destruct (find_index (is_existing username email) (users (database w)))
    as [i |] eqn:Hfind.
  - unfold register_user, register_user_body. run. rewrite Hfind. run.
    store_fields. done.
  - destruct (validate password (Some username) (Some email)).1 eqn:Hok.
    + destruct (register_user_success roles username email password w Hfind Hok)
        as (uuid & changed & created & w' & H).
      cbv zeta in H. destruct H as (Hrun & _ & Hus & _).
      rewrite Hrun. cbn [snd]. rewrite Hus, !map_app. cbn [map AuthUser.username AuthUser.email].
      pose proof (find_index_none _ _ Hfind) as Hno.
      split; apply NoDup_app; (split; [done |]); (split; [| apply NoDup_singleton]);
        intros x Hx Hx'; apply list_elem_of_singleton in Hx'; subst x;
        apply list_elem_of_fmap in Hx as (u & Hu & Hin);
        specialize (Hno u Hin); unfold is_existing in Hno;
        apply orb_false_iff in Hno as [Hn He];
        apply String.eqb_neq in Hn, He; congruence.
    + unfold register_user, register_user_body. run. rewrite Hfind.
      destruct (validate _ _ _) as [ok errors]. cbn in Hok. subst ok. cbn [negb].
      by run.
Qed.

End RegisterUser.

(** ** Registration followed by a login *)

Section RegisterThenLogin.

Variable argon2_hash : string -> string -> string.
Variable argon2_verify : string -> string -> bool.
Variable pwd_context_verify : string -> string -> string + bool.
Variable totp_at : string -> Z -> string.
Variable config : AuthConfig.
Variable private_key public_key : nat.

Local Abbreviation register := (register_user argon2_hash config).
Local Abbreviation auth :=
  (authenticate argon2_verify pwd_context_verify totp_at config private_key public_key).
Local Abbreviation validate :=
  (PasswordManager.validate_password_strength config).

Lemma find_index_app_new {A} (p : A -> bool) (l : list A) (x : A) :
  (forall y, y ∈ l -> p y = false) -> p x = true ->
  find_index p (l ++ [x]) = Some (length l).
Proof.
  intros Hl Hx. induction l as [| y l IH]; cbn; [by rewrite Hx |].
  rewrite (Hl y) by by left.
  rewrite IH; [done |]. intros z Hz. apply Hl. by right.
Qed.

Lemma find_index_app_old {A} (p : A -> bool) (l l' : list A) (x : A) :
  x ∈ l -> p x = true ->
  exists j y, find_index p (l ++ l') = Some j /\ l !! j = Some y /\ p y = true.
Proof.
  intros Hin Hx. induction l as [| z l IH]; [by apply elem_of_nil in Hin |].
  cbn. destruct (p z) eqn:Hz; [by exists 0%nat, z |].
  apply elem_of_cons in Hin as [-> | Hin]; [congruence |].
  destruct (IH Hin) as (j & y & -> & Hy & Hpy). by exists (S j), y.
Qed.

(** The world a successful registration leaves, as far as a login of the
    new user looks at it. *)
Lemma registered_row_found roles username email password w :
  find_index (is_existing username email) (users (database w)) = None ->
  (forall u, u ∈ users (database w) -> AuthUser.email u <> username) ->
  (validate password (Some username) (Some email)).1 = true ->
  exists h user,
    let w' := (register roles username email password w).2 in
    find_index (matches_login username) (users (database w')) = Some h
    /\ users (database w') !! h = Some user
    /\ AuthUser.password_hash user = argon2_hash password (hd "" (entropy w))
    /\ AuthUser.is_locked user = false
    /\ AuthUser.is_active user = true
    /\ AuthUser.email_verified user = negb (require_email_verification config)
    /\ AuthUser.mfa_enabled user = false
    /\ AuthUser.password_changed_at user <> None.
Proof.
  intros Hfind Hshadow Hok.
  destruct (register_user_success argon2_hash config roles username email password w
              Hfind Hok) as (uuid & changed & created & w' & H).
  cbv zeta in H. destruct H as (Hrun & _ & Hus & _).
  eexists (length (users (database w))), _. cbv zeta. rewrite Hrun. cbn [snd].
  rewrite Hus. split.
  - apply find_index_app_new.
    + intros u Hu. pose proof (find_index_none _ _ Hfind u Hu) as Hno.
      unfold is_existing in Hno. apply orb_false_iff in Hno as [Hn _].
      unfold matches_login. rewrite Hn. cbn. apply String.eqb_neq. by apply Hshadow.
    + unfold matches_login. cbn. by rewrite String.eqb_refl.
  - split; [by rewrite lookup_app_r, Nat.sub_diag by lia |]. by repeat split.
Qed.


(** X24: a user registered under a configuration that requires e-mail
    verification cannot log in: the row is stored with [email_verified]
    false, and [authenticate] with the right username and password returns
    "Email not verified" in the world the registration left. *)
Theorem registered_user_must_verify_email (roles : list AuthRole.t)
    (username email password : string) (ip ua mfa : option string) (w : World) :
  (forall p salt, argon2_verify (argon2_hash p salt) p = true) ->
  find_index (is_existing username email) (users (database w)) = None ->
  (forall u, u ∈ users (database w) -> AuthUser.email u <> username) ->
  (validate password (Some username) (Some email)).1 = true ->
  require_email_verification config = true ->
  let w' := (register roles username email password w).2 in
  (auth username password ip ua mfa w').1 = (false, "Email not verified", None).
Proof.
  intros Hhash Hfind Hshadow Hok Hreq.
  destruct (registered_row_found roles username email password w Hfind Hshadow Hok)
    as (h & user & H).
  cbv zeta in *.
  destruct H as (Hf & Hu & Hpw & Hlock & Hact & Hver & Hmfa & Hch).
  rewrite Hreq in Hver. cbn in Hver.
  pose proof (authenticate_email_not_verified argon2_verify pwd_context_verify totp_at
                config private_key public_key username password ip ua mfa _ h user
                Hf Hu) as H.
  destruct (auth username password ip ua mfa _) as [r w2].
  apply H; try done.
  - intros Hl. congruence.
  - unfold PasswordManager.verify_password. by rewrite Hpw, Hhash.
Qed.

(** X25: [register_user] compares the new username with stored usernames
    and the new e-mail address with stored e-mail addresses, and nothing
    else: a username that equals the e-mail address of a stored row is
    accepted.  Afterwards the filter of the query of [authenticate] for
    that name matches two rows of the table: the stored one through its
    e-mail address and the new one through its username. *)
Theorem username_may_equal_a_stored_email (roles : list AuthRole.t)
    (username email password : string) (w : World) (u0 : AuthUser.t) :
  u0 ∈ users (database w) ->
  AuthUser.email u0 = username ->
  find_index (is_existing username email) (users (database w)) = None ->
  (validate password (Some username) (Some email)).1 = true ->
  exists user w',
    register roles username email password w
    = (Next (true, "Registration successful", Some user), w')
    /\ AuthUser.username (registered_row user) = username
    /\ users (database w') = users (database w) ++ [registered_row user]
    /\ AuthUser.username u0 <> username
    /\ matches_login username u0 = true
    /\ matches_login username (registered_row user) = true.
Proof.
  intros Hin Hmail Hfind Hok.
  destruct (register_user_success argon2_hash config roles username email password w
              Hfind Hok) as (uuid & changed & created & w' & H).
  cbv zeta in H. destruct H as (Hrun & _ & Hus & _).
  eexists _, w'. split; [exact Hrun |]. cbn [registered_row].
  split; [done |]. split; [exact Hus |].
  assert (Hno : is_existing username email u0 = false)
    by by apply (find_index_none _ _ Hfind).
  unfold is_existing in Hno. apply orb_false_iff in Hno as [Hn _].
  apply String.eqb_neq in Hn. split; [done |].
  unfold matches_login. cbn [AuthUser.username].
  rewrite Hmail, !String.eqb_refl. split; [apply orb_true_r | done].
Qed.

End RegisterThenLogin.

(** ** Properties of [verify_session] *)

Section VerifySessionProperties.

Variable int_of_str : string -> option Z.
Variable py_repr : string -> string.
Variable redis_holds : World -> string -> bool.
Variable query_other : PyValue -> list AuthSession.t -> Z -> string + option nat.
Variable config : AuthConfig.
Variable private_key public_key : nat.

Local Abbreviation jm := (jwt_manager config private_key public_key).
Local Abbreviation session_key :=
  (fun claims : Jwt.Claims => cache_key (format_claim py_repr (claims !! "session_id"))).
Local Abbreviation cached := (redis_get redis_holds).
Local Abbreviation check_session :=
  (verify_session int_of_str py_repr redis_holds query_other config private_key
     public_key).

(** A token whose header or signature is not in order is rejected at any
    time. *)
Lemma unsigned_token_rejected token token_type now :
  signature_in_order jm token = false ->
  JWTManager.verify_token int_of_str jm token token_type now = inr None.
Proof.
  unfold signature_in_order, JWTManager.verify_token, Jwt.decode, Jwt.and_then,
    Jwt.check.
  destruct token as [raw | alg payload sig]; [done |].
  cbn [JWTManager.config JWTManager.public_key jwt_manager].
  destruct (bool_decide (alg ∈ [jwt_algorithm config])); [| done].
  cbn [andb]. by intros ->.
Qed.

(** X26: a token that [verify_token] rejects makes [verify_session] return
    [None] without a look at the cache or the database: nothing is written
    and nothing is taken from the random source. *)
Theorem rejected_token_touches_nothing (token : Jwt.Token) (w : World) :
  JWTManager.verify_token int_of_str jm token "access" (clock w) = inr None ->
  exists w',
    check_session token w = (Next None, w')
    /\ database w' = database w
    /\ redis w' = redis w
    /\ entropy w' = entropy w.
Proof.
  intros Hno. unfold verify_session, verify_session_body.
  destruct (signature_in_order jm token) eqn:Hsig; run.
  - rewrite Hno. run. by eexists.
  - rewrite unsigned_token_rejected by done. run. by eexists.
Qed.

(** X27: on a cache hit [verify_session] returns the claims of the token
    and does nothing else: when the token verifies and Redis still holds an
    entry under the key of its session id, the claims are returned whatever
    the session table says about that session (absent, inactive or
    expired), and nothing is written. *)
Theorem cached_session_is_trusted (token : Jwt.Token) (w : World)
    (claims : Jwt.Claims) (entry : Z * CachedSession) :
  signature_in_order jm token = true ->
  JWTManager.verify_token int_of_str jm token "access" (clock w) = inr (Some claims) ->
  claims <> ∅ ->
  cached (tick w) (session_key claims) = Some entry ->
  check_session token w = (Next (Some claims), tick w).
Proof.
  intros Hsig Hok Hne Hhit. unfold verify_session, verify_session_body.
  rewrite Hsig. run. rewrite Hok. run. rewrite bool_decide_eq_false_2 by done.
  unfold _get_cached_session. run. rewrite Hhit. cbn [fmap option_fmap option_map].
  by run.
Qed.

(** X28: on a cache miss [verify_session] asks the database: when the token
    verifies, its session id is a string, Redis has no entry for it and no
    row of the session table has that id, is flagged active and expires
    after the clock reading of the query, the answer is [None], and
    neither the database nor the cache changes. *)
Theorem unknown_session_is_refused (token : Jwt.Token) (w : World)
    (claims : Jwt.Claims) (sid : string) :
  signature_in_order jm token = true ->
  JWTManager.verify_token int_of_str jm token "access" (clock w) = inr (Some claims) ->
  claims !! "session_id" = Some (VStr sid) ->
  cached (tick w) (cache_key sid) = None ->
  (forall s, s ∈ sessions (database w) ->
     is_current sid (clock (tick w)) s = false) ->
  exists w',
    check_session token w = (Next None, w')
    /\ database w' = database w
    /\ redis w' = redis w
    /\ entropy w' = entropy w.
Proof.
  intros Hsig Hok Hsid Hmiss Hnone. unfold verify_session, verify_session_body.
  rewrite Hsig. run. rewrite Hok. run.
  rewrite bool_decide_eq_false_2
    by (intros ->; by rewrite lookup_empty in Hsid).
  unfold _get_cached_session. run. rewrite Hsid. cbn [format_claim].
  rewrite Hmiss. cbn [fmap option_fmap option_map]. run.
  unfold query_session. run.
  destruct (find_index _ _) as [h |] eqn:Hfind.
  { apply find_index_lookup in Hfind as (s & Hs & Hcur).
    rewrite Hnone in Hcur; [done |]. by eapply list_elem_of_lookup_2. }
  run. by eexists.
Qed.

(** What the database path does with the current row the query returns,
    when the cache takes the session. *)
Lemma stored_session_outcome token w claims sid h s :
  signature_in_order jm token = true ->
  JWTManager.verify_token int_of_str jm token "access" (clock w) = inr (Some claims) ->
  claims !! "session_id" = Some (VStr sid) ->
  cached (tick w) (cache_key sid) = None ->
  find_index (is_current sid (clock (tick w))) (sessions (database w)) = Some h ->
  sessions (database w) !! h = Some s ->
  (forall expires, AuthSession.expires_at s = Some expires ->
     Py.td_seconds (expires - clock (tick (tick (tick w)))) <> 0) ->
  exists expires w',
    check_session token w = (Next (Some claims), w')
    /\ AuthSession.session_id s = sid
    /\ AuthSession.is_active s = true
    /\ AuthSession.expires_at s = Some expires
    /\ clock (tick w) < expires
    /\ sessions (database w')
       = <[h := set_last_activity (clock (tick (tick w))) s]> (sessions (database w))
    /\ users (database w') = users (database w)
    /\ audit_logs (database w') = audit_logs (database w)
    /\ redis w'
       = <[cache_key sid :=
             (Py.td_seconds (expires - clock (tick (tick (tick w)))),
              {| cached_user_id := AuthSession.user_id s;
                 cached_expires_at := Some expires;
                 cached_ip_address := AuthSession.ip_address s |})]> (redis w)
    /\ entropy w' = entropy w
    /\ clock (tick (tick w)) <= clock w'.
Proof.
  intros Hsig Hok Hsid Hmiss Hfind Hs Httl.
  pose proof (find_index_lookup _ _ _ Hfind) as (s' & Hs' & Hcur).
  rewrite Hs in Hs'. injection Hs' as <-.
  unfold is_current in Hcur.
  apply andb_true_iff in Hcur as [Hcur Hexp].
  apply andb_true_iff in Hcur as [Hid Hact].
  apply String.eqb_eq in Hid.
  destruct (AuthSession.expires_at s) as [expires |] eqn:Hexpires; [| done].
  apply Z.ltb_lt in Hexp.
  unfold verify_session, verify_session_body.
  rewrite Hsig. run. rewrite Hok. run.
  rewrite bool_decide_eq_false_2
    by (intros ->; by rewrite lookup_empty in Hsid).
  unfold _get_cached_session. run. rewrite Hsid. cbn [format_claim].
  rewrite Hmiss. cbn [fmap option_fmap option_map]. run.
  unfold query_session. run. rewrite Hfind. run.
  erewrite run_read_session
    by (cbn [sessions set_sessions]; rewrite list_lookup_alter_eq, Hs; reflexivity).
  run. unfold _cache_session.
  assert (Hfields : AuthSession.expires_at (set_last_activity (clock (tick (tick w))) s)
                    = Some expires
                    /\ AuthSession.session_id
                         (set_last_activity (clock (tick (tick w))) s) = sid
                    /\ AuthSession.user_id
                         (set_last_activity (clock (tick (tick w))) s)
                       = AuthSession.user_id s
                    /\ AuthSession.ip_address
                         (set_last_activity (clock (tick (tick w))) s)
                       = AuthSession.ip_address s).
  { destruct s. cbn in *. by subst. }
  destruct Hfields as (-> & -> & -> & ->). run.
  destruct (Py.td_seconds _ =? 0) eqn:Hz.
  { apply Z.eqb_eq in Hz. destruct (Httl expires eq_refl). exact Hz. }
  run.
  exists expires. eexists. split; [reflexivity |]. store_fields.
  repeat split; try done; [by apply alter_as_insert | lia].
Qed.

(** X29: on a cache miss a stored session keeps the token alive: when the
    token verifies, Redis has no entry for its session id, the session
    table has a row with that id that is flagged active and has not
    expired, and the [seconds] field of the remaining lifetime of such a
    row is not 0 at the cache write, [verify_session] returns the claims,
    sets [last_activity] of one such row to a clock reading, commits, and
    caches the session again; user rows and audit rows are left alone. *)
Theorem stored_session_is_refreshed (token : Jwt.Token) (w : World)
    (claims : Jwt.Claims) (sid : string) (s0 : AuthSession.t) :
  signature_in_order jm token = true ->
  JWTManager.verify_token int_of_str jm token "access" (clock w) = inr (Some claims) ->
  claims !! "session_id" = Some (VStr sid) ->
  cached (tick w) (cache_key sid) = None ->
  s0 ∈ sessions (database w) ->
  is_current sid (clock (tick w)) s0 = true ->
  (forall s expires,
     s ∈ sessions (database w) ->
     is_current sid (clock (tick w)) s = true ->
     AuthSession.expires_at s = Some expires ->
     Py.td_seconds (expires - clock (tick (tick (tick w)))) <> 0) ->
  exists h s t ttl w',
    check_session token w = (Next (Some claims), w')
    /\ sessions (database w) !! h = Some s
    /\ is_current sid (clock (tick w)) s = true
    /\ sessions (database w') = <[h := set_last_activity t s]> (sessions (database w))
    /\ clock w <= t <= clock w'
    /\ users (database w') = users (database w)
    /\ audit_logs (database w') = audit_logs (database w)
    /\ redis w'
       = <[cache_key sid :=
             (ttl, {| cached_user_id := AuthSession.user_id s;
                      cached_expires_at := AuthSession.expires_at s;
                      cached_ip_address := AuthSession.ip_address s |})]> (redis w).
Proof.
  intros Hsig Hok Hsid Hmiss Hin Hcur Httl.
  destruct (find_index_app_old (is_current sid (clock (tick w)))
              (sessions (database w)) [] s0 Hin Hcur) as (h & s & Hfind & Hs & Hcur').
  rewrite app_nil_r in Hfind.
  destruct (stored_session_outcome token w claims sid h s Hsig Hok Hsid Hmiss Hfind Hs)
    as (expires & w' & Hrun & _ & _ & Hexp & _ & Hss & Hus & Hal & Hrd & _ & Hck).
  { intros expires. apply Httl; [by eapply list_elem_of_lookup_2 | done]. }
  exists h, s, (clock (tick (tick w))). eexists _, w'.
  split; [exact Hrun |]. split; [exact Hs |]. split; [exact Hcur' |].
  split; [exact Hss |]. rewrite Hexp.
  split; [cbn [clock tick] in *; lia |]. by repeat split.
Qed.

End VerifySessionProperties.

(** ** A login followed by a session check *)

Section LoginThenVerify.

Variable argon2_verify : string -> string -> bool.
Variable pwd_context_verify : string -> string -> string + bool.
Variable totp_at : string -> Z -> string.
Variable int_of_str : string -> option Z.
Variable py_repr : string -> string.
Variable redis_holds : World -> string -> bool.
Variable query_other : PyValue -> list AuthSession.t -> Z -> string + option nat.
Variable config : AuthConfig.
Variable private_key public_key : nat.

Local Abbreviation jm := (jwt_manager config private_key public_key).
Local Abbreviation auth :=
  (authenticate argon2_verify pwd_context_verify totp_at config private_key public_key).
Local Abbreviation check_session :=
  (verify_session int_of_str py_repr redis_holds query_other config private_key
     public_key).

(** An issued access token passes [verify_token] during its lifetime. *)
Lemma issued_access_token_accepted user sid now jti t :
  public_key = private_key ->
  jwt_audience config <> "" ->
  now <= t < now + jwt_access_token_expiry config ->
  let token := JWTManager.generate_access_token jm user sid now jti in
  signature_in_order jm token = true
  /\ exists claims,
       JWTManager.verify_token int_of_str jm token "access" t = inr (Some claims)
       /\ claims !! "session_id" = Some (VStr sid)
       /\ claims !! "sub" = Some (VStr (AuthUser.uuid user))
       /\ claims !! "username" = Some (VStr (AuthUser.username user)).
Proof.
  intros Hkey Haud [Hlo Hhi]. cbv zeta.
  unfold JWTManager.generate_access_token, Jwt.encode, signature_in_order.
  cbn [JWTManager.config JWTManager.public_key JWTManager.private_key jwt_manager].
  rewrite signature_of_encode.
  rewrite bool_decide_eq_true_2 by set_solver.
  rewrite (bool_decide_eq_true_2 _ Hkey). split; [done |].
  unfold JWTManager.verify_token.
  cbn [JWTManager.config JWTManager.public_key JWTManager.private_key jwt_manager].
  erewrite decode_issued; [| reflexivity ..].
  rewrite bool_decide_eq_true_2 by set_solver. rewrite signature_of_encode.
  rewrite (bool_decide_eq_true_2 _ Hkey), (proj2 (Z.leb_le _ _) Hlo),
    (proj2 (Z.ltb_lt _ _) Hhi), (bool_decide_eq_false_2 _ Haud),
    !bool_decide_eq_true_2 by done.
  cbn [negb andb String.eqb Ascii.eqb Bool.eqb].
  eexists. split; [reflexivity |]. repeat split; reflexivity.
Qed.

(** A verified token with a current row is accepted, cached or not, when
    the cache takes the session. *)
Lemma current_session_accepted token w claims sid s0 :
  signature_in_order jm token = true ->
  JWTManager.verify_token int_of_str jm token "access" (clock w) = inr (Some claims) ->
  claims !! "session_id" = Some (VStr sid) ->
  s0 ∈ sessions (database w) ->
  is_current sid (clock (tick w)) s0 = true ->
  (forall s expires,
     s ∈ sessions (database w) ->
     AuthSession.session_id s = sid ->
     AuthSession.expires_at s = Some expires ->
     Py.td_seconds (expires - clock (tick (tick (tick w)))) <> 0) ->
  exists w', check_session token w = (Next (Some claims), w').
Proof.
  intros Hsig Hok Hsid Hin Hcur Httl.
  destruct (redis_get redis_holds (tick w) (cache_key sid)) as [entry |] eqn:Hget.
  - exists (tick w). unfold verify_session, verify_session_body.
    rewrite Hsig. run. rewrite Hok. run.
    rewrite bool_decide_eq_false_2
      by (intros ->; by rewrite lookup_empty in Hsid).
    unfold _get_cached_session. run. rewrite Hsid. cbn [format_claim].
    rewrite Hget. cbn [fmap option_fmap option_map]. by run.
  - destruct (find_index_app_old (is_current sid (clock (tick w)))
                (sessions (database w)) [] s0 Hin Hcur) as (h & s & Hfind & Hs & _).
    rewrite app_nil_r in Hfind.
    destruct (stored_session_outcome int_of_str py_repr redis_holds query_other config
                private_key public_key token w claims sid h s Hsig Hok Hsid Hget
                Hfind Hs) as (expires & w' & Hrun & _).
    { intros expires. apply Httl; [by eapply list_elem_of_lookup_2 |].
      apply find_index_lookup in Hfind as (s' & Hs' & Hcur').
      rewrite Hs in Hs'. injection Hs' as <-.
      unfold is_current in Hcur'. apply andb_true_iff in Hcur' as [Hcur' _].
      apply andb_true_iff in Hcur' as [Hid _]. by apply String.eqb_eq in Hid. }
    by exists w'.
Qed.

(** X30: the access token of a successful login is accepted by
    [verify_session]: with matching keys and a non-empty configured
    audience, as long as the access-token lifetime and the absolute session
    timeout, counted from the start of the login, have not run out, and
    provided that the [seconds] field of the remaining lifetime of the
    stored session is not 0 at the moment it would be cached again,
    [verify_session] returns the claims of the token, whether Redis still
    holds the session or not; the claims name the stored session and the
    user. *)
Theorem login_then_verify_session (username password : string)
    (ip ua mfa : option string) (w : World) :
  let '(r, w1) := auth username password ip ua mfa w in
  r.1.1 = true ->
  public_key = private_key ->
  jwt_audience config <> "" ->
  clock w1 < clock w + jwt_access_token_expiry config ->
  clock (tick w1) < clock w + session_absolute_timeout config ->
  (forall s expires,
     s ∈ sessions (database w1) ->
     AuthSession.session_id s = hd "" (entropy w) ->
     AuthSession.expires_at s = Some expires ->
     Py.td_seconds (expires - clock (tick (tick (tick w1)))) <> 0) ->
  exists login s claims w3,
    r.2 = Some login
    /\ last (sessions (database w1)) = Some s
    /\ check_session (ld_access_token login) w1 = (Next (Some claims), w3)
    /\ claims !! "session_id" = Some (VStr (AuthSession.session_id s))
    /\ claims !! "username" = Some (VStr (ld_username login)).
Proof.
  pose proof (success_cases argon2_verify pwd_context_verify totp_at config
                private_key public_key username password ip ua mfa w) as H.
  destruct (auth username password ip ua mfa w) as [r wl].
  intros Hok Hkey Haud Htoken Hsession Httl.
  destruct (H Hok) as (h & u0 & Hfind & Hu0 & Hs). clear H.
  open_succeeded Hs. subst r.
  assert (Hwin : issued <= clock wl < issued + jwt_access_token_expiry config) by lia.
  destruct (issued_access_token_accepted u1 (hd "" (entropy w2)) issued jti_a
              (clock wl) Hkey Haud Hwin) as (Hsig & claims & Hv & Hsid & _ & Hname).
  rewrite Hdata. cbn [ld_access_token ld_username snd].
  match type of Hsessions with
  | _ = _ ++ [?row] =>
      destruct (current_session_accepted
                  (JWTManager.generate_access_token jm u1 (hd "" (entropy w2))
                     issued jti_a)
                  wl claims (hd "" (entropy w2)) row Hsig Hv Hsid) as (w3 & Hrun)
  end.
  { rewrite Hsessions. apply elem_of_app. right. by left. }
  { unfold is_current. cbn [AuthSession.session_id AuthSession.is_active
      AuthSession.expires_at]. rewrite String.eqb_refl. cbn [andb].
    apply Z.ltb_lt. store_fields. lia. }
  { intros s' expires Hin Hid. apply Httl; [done |]. by rewrite Hid, Hen2, Hen1. }
  eexists _, _, claims, w3. split; [reflexivity |].
  rewrite Hsessions, last_snoc. split; [reflexivity |].
  split; [exact Hrun |]. by split.
Qed.

End LoginThenVerify.

(** ** The further properties on the examples *)

Section Scenes.

Import Fixtures Scenarios.

Local Abbreviation verify := (PasswordManager.verify_password argon2_verify pwd_context_verify).

(** The cache takes every row of [l] at the reading [now]. *)
Lemma ttl_check (l : list AuthSession.t) (now : Z) :
  forallb (fun s => match AuthSession.expires_at s with
                    | Some e => negb (Py.td_seconds (e - now) =? 0)
                    | None => true
                    end) l = true ->
  forall s expires, s ∈ l -> AuthSession.expires_at s = Some expires ->
    Py.td_seconds (expires - now) <> 0.
Proof.
  intros H s expires Hin Hexp. rewrite forallb_forall in H.
  apply list_elem_of_In in Hin. specialize (H s Hin). rewrite Hexp in H.
  by apply negb_true_iff, Z.eqb_neq in H.
Qed.

Lemma history_window_seasons :
  0 < password_history_count default_config
  /\ Z.of_nat (length recent_hashes) = password_history_count default_config
  /\ (forall h, h ∈ recent_hashes -> exists b, verify "summer" h = inr b)
  /\ exists b,
       check_password_history argon2_verify pwd_context_verify default_config
         "summer" (Some (older_hashes ++ recent_hashes)) = inr b
       /\ (b = false <-> exists h, h ∈ recent_hashes /\ verify "summer" h = inr true).
Proof.
  assert (H1 : 0 < password_history_count default_config) by reflexivity.
  assert (H2 : Z.of_nat (length recent_hashes) = password_history_count default_config)
    by reflexivity.
  assert (H3 : forall h, h ∈ recent_hashes -> exists b, verify "summer" h = inr b)
    by (intros h Hh; unfold recent_hashes in Hh;
        repeat (apply elem_of_cons in Hh as [-> | Hh]);
        [eexists; vm_compute; reflexivity .. | by apply elem_of_nil in Hh]).
  split; [exact H1 |]. split; [exact H2 |]. split; [exact H3 |].
  exact (history_window argon2_verify pwd_context_verify default_config "summer"
           older_hashes recent_hashes H1 H2 H3).
Defined.

Lemma history_count_zero_seasons :
  (password_history_count no_history_config = 0
   \/ Z.of_nat (length recent_hashes) <= password_history_count no_history_config)
  /\ (forall h, h ∈ recent_hashes -> exists b, verify "spring" h = inr b)
  /\ exists b,
       check_password_history argon2_verify pwd_context_verify no_history_config
         "spring" (Some recent_hashes) = inr b
       /\ (b = false <-> exists h, h ∈ recent_hashes /\ verify "spring" h = inr true).
Proof.
  assert (H1 : password_history_count no_history_config = 0
               \/ Z.of_nat (length recent_hashes)
                  <= password_history_count no_history_config)
    by (left; reflexivity).
  assert (H2 : forall h, h ∈ recent_hashes -> exists b, verify "spring" h = inr b)
    by (intros h Hh; unfold recent_hashes in Hh;
        repeat (apply elem_of_cons in Hh as [-> | Hh]);
        [eexists; vm_compute; reflexivity .. | by apply elem_of_nil in Hh]).
  split; [exact H1 |]. split; [exact H2 |].
  exact (history_count_zero_checks_everything argon2_verify pwd_context_verify
           no_history_config "spring" recent_hashes H1 H2).
Defined.

Lemma totp_accepts_within_one_step_bob :
  - 30 <= 1000029 - 1000000 <= 30
  /\ MFAManager.verify_token totp_at (Some "JBSWY3DPEHPK3PXP")
       (totp_at "JBSWY3DPEHPK3PXP" (1000000 / 30)) 1000029 = inr true.
Proof.
  assert (H : - 30 <= 1000029 - 1000000 <= 30) by lia.
  split; [exact H |].
  exact (totp_accepts_within_one_step totp_at "JBSWY3DPEHPK3PXP" 1000000 1000029 H).
Defined.

Lemma access_token_valid_in_window_alice :
  let m := JWTManager.mk default_config 1%nat 1%nat in
  (JWTManager.public_key m = JWTManager.private_key m
   /\ jwt_audience (JWTManager.config m) <> ""
   /\ 1000000 <= 1000899 < 1000000 + jwt_access_token_expiry (JWTManager.config m))
  /\ exists claims,
       JWTManager.verify_token int_of_str m
         (JWTManager.generate_access_token m alice "sid-1" 1000000 "jti-1")
         "access" 1000899 = inr (Some claims)
       /\ claims !! "sub" = Some (VStr (AuthUser.uuid alice))
       /\ claims !! "username" = Some (VStr (AuthUser.username alice))
       /\ claims !! "session_id" = Some (VStr "sid-1")
       /\ claims !! "jti" = Some (VStr "jti-1").
Proof.
  intros m.
  assert (H : JWTManager.public_key m = JWTManager.private_key m
              /\ jwt_audience (JWTManager.config m) <> ""
              /\ 1000000 <= 1000899
                 < 1000000 + jwt_access_token_expiry (JWTManager.config m))
    by (split; [reflexivity | split; [discriminate | cbn; lia]]).
  split; [exact H |].
  exact (proj1 (access_token_valid_exactly_in_window int_of_str m alice
                  "sid-1" "jti-1" 1000000 1000899) H).
Defined.

Lemma staging_rejects_production_token :
  let m := JWTManager.mk default_config 1%nat 1%nat in
  let m' := JWTManager.mk staging_config 1%nat 1%nat in
  let token := JWTManager.generate_access_token m alice "sid-1" 1000000 "jti-1" in
  (token = JWTManager.generate_access_token m alice "sid-1" 1000000 "jti-1"
   \/ token = JWTManager.generate_refresh_token m alice "sid-1" 1000000 "jti-1")
  /\ (jwt_issuer (JWTManager.config m') <> jwt_issuer (JWTManager.config m)
      \/ jwt_audience (JWTManager.config m') <> jwt_audience (JWTManager.config m)
      \/ jwt_algorithm (JWTManager.config m') <> jwt_algorithm (JWTManager.config m))
  /\ JWTManager.verify_token int_of_str m' token "access" 1000000 = inr None.
Proof.
  intros m m' token.
  assert (H1 : token = JWTManager.generate_access_token m alice "sid-1" 1000000 "jti-1"
               \/ token = JWTManager.generate_refresh_token m alice "sid-1" 1000000 "jti-1")
    by (left; reflexivity).
  assert (H2 : jwt_issuer (JWTManager.config m') <> jwt_issuer (JWTManager.config m)
               \/ jwt_audience (JWTManager.config m') <> jwt_audience (JWTManager.config m)
               \/ jwt_algorithm (JWTManager.config m')
                  <> jwt_algorithm (JWTManager.config m))
    by (left; discriminate).
  split; [exact H1 |]. split; [exact H2 |].
  exact (tokens_bound_to_issuer_and_audience int_of_str m m' alice "sid-1" "jti-1"
           "access" 1000000 1000000 token H1 H2).
Defined.

Local Abbreviation auth0 :=
  (authenticate argon2_verify pwd_context_verify totp_at default_config 1%nat 1%nat).

Lemma refused_login_leaves_sessions_alice :
  let '(r, w') := login default_config "alice" "guess" (Some "10.0.0.1") None None world0 in
  r.1.1 = false
  /\ Py.starts_with "Authentication failed" r.1.2 = false
  /\ r.2 = None
  /\ sessions (database w') = sessions (database world0)
  /\ redis w' = redis world0
  /\ entropy w' = entropy world0.
Proof.
  pose proof (refused_login_leaves_sessions argon2_verify pwd_context_verify totp_at
                default_config 1%nat 1%nat "alice" "guess" (Some "10.0.0.1") None None
                world0) as H.
  unfold login.
  assert (Hfail : (auth0 "alice" "guess" (Some "10.0.0.1") None None world0).1.1.1 = false)
    by (vm_compute; reflexivity).
  assert (Hmsg : Py.starts_with "Authentication failed"
                   (auth0 "alice" "guess" (Some "10.0.0.1") None None world0).1.1.2
                 = false)
    by (vm_compute; reflexivity).
  destruct (authenticate _ _ _ _ _ _ _ _ _ _ _ _) as [r w'].
  cbn [fst] in Hfail, Hmsg. split; [exact Hfail |]. split; [exact Hmsg |].
  exact (H Hfail Hmsg).
Defined.


Lemma verification_error_changes_nothing_carol :
  find_index (matches_login "carol") (users (database world_carol)) = Some 2%nat
  /\ users (database world_carol) !! 2%nat = Some carol
  /\ lock_clear carol (clock world_carol)
  /\ verify "password" (AuthUser.password_hash carol)
     = inl "hash could not be identified"
  /\ let '(r, w') := login default_config "carol" "password" None None None
                           world_carol in
     r = (false, "Authentication failed: hash could not be identified", None)
     /\ database w' = database world_carol
     /\ redis w' = redis world_carol
     /\ entropy w' = entropy world_carol.
Proof.
  assert (H3 : lock_clear carol (clock world_carol))
    by (intros _ t [= <-]; cbn; lia).
  split; [reflexivity |]. split; [reflexivity |]. split; [exact H3 |].
  split; [reflexivity |].
  exact (verification_error_changes_nothing argon2_verify pwd_context_verify totp_at
           default_config 1%nat 1%nat "carol" "password" None None None world_carol
           2%nat carol "hash could not be identified" eq_refl eq_refl H3 eq_refl).
Defined.

Lemma success_stores_what_it_returns_alice :
  let '(r, w') := login default_config "alice" "correct horse" (Some "10.0.0.1")
                        (Some "Mozilla/5.0") None world0 in
  r.1.1 = true
  /\ exists data s ttl,
       r = (true, "Authentication successful", Some data)
       /\ last (sessions (database w')) = Some s
       /\ AuthSession.session_id s = hd "" (entropy world0)
       /\ AuthSession.user_id s = ld_user_id data
       /\ AuthSession.access_token s = Some (ld_access_token data)
       /\ AuthSession.refresh_token s = Some (ld_refresh_token data)
       /\ AuthSession.ip_address s = Some "10.0.0.1"
       /\ AuthSession.user_agent s = Some "Mozilla/5.0"
       /\ AuthSession.is_active s = true
       /\ ld_expires_in data = jwt_access_token_expiry default_config
       /\ redis w' !! cache_key (AuthSession.session_id s)
          = Some (ttl, {| cached_user_id := ld_user_id data;
                          cached_expires_at := AuthSession.expires_at s;
                          cached_ip_address := Some "10.0.0.1" |}).
Proof.
  pose proof (success_stores_what_it_returns argon2_verify pwd_context_verify totp_at
                default_config 1%nat 1%nat "alice" "correct horse" (Some "10.0.0.1")
                (Some "Mozilla/5.0") None world0) as H.
  unfold login.
  assert (Hok : (auth0 "alice" "correct horse" (Some "10.0.0.1") (Some "Mozilla/5.0")
                   None world0).1.1.1 = true)
    by (vm_compute; reflexivity).
  destruct (authenticate _ _ _ _ _ _ _ _ _ _ _ _) as [r w'].
  cbn [fst] in Hok. split; [exact Hok |]. exact (H Hok).
Defined.

Lemma success_records_the_login_alice :
  let '(r, w') := login default_config "alice" "correct horse" (Some "10.0.0.1")
                        None None world0 in
  r.1.1 = true
  /\ exists h u u' t data,
       find_index (matches_login "alice") (users (database world0)) = Some h
       /\ users (database world0) !! h = Some u
       /\ users (database w') !! h = Some u'
       /\ same_account u u'
       /\ AuthUser.failed_login_attempts u' = 0
       /\ AuthUser.last_login u' = Some t
       /\ clock world0 <= t <= clock w'
       /\ AuthUser.last_login_ip u' = Some "10.0.0.1"
       /\ r.2 = Some data
       /\ ld_user_id data = AuthUser.id u
       /\ ld_username data = AuthUser.username u
       /\ ld_email data = AuthUser.email u
       /\ ld_roles data = map AuthRole.name (AuthUser.roles u)
       /\ ld_must_change_password data = AuthUser.must_change_password u'.
Proof.
  pose proof (success_records_the_login argon2_verify pwd_context_verify totp_at
                default_config 1%nat 1%nat "alice" "correct horse" (Some "10.0.0.1")
                None None world0) as H.
  unfold login.
  assert (Hok : (auth0 "alice" "correct horse" (Some "10.0.0.1") None None
                   world0).1.1.1 = true)
    by (vm_compute; reflexivity).
  destruct (authenticate _ _ _ _ _ _ _ _ _ _ _ _) as [r w'].
  cbn [fst] in Hok. split; [exact Hok |]. exact (H Hok).
Defined.


Local Abbreviation register0 := (register_user argon2_hash default_config roles_table).
Local Abbreviation validate0 :=
  (PasswordManager.validate_password_strength default_config).

Lemma duplicate_registration_refused_alice :
  alice ∈ users (database world0)
  /\ (AuthUser.username alice = "alice" \/ AuthUser.email alice = "al@example.org")
  /\ exists a w',
       register0 "alice" "al@example.org" "Tr0ub4dor&3x!Q" world0
       = (Next (false, "Username or email already exists", None), w')
       /\ users (database w') = users (database world0)
       /\ sessions (database w') = sessions (database world0)
       /\ audit_logs (database w') = audit_logs (database world0) ++ [a]
       /\ AuthAuditLog.user_id a = None
       /\ AuthAuditLog.event_type a = "REGISTRATION_FAILED"
       /\ AuthAuditLog.event_status a = "DUPLICATE"
       /\ AuthAuditLog.details a
          = Some [("username", VStr "alice"); ("email", VStr "al@example.org")]
       /\ redis w' = redis world0
       /\ entropy w' = entropy world0.
Proof.
  assert (H1 : alice ∈ users (database world0)) by (by left).
  assert (H2 : AuthUser.username alice = "alice"
               \/ AuthUser.email alice = "al@example.org") by (left; reflexivity).
  split; [exact H1 |]. split; [exact H2 |].
  exact (duplicate_registration_refused argon2_hash default_config roles_table
           "alice" "al@example.org" "Tr0ub4dor&3x!Q" world0 alice H1 H2).
Defined.

Lemma weak_password_registers_nothing_dave :
  find_index (is_existing "dave" "dave@example.org") (users (database world0)) = None
  /\ (validate0 "password" (Some "dave") (Some "dave@example.org")).1 = false
  /\ register0 "dave" "dave@example.org" "password" world0
     = (Next (false,
              Py.join "; "
                (validate0 "password" (Some "dave") (Some "dave@example.org")).2,
              None),
        world0).
Proof.
  split; [reflexivity |]. split; [reflexivity |].
  exact (weak_password_registers_nothing argon2_hash default_config roles_table
           "dave" "dave@example.org" "password" world0 eq_refl eq_refl).
Defined.

Lemma registration_stores_user_dave :
  find_index (is_existing "dave" "dave@example.org") (users (database world0)) = None
  /\ (validate0 "Tr0ub4dor&3x!Q" (Some "dave") (Some "dave@example.org")).1 = true
  /\ exists user token w' a changed,
       register0 "dave" "dave@example.org" "Tr0ub4dor&3x!Q" world0
       = (Next (true, "Registration successful",
                Some {| registered_row := user; email_verification_token := token |}),
          w')
       /\ users (database w') = users (database world0) ++ [user]
       /\ sessions (database w') = sessions (database world0)
       /\ redis w' = redis world0
       /\ audit_logs (database w') = audit_logs (database world0) ++ [a]
       /\ AuthAuditLog.user_id a = Some (AuthUser.id user)
       /\ AuthAuditLog.event_type a = "REGISTRATION"
       /\ AuthAuditLog.event_status a = "SUCCESS"
       /\ AuthUser.username user = "dave"
       /\ AuthUser.email user = "dave@example.org"
       /\ AuthUser.password_hash user
          = argon2_hash "Tr0ub4dor&3x!Q" (hd "" (entropy world0))
       /\ AuthUser.email_verified user
          = negb (require_email_verification default_config)
       /\ (token = None <-> require_email_verification default_config = false)
       /\ AuthUser.roles user
          = match List.find (fun r => String.eqb (AuthRole.name r) "user") roles_table with
            | Some r => [r]
            | None => []
            end
       /\ AuthUser.is_active user = true
       /\ AuthUser.is_locked user = false
       /\ AuthUser.mfa_enabled user = false
       /\ AuthUser.must_change_password user = false
       /\ AuthUser.failed_login_attempts user = 0
       /\ AuthUser.password_changed_at user = Some changed
       /\ clock world0 <= changed <= clock w'.
Proof.
  split; [reflexivity |]. split; [reflexivity |].
  exact (registration_stores_user argon2_hash default_config roles_table
           "dave" "dave@example.org" "Tr0ub4dor&3x!Q" world0 eq_refl eq_refl).
Defined.

Lemma registration_keeps_names_distinct_dave :
  NoDup (map AuthUser.username (users (database world0)))
  /\ NoDup (map AuthUser.email (users (database world0)))
  /\ let w' := (register0 "dave" "dave@example.org" "Tr0ub4dor&3x!Q" world0).2 in
     NoDup (map AuthUser.username (users (database w')))
     /\ NoDup (map AuthUser.email (users (database w'))).
Proof.
  assert (H1 : NoDup (map AuthUser.username (users (database world0))))
    by (apply (bool_decide_unpack _); vm_compute; exact I).
  assert (H2 : NoDup (map AuthUser.email (users (database world0))))
    by (apply (bool_decide_unpack _); vm_compute; exact I).
  split; [exact H1 |]. split; [exact H2 |].
  exact (registration_keeps_names_distinct argon2_hash default_config roles_table
           "dave" "dave@example.org" "Tr0ub4dor&3x!Q" world0 H1 H2).
Defined.

Lemma argon2_round_trip p salt : argon2_verify (argon2_hash p salt) p = true.
Proof. unfold argon2_verify, argon2_hash. apply String.eqb_refl. Qed.

Lemma no_email_is_dave u : u ∈ users (database world0) -> AuthUser.email u <> "dave".
Proof.
  intros Hu. cbn in Hu.
  repeat (apply elem_of_cons in Hu as [-> | Hu]); [discriminate .. |].
  by apply elem_of_nil in Hu.
Qed.


Lemma registered_user_must_verify_email_dave :
  (forall p salt, argon2_verify (argon2_hash p salt) p = true)
  /\ find_index (is_existing "dave" "dave@example.org") (users (database world0)) = None
  /\ (forall u, u ∈ users (database world0) -> AuthUser.email u <> "dave")
  /\ (validate0 "Tr0ub4dor&3x!Q" (Some "dave") (Some "dave@example.org")).1 = true
  /\ require_email_verification default_config = true
  /\ let w' := (register0 "dave" "dave@example.org" "Tr0ub4dor&3x!Q" world0).2 in
     (auth0 "dave" "Tr0ub4dor&3x!Q" None None None w').1
     = (false, "Email not verified", None).
Proof.
  split; [exact argon2_round_trip |]. split; [reflexivity |].
  split; [exact no_email_is_dave |]. split; [reflexivity |]. split; [reflexivity |].
  exact (registered_user_must_verify_email argon2_hash argon2_verify pwd_context_verify
           totp_at default_config 1%nat 1%nat roles_table
           "dave" "dave@example.org" "Tr0ub4dor&3x!Q" None None None world0
           argon2_round_trip eq_refl no_email_is_dave eq_refl eq_refl).
Defined.

Lemma username_may_equal_a_stored_email_alice :
  alice ∈ users (database world0)
  /\ AuthUser.email alice = "alice@example.org"
  /\ find_index (is_existing "alice@example.org" "eve@example.org")
       (users (database world0)) = None
  /\ (validate0 "Tr0ub4dor&3x!Q" (Some "alice@example.org")
        (Some "eve@example.org")).1 = true
  /\ exists user w',
       register0 "alice@example.org" "eve@example.org" "Tr0ub4dor&3x!Q" world0
       = (Next (true, "Registration successful", Some user), w')
       /\ AuthUser.username (registered_row user) = "alice@example.org"
       /\ users (database w') = users (database world0) ++ [registered_row user]
       /\ AuthUser.username alice <> "alice@example.org"
       /\ matches_login "alice@example.org" alice = true
       /\ matches_login "alice@example.org" (registered_row user) = true.
Proof.
  assert (H1 : alice ∈ users (database world0)) by (by left).
  split; [exact H1 |]. split; [reflexivity |]. split; [reflexivity |].
  split; [reflexivity |].
  exact (username_may_equal_a_stored_email argon2_hash default_config roles_table
           "alice@example.org" "eve@example.org" "Tr0ub4dor&3x!Q" world0 alice
           H1 eq_refl eq_refl eq_refl).
Defined.

Local Abbreviation jm0 := (jwt_manager default_config 1%nat 1%nat).
Local Abbreviation check0 :=
  (verify_session int_of_str py_repr redis_holds query_other default_config 1%nat 1%nat).

Lemma rejected_token_touches_nothing_garbage :
  JWTManager.verify_token int_of_str jm0 (Jwt.Garbage "not.a.token") "access"
    (clock world0) = inr None
  /\ exists w',
       check0 (Jwt.Garbage "not.a.token") world0 = (Next None, w')
       /\ database w' = database world0
       /\ redis w' = redis world0
       /\ entropy w' = entropy world0.
Proof.
  split; [reflexivity |].
  exact (rejected_token_touches_nothing int_of_str py_repr redis_holds query_other
           default_config 1%nat 1%nat (Jwt.Garbage "not.a.token") world0 eq_refl).
Defined.

Lemma alice_claims_not_empty : alice_claims <> ∅.
Proof.
  intros H. apply (f_equal (fun m : Jwt.Claims => m !! "sub")) in H.
  vm_compute in H. discriminate.
Qed.

Lemma cached_session_is_trusted_alice :
  signature_in_order jm0 alice_token = true
  /\ JWTManager.verify_token int_of_str jm0 alice_token "access"
       (clock world_cached_only) = inr (Some alice_claims)
  /\ alice_claims <> ∅
  /\ redis_get redis_holds (tick world_cached_only)
       (cache_key (format_claim py_repr (alice_claims !! "session_id")))
     = Some (43190, {| cached_user_id := 1; cached_expires_at := Some 1043190;
                       cached_ip_address := None |})
  /\ sessions (database world_cached_only) = []
  /\ check0 alice_token world_cached_only
     = (Next (Some alice_claims), tick world_cached_only).
Proof.
  assert (H1 : signature_in_order jm0 alice_token = true) by (vm_compute; reflexivity).
  assert (H2 : JWTManager.verify_token int_of_str jm0 alice_token "access"
                 (clock world_cached_only) = inr (Some alice_claims))
    by (vm_compute; reflexivity).
  assert (H4 : redis_get redis_holds (tick world_cached_only)
                 (cache_key (format_claim py_repr (alice_claims !! "session_id")))
               = Some (43190, {| cached_user_id := 1; cached_expires_at := Some 1043190;
                                 cached_ip_address := None |}))
    by (vm_compute; reflexivity).
  split; [exact H1 |]. split; [exact H2 |]. split; [exact alice_claims_not_empty |].
  split; [exact H4 |]. split; [reflexivity |].
  exact (cached_session_is_trusted int_of_str py_repr redis_holds query_other
           default_config 1%nat 1%nat alice_token world_cached_only alice_claims _
           H1 H2 alice_claims_not_empty H4).
Defined.

Lemma no_session_in_world0 s :
  s ∈ sessions (database world0) -> is_current "sid-1" (clock (tick world0)) s = false.
Proof. intros Hs. by apply elem_of_nil in Hs. Qed.

Lemma unknown_session_is_refused_alice :
  signature_in_order jm0 alice_token = true
  /\ JWTManager.verify_token int_of_str jm0 alice_token "access" (clock world0)
     = inr (Some alice_claims)
  /\ alice_claims !! "session_id" = Some (VStr "sid-1")
  /\ redis_get redis_holds (tick world0) (cache_key "sid-1") = None
  /\ (forall s, s ∈ sessions (database world0) ->
        is_current "sid-1" (clock (tick world0)) s = false)
  /\ exists w',
       check0 alice_token world0 = (Next None, w')
       /\ database w' = database world0
       /\ redis w' = redis world0
       /\ entropy w' = entropy world0.
Proof.
  assert (H1 : signature_in_order jm0 alice_token = true) by (vm_compute; reflexivity).
  assert (H2 : JWTManager.verify_token int_of_str jm0 alice_token "access"
                 (clock world0) = inr (Some alice_claims))
    by (vm_compute; reflexivity).
  assert (H3 : alice_claims !! "session_id" = Some (VStr "sid-1"))
    by (vm_compute; reflexivity).
  assert (H4 : redis_get redis_holds (tick world0) (cache_key "sid-1") = None)
    by (vm_compute; reflexivity).
  split; [exact H1 |]. split; [exact H2 |]. split; [exact H3 |]. split; [exact H4 |].
  split; [exact no_session_in_world0 |].
  exact (unknown_session_is_refused int_of_str py_repr redis_holds query_other
           default_config 1%nat 1%nat alice_token world0 alice_claims "sid-1"
           H1 H2 H3 H4 no_session_in_world0).
Defined.

Lemma stored_session_is_refreshed_alice :
  let s0 := session_of_alice 1 "sid-1" 999990 1043190 in
  signature_in_order jm0 alice_token = true
  /\ JWTManager.verify_token int_of_str jm0 alice_token "access"
       (clock world_stored_only) = inr (Some alice_claims)
  /\ alice_claims !! "session_id" = Some (VStr "sid-1")
  /\ redis_get redis_holds (tick world_stored_only) (cache_key "sid-1") = None
  /\ s0 ∈ sessions (database world_stored_only)
  /\ is_current "sid-1" (clock (tick world_stored_only)) s0 = true
  /\ (forall s expires,
        s ∈ sessions (database world_stored_only) ->
        is_current "sid-1" (clock (tick world_stored_only)) s = true ->
        AuthSession.expires_at s = Some expires ->
        Py.td_seconds (expires - clock (tick (tick (tick world_stored_only)))) <> 0)
  /\ exists h s t ttl w',
       check0 alice_token world_stored_only = (Next (Some alice_claims), w')
       /\ sessions (database world_stored_only) !! h = Some s
       /\ is_current "sid-1" (clock (tick world_stored_only)) s = true
       /\ sessions (database w')
          = <[h := set_last_activity t s]> (sessions (database world_stored_only))
       /\ clock world_stored_only <= t <= clock w'
       /\ users (database w') = users (database world_stored_only)
       /\ audit_logs (database w') = audit_logs (database world_stored_only)
       /\ redis w'
          = <[cache_key "sid-1" :=
                (ttl, {| cached_user_id := AuthSession.user_id s;
                         cached_expires_at := AuthSession.expires_at s;
                         cached_ip_address := AuthSession.ip_address s |})]>
              (redis world_stored_only).
Proof.
  intros s0.
  assert (H1 : signature_in_order jm0 alice_token = true) by (vm_compute; reflexivity).
  assert (H2 : JWTManager.verify_token int_of_str jm0 alice_token "access"
                 (clock world_stored_only) = inr (Some alice_claims))
    by (vm_compute; reflexivity).
  assert (H3 : alice_claims !! "session_id" = Some (VStr "sid-1"))
    by (vm_compute; reflexivity).
  assert (H4 : redis_get redis_holds (tick world_stored_only) (cache_key "sid-1") = None)
    by (vm_compute; reflexivity).
  assert (H5 : s0 ∈ sessions (database world_stored_only)) by (by left).
  assert (H6 : is_current "sid-1" (clock (tick world_stored_only)) s0 = true)
    by (vm_compute; reflexivity).
  split; [exact H1 |]. split; [exact H2 |]. split; [exact H3 |]. split; [exact H4 |].
  assert (H7 : forall s expires,
            s ∈ sessions (database world_stored_only) ->
            is_current "sid-1" (clock (tick world_stored_only)) s = true ->
            AuthSession.expires_at s = Some expires ->
            Py.td_seconds (expires - clock (tick (tick (tick world_stored_only))))
            <> 0).
  { intros s expires Hin _.
    apply (ttl_check (sessions (database world_stored_only)));
      [vm_compute; reflexivity | exact Hin]. }
  split; [exact H5 |]. split; [exact H6 |]. split; [exact H7 |].
  exact (stored_session_is_refreshed int_of_str py_repr redis_holds query_other
           default_config 1%nat 1%nat alice_token world_stored_only alice_claims
           "sid-1" s0 H1 H2 H3 H4 H5 H6 H7).
Defined.

Lemma login_then_verify_session_alice :
  let '(r, w1) := login default_config "alice" "correct horse" None None None world0 in
  r.1.1 = true
  /\ 1%nat = 1%nat
  /\ jwt_audience default_config <> ""
  /\ clock w1 < clock world0 + jwt_access_token_expiry default_config
  /\ clock (tick w1) < clock world0 + session_absolute_timeout default_config
  /\ (forall s expires,
        s ∈ sessions (database w1) ->
        AuthSession.session_id s = hd "" (entropy world0) ->
        AuthSession.expires_at s = Some expires ->
        Py.td_seconds (expires - clock (tick (tick (tick w1)))) <> 0)
  /\ exists data s claims w3,
       r.2 = Some data
       /\ last (sessions (database w1)) = Some s
       /\ check0 (ld_access_token data) w1 = (Next (Some claims), w3)
       /\ claims !! "session_id" = Some (VStr (AuthSession.session_id s))
       /\ claims !! "username" = Some (VStr (ld_username data)).
Proof.
  pose proof (login_then_verify_session argon2_verify pwd_context_verify totp_at
                int_of_str py_repr redis_holds query_other default_config 1%nat 1%nat
                "alice" "correct horse" None None None world0) as H.
  unfold login.
  assert (Hok : (auth0 "alice" "correct horse" None None None world0).1.1.1 = true)
    by (vm_compute; reflexivity).
  assert (Haud : jwt_audience default_config <> "") by discriminate.
  assert (Ht : clock (auth0 "alice" "correct horse" None None None world0).2
               < clock world0 + jwt_access_token_expiry default_config)
    by (vm_compute; reflexivity).
  assert (Hs : clock (tick (auth0 "alice" "correct horse" None None None world0).2)
               < clock world0 + session_absolute_timeout default_config)
    by (vm_compute; reflexivity).
  assert (Httl : forall s expires,
            s ∈ sessions
                  (database (auth0 "alice" "correct horse" None None None world0).2) ->
            AuthSession.session_id s = hd "" (entropy world0) ->
            AuthSession.expires_at s = Some expires ->
            Py.td_seconds
              (expires
               - clock (tick (tick (tick
                   (auth0 "alice" "correct horse" None None None world0).2))))
            <> 0).
  { intros s expires Hin _.
    apply (ttl_check (sessions
             (database (auth0 "alice" "correct horse" None None None world0).2)));
      [vm_compute; reflexivity | exact Hin]. }
  destruct (authenticate _ _ _ _ _ _ _ _ _ _ _ _) as [r w1].
  cbn [fst snd] in Hok, Ht, Hs, Httl.
  split; [exact Hok |]. split; [reflexivity |]. split; [exact Haud |].
  split; [exact Ht |]. split; [exact Hs |]. split; [exact Httl |].
  exact (H Hok eq_refl Haud Ht Hs Httl).
Defined.

End Scenes.
